(** * Project-Jarvis: the resilient file-transfer engine

    A shallow embedding of [src/video_agent/file_transfer.py] (class
    [FileTransfer]) and the properties of its specification.

    Layout:
    - [PyStr]: the string operations of Python the code relies on
      (whitespace, [strip], [split], [in], [startswith], [int(str)]) and
      the two regular expressions of [_get_instance_ip];
    - [Json]: the values [json.loads] produces, truthiness, [int(value)];
    - [Locator]: the pure part of [_get_instance_ip];
    - [Effects]: a free monad of external calls with exceptions, its
      traces and its executions;
    - [Transfer]: the methods of [FileTransfer];
    - [Traces], [Priority] and the definitions after them: the words the
      properties are stated in;
    - the lemmas and the theorems.

    Conventions.  A Python [str] is a Rocq [string] whose characters are
    the code points below 256.  [print] calls are log output and are not
    modelled.  Exceptions are modelled by their class only. *)

From Stdlib Require Import ZArith List String Ascii Bool Lia QArith
  DecimalString.
Import ListNotations.
Close Scope Q_scope.
Open Scope Z_scope.
Open Scope string_scope.

(** ** Exceptions and results *)

Inductive exn : Type :=
| ValueError | TypeError | KeyError | AttributeError | OverflowError
| RuntimeError | OSError | FileNotFoundError | NotADirectoryError
| CalledProcessError | JSONDecodeError | EOFError
| KeyboardInterrupt | SystemExit.

(** [except Exception] catches every class but the two that derive from
    [BaseException] only. *)
Definition is_Exception (e : exn) : bool :=
  match e with
  | KeyboardInterrupt | SystemExit => false
  | _ => true
  end.

(** [except json.JSONDecodeError] *)
Definition is_JSONDecodeError (e : exn) : bool :=
  match e with
  | JSONDecodeError => true
  | _ => false
  end.

(** [except (ValueError, TypeError)]; [JSONDecodeError] derives from
    [ValueError]. *)
Definition is_ValueError_or_TypeError (e : exn) : bool :=
  match e with
  | ValueError | JSONDecodeError | TypeError => true
  | _ => false
  end.

Inductive result (A : Type) : Type :=
| Ok (a : A)
| Err (e : exn).
Arguments Ok {A} a.
Arguments Err {A} e.

(** ** Python strings *)

Module PyStr.

Definition code (c : ascii) : N := N_of_ascii c.

(** [Py_UNICODE_ISSPACE] below 256: what [\s], [str.strip] and [int]
    treat as white space. *)
Definition isspace (c : ascii) : bool :=
  let n := code c in
  ((9 <=? n) && (n <=? 13) || (28 <=? n) && (n <=? 32)
   || (n =? 133) || (n =? 160))%N.

(** [\d] below 256: the ASCII digits. *)
Definition isdigit (c : ascii) : bool :=
  let n := code c in ((48 <=? n) && (n <=? 57))%N.

Definition digit_value (c : ascii) : Z := Z.of_N (code c) - 48.

Fixpoint take_while (p : ascii -> bool) (s : string) : string :=
  match s with
  | EmptyString => EmptyString
  | String c r => if p c then String c (take_while p r) else EmptyString
  end.

Fixpoint drop_while (p : ascii -> bool) (s : string) : string :=
  match s with
  | EmptyString => EmptyString
  | String c r => if p c then drop_while p r else s
  end.

Fixpoint forallb_str (p : ascii -> bool) (s : string) : bool :=
  match s with
  | EmptyString => true
  | String c r => p c && forallb_str p r
  end.

Definition is_empty (s : string) : bool :=
  match s with EmptyString => true | _ => false end.

Fixpoint rev_str (acc s : string) : string :=
  match s with
  | EmptyString => acc
  | String c r => rev_str (String c acc) r
  end.

(** [s.strip()] *)
Definition lstrip (s : string) : string := drop_while isspace s.
Definition rstrip (s : string) : string :=
  rev_str "" (drop_while isspace (rev_str "" s)).
Definition strip (s : string) : string := rstrip (lstrip s).

(** [s.startswith(p)] *)
Definition startswith (p s : string) : bool := String.prefix p s.

(** [sub in s] *)
Fixpoint contains (sub s : string) : bool :=
  String.prefix sub s ||
  match s with
  | EmptyString => false
  | String _ r => contains sub r
  end.

(** [s.split(sep)] for a one-character separator. *)
Fixpoint split (sep : ascii) (s : string) : list string :=
  match s with
  | EmptyString => [EmptyString]
  | String c r =>
      if Ascii.eqb c sep then EmptyString :: split sep r
      else match split sep r with
           | [] => [String c EmptyString]
           | h :: t => String c h :: t
           end
  end.

(** *** [int(s)] for a string

    White space is stripped, one sign is allowed, and the digits may be
    separated by single underscores.  CPython refuses more than
    [int_max_str_digits] digits with a [ValueError]. *)
Definition int_max_str_digits : nat := 4300.

Fixpoint parse_digits (s : string) (acc : Z) (n : nat) (after_digit : bool)
  : option (Z * nat) :=
  match s with
  | EmptyString => if after_digit then Some (acc, n) else None
  | String c r =>
      if isdigit c then parse_digits r (10 * acc + digit_value c) (S n) true
      else if Ascii.eqb c "_" && after_digit then parse_digits r acc n false
      else None
  end.

Definition parse_unsigned (s : string) : option Z :=
  match parse_digits s 0 0%nat false with
  | Some (v, n) => if (int_max_str_digits <? n)%nat then None else Some v
  | None => None
  end.

(** [None] stands for the [ValueError] of [int]. *)
Definition int_of_str (s : string) : option Z :=
  match strip s with
  | String "-" r => option_map Z.opp (parse_unsigned r)
  | String "+" r => parse_unsigned r
  | t => parse_unsigned t
  end.

(** *** The regular expressions of [_get_instance_ip] *)

(** The class [[^:\s]]. *)
Definition host_char (c : ascii) : bool :=
  negb (Ascii.eqb c ":" || isspace c).

(** [re.search(r'@([^:\s]+)', s)]: group 1 of the leftmost match. *)
Fixpoint search_host (s : string) : option string :=
  match s with
  | EmptyString => None
  | String c r =>
      if Ascii.eqb c "@" then
        match take_while host_char r with
        | EmptyString => search_host r
        | g => Some g
        end
      else search_host r
  end.

(** [-p\s+(\d+)] anchored at the start of [s]. *)
Definition match_port_here (s : string) : option string :=
  match s with
  | String "-" (String "p" r) =>
      if is_empty (take_while isspace r) then None
      else match take_while isdigit (drop_while isspace r) with
           | EmptyString => None
           | d => Some d
           end
  | _ => None
  end.

(** [re.search(r'-p\s+(\d+)', s)]: group 1 of the leftmost match. *)
Fixpoint search_port (s : string) : option string :=
  match match_port_here s with
  | Some d => Some d
  | None =>
      match s with
      | EmptyString => None
      | String _ r => search_port r
      end
  end.

End PyStr.

(** ** JSON values *)

Module Json.

(** A Python [float]: a finite value (every one is a rational), an
    infinity or a NaN. *)
Inductive pyfloat : Type :=
| FFinite (q : Q)
| FInf (negative : bool)
| FNaN.

#[local] Set Warnings "-register-all".
Inductive json : Type :=
| JNull
| JBool (b : bool)
| JInt (z : Z)
| JFloat (f : pyfloat)
| JStr (s : string)
| JArr (l : list json)
| JObj (d : list (string * json)).

(** A [dict] with string keys, in insertion order; a key occurs once. *)
Definition dict : Type := list (string * json).

(** [d.get(k)] / [d[k]] *)
Fixpoint dict_get (d : dict) (k : string) : option json :=
  match d with
  | [] => None
  | (k', v) :: r => if String.eqb k' k then Some v else dict_get r k
  end.

(** [k in d] *)
Definition dict_has (d : dict) (k : string) : bool :=
  match dict_get d k with Some _ => true | None => false end.

(** Truth value testing: [if v:]. *)
Definition truthy (v : json) : bool :=
  match v with
  | JNull => false
  | JBool b => b
  | JInt z => negb (z =? 0)%Z
  | JFloat (FFinite q) => negb (Qnum q =? 0)%Z
  | JFloat _ => true
  | JStr s => negb (PyStr.is_empty s)
  | JArr l => match l with [] => false | _ => true end
  | JObj d => match d with [] => false | _ => true end
  end.

(** [k in d and d[k]] *)
Definition truthy_field (d : dict) (k : string) : option json :=
  match dict_get d k with
  | Some v => if truthy v then Some v else None
  | None => None
  end.

(** [v == s] for a string [s]. *)
Definition eq_str (v : json) (s : string) : bool :=
  match v with
  | JStr t => String.eqb t s
  | _ => false
  end.

(** [int(v)] *)
Definition py_int (v : json) : result Z :=
  match v with
  | JInt z => Ok z
  | JBool b => Ok (if b then 1 else 0)
  | JFloat (FFinite q) => Ok (Z.quot (Qnum q) (Z.pos (Qden q)))
  | JFloat (FInf _) => Err OverflowError
  | JFloat FNaN => Err ValueError
  | JStr s => match PyStr.int_of_str s with
              | Some z => Ok z
              | None => Err ValueError
              end
  | JNull | JArr _ | JObj _ => Err TypeError
  end.

End Json.
Import Json.

(** ** The instance locator: the pure part of [_get_instance_ip] *)

Module Locator.

(** What [get_gpu_status()] returns: JSON text or a structure. *)
Inductive status_data : Type :=
| StatusText (s : string)
| StatusValue (v : json).

(** A resolved endpoint; the host is whatever value the record holds. *)
Definition endpoint : Type := (json * Z)%type.

Definition default_port : Z := 22.

(** The parsing of an SSH command [ssh_cmd], shared by the two places
    that do it: both searches run first ([TypeError] unless [ssh_cmd] is
    a string), then [if host_match:] with the port of [port_match] when
    [int] accepts it.  [Ok None] when there is no host match. *)
Definition parse_ssh_command (ssh_cmd : json) : result (option endpoint) :=
  match ssh_cmd with
  | JStr s =>
      let host_match := PyStr.search_host s in
      let port_match := PyStr.search_port s in
      match host_match with
      | Some ip_address =>
          let port :=
            match port_match with
            | Some g => match PyStr.int_of_str g with
                        | Some p => p
                        | None => default_port
                        end
            | None => default_port
            end in
          Ok (Some (JStr ip_address, port))
      | None => Ok None
      end
  | _ => Err TypeError
  end.

(** [isinstance(instance[k], dict)] with [k in instance]. *)
Definition dict_field (d : dict) (k : string) : option dict :=
  match dict_get d k with
  | Some (JObj o) => Some o
  | _ => None
  end.

(** The body of [elif 'ssh' in instance and isinstance(..., dict)]. *)
Definition ssh_branch (ssh_info : dict) : result (option json * Z) :=
  let ip_address := truthy_field ssh_info "host" in
  match truthy_field ssh_info "port" with
  | Some p =>
      match py_int p with
      | Ok port => Ok (ip_address, port)
      | Err e => if is_ValueError_or_TypeError e
                 then Ok (ip_address, default_port)
                 else Err e
      end
  | None => Ok (ip_address, default_port)
  end.

(** [for field in [...]: if field in nested and nested[field]: ...; break] *)
Fixpoint first_truthy_field (nested : dict) (fields : list string)
  : option json :=
  match fields with
  | [] => None
  | f :: r => match truthy_field nested f with
              | Some v => Some v
              | None => first_truthy_field nested r
              end
  end.

(** The [if]/[elif] chain after the [sshCommand] block.  [inl] is the
    pair [(ip_address, port)] the chain leaves, [inr] a [return] from
    inside it. *)
Definition field_chain (instance : dict)
  : result ((option json * Z) + option endpoint) :=
  match truthy_field instance "ip" with
  | Some v => Ok (inl (Some v, default_port))
  | None =>
  match truthy_field instance "ipAddress" with
  | Some v => Ok (inl (Some v, default_port))
  | None =>
  match dict_field instance "ssh" with
  | Some ssh_info =>
      match ssh_branch ssh_info with
      | Ok r => Ok (inl r)
      | Err e => Err e
      end
  | None =>
  match dict_field instance "network" with
  | Some network_info => Ok (inl (truthy_field network_info "ip", default_port))
  | None =>
  match dict_field instance "status" with
  | Some status_info => Ok (inl (truthy_field status_info "ip", default_port))
  | None =>
  match dict_field instance "instance" with
  | Some nested =>
      let others :=
        Ok (inl (first_truthy_field nested
                   ["ip"; "ipAddress"; "hostname"; "address"], default_port)) in
      match truthy_field nested "sshCommand" with
      | Some ssh_cmd =>
          match parse_ssh_command ssh_cmd with
          | Err e => Err e
          | Ok (Some ep) => Ok (inr (Some ep))
          | Ok None => others
          end
      | None => others
      end
  | None => Ok (inl (None, default_port))
  end end end end end end.

(** Lines 124-220: from the matched record to the endpoint. *)
Definition resolve_endpoint (instance : dict) : result (option endpoint) :=
  let rest :=
    match field_chain instance with
    | Err e => Err e
    | Ok (inr r) => Ok r
    | Ok (inl (Some ip_address, port)) =>
        if truthy ip_address then Ok (Some (ip_address, port)) else Ok None
    | Ok (inl (None, _)) => Ok None
    end in
  match truthy_field instance "sshCommand" with
  | Some ssh_cmd =>
      match parse_ssh_command ssh_cmd with
      | Err e => Err e
      | Ok (Some ep) => Ok (Some ep)
      | Ok None => rest
      end
  | None => rest
  end.

(** ['instances' in status] and the like, for a [status] that is not a
    dict: membership in a list, a substring test on a string, a
    [TypeError] otherwise. *)
Definition non_dict_has (status : json) (k : string) : result bool :=
  match status with
  | JArr l => Ok (existsb (fun v => eq_str v k) l)
  | JStr s => Ok (PyStr.contains k s)
  | _ => Err TypeError
  end.

(** Lines 107-113: the iterable [instances]. *)
Definition extract_instances (status : json) : result json :=
  match status with
  | JObj d =>
      match dict_get d "instances" with
      | Some (JArr l) => Ok (JArr l)
      | _ =>
      match dict_get d "data" with
      | Some (JArr l) => Ok (JArr l)
      | Some (JObj data) =>
          match dict_get data "instances" with
          | Some v => Ok v
          | None => Ok (JArr [])
          end
      | _ => Ok (JArr [])
      end end
  | _ =>
      (* [status['instances']] and [status['data']] raise [TypeError]
         on a list or a string *)
      match non_dict_has status "instances" with
      | Err e => Err e
      | Ok true => Err TypeError
      | Ok false =>
          match non_dict_has status "data" with
          | Err e => Err e
          | Ok true => Err TypeError
          | Ok false => Ok (JArr [])
          end
      end
  end.

(** [for inst in instances: if inst.get('id') == instance_id: ...; break]
    over a list; only a dict has [get]. *)
Fixpoint find_in_list (instance_id : string) (l : list json)
  : result (option dict) :=
  match l with
  | [] => Ok None
  | JObj inst :: r =>
      match dict_get inst "id" with
      | Some v => if eq_str v instance_id then Ok (Some inst)
                  else find_in_list instance_id r
      | None => find_in_list instance_id r
      end
  | _ :: _ => Err AttributeError
  end.

(** The same loop over any value: a dict iterates its keys and a string
    its characters, which have no [get]; the rest is not iterable. *)
Definition find_instance (instance_id : string) (instances : json)
  : result (option dict) :=
  match instances with
  | JArr l => find_in_list instance_id l
  | JObj [] | JStr EmptyString => Ok None
  | JObj _ | JStr _ => Err AttributeError
  | _ => Err TypeError
  end.

(** [_get_instance_ip] once the status is decoded. *)
Definition locate (instance_id : string) (status : json)
  : result (option endpoint) :=
  match extract_instances status with
  | Err e => Err e
  | Ok instances =>
      match find_instance instance_id instances with
      | Err e => Err e
      | Ok None => Ok None
      | Ok (Some instance) =>
          match instance with
          | [] => Ok None            (* [if not instance:] *)
          | _ => resolve_endpoint instance
          end
      end
  end.

End Locator.
Import Locator.

(** ** External calls, programs and their executions *)

Module Effects.

(** [subprocess.CompletedProcess] *)
Record completed_process : Type := {
  returncode : Z;
  stdout : string;
  stderr : string
}.

(** The calls the code makes outside itself. *)
Inductive action : Type :=
| IsConnected                          (* ssh_manager.is_connected *)
| GetConnectionInfo                    (* ssh_manager.get_connection_info() *)
| GetGpuStatus                         (* get_gpu_status() *)
| ConnectSsh (host : json) (username private_key_path : string) (port : Z)
             (key_password : option string)
| ExecuteRemoteCommand (command instance_id : string) (timeout : option Z)
| SubprocessRun (cmd : list string)    (* subprocess.run, before [check] *)
| Environ (name : string)              (* os.environ.get *)
| PathExists (path : string)           (* os.path.exists *)
| PathIsDir (path : string)            (* os.path.isdir *)
| GetSize (path : string)              (* os.path.getsize *)
| Makedirs (path : string)             (* os.makedirs(exist_ok=True) *)
| Unlink (path : string)               (* os.unlink *)
| NamedTemporaryFile (suffix : string) (* its [name], [delete=False] *)
| Uuid4Hex                             (* uuid.uuid4().hex *)
| Input (prompt : string)              (* input *)
| Sleep (seconds : Z).                 (* time.sleep *)

(** What each call gives back; those that may raise give a [result]. *)
Definition response (a : action) : Type :=
  match a with
  | IsConnected => bool
  | GetConnectionInfo => result dict
  | GetGpuStatus => result status_data
  | ConnectSsh _ _ _ _ _ => result string
  | ExecuteRemoteCommand _ _ _ => result string
  | SubprocessRun _ => result completed_process
  | Environ _ => option string
  | PathExists _ => bool
  | PathIsDir _ => bool
  | GetSize _ => result Z
  | Makedirs _ => result unit
  | Unlink _ => result unit
  | NamedTemporaryFile _ => result string
  | Uuid4Hex => string
  | Input _ => result string
  | Sleep _ => unit
  end.

(** Programs: a value, a raised exception, or a call and what follows. *)
Inductive prog (R : Type) : Type :=
| Ret (r : R)
| Raise (e : exn)
| Vis (a : action) (k : response a -> prog R).
Arguments Ret {R} r.
Arguments Raise {R} e.
Arguments Vis {R} a k.

Fixpoint bind {A B : Type} (p : prog A) (f : A -> prog B) : prog B :=
  match p with
  | Ret r => f r
  | Raise e => Raise e
  | Vis a k => Vis a (fun x => bind (k x) f)
  end.

Definition call (a : action) : prog (response a) := Vis a Ret.

Definition lift {A : Type} (r : result A) : prog A :=
  match r with
  | Ok a => Ret a
  | Err e => Raise e
  end.

(** [try: p  except <classes>: h] *)
Fixpoint try_except {A : Type} (p : prog A) (classes : exn -> bool)
  (h : exn -> prog A) : prog A :=
  match p with
  | Ret r => Ret r
  | Raise e => if classes e then h e else Raise e
  | Vis a k => Vis a (fun x => try_except (k x) classes h)
  end.

(** [try: p  finally: cleanup] *)
Fixpoint try_finally {A : Type} (p : prog A) (cleanup : prog unit) : prog A :=
  match p with
  | Ret r => bind cleanup (fun _ => Ret r)
  | Raise e => bind cleanup (fun _ => Raise e)
  | Vis a k => Vis a (fun x => try_finally (k x) cleanup)
  end.

Declare Scope prog_scope.
Delimit Scope prog_scope with prog.
Bind Scope prog_scope with prog.
Notation "x <- p ;; q" := (bind p (fun x => q))
  (at level 61, p at next level, right associativity) : prog_scope.
Notation "p ;; q" := (bind p (fun _ => q))
  (at level 61, right associativity) : prog_scope.
Open Scope prog_scope.

(** How a loop body ends: fall to the next iteration, or [return]. *)
Inductive flow : Type := Continue | Return.

(** [for i in range(start, start + n): body] *)
Fixpoint for_range_from (start : Z) (n : nat) (body : Z -> prog flow)
  : prog flow :=
  match n with
  | O => Ret Continue
  | S n' =>
      f <- body start ;;
      match f with
      | Return => Ret Return
      | Continue => for_range_from (start + 1) n' body
      end
  end.

(** [for i in range(stop): body] *)
Definition for_range (stop : Z) (body : Z -> prog flow) : prog flow :=
  for_range_from 0 (Z.to_nat stop) body.

(** [for x in l: body] without [return]. *)
Fixpoint for_each {A : Type} (l : list A) (body : A -> prog unit) : prog unit :=
  match l with
  | [] => Ret tt
  | x :: r => body x ;; for_each r body
  end.

(** *** Traces and executions *)

Inductive entry : Type :=
| Entry (a : action) (x : response a).

Definition trace : Type := list entry.

Inductive outcome (R : Type) : Type :=
| Returned (r : R)
| Raised (e : exn).
Arguments Returned {R} r.
Arguments Raised {R} e.

(** [exec p t o]: [p] can make the calls of [t], with the answers
    recorded there, and end as [o]. *)
Fixpoint exec {R : Type} (p : prog R) (t : trace) (o : outcome R) : Prop :=
  match p with
  | Ret r => t = [] /\ o = Returned r
  | Raise e => t = [] /\ o = Raised e
  | Vis a k => exists x t', t = Entry a x :: t' /\ exec (k x) t' o
  end.

(** An environment answers a call knowing the calls made so far. *)
Definition world : Type := trace -> forall a : action, response a.

(** Running [p] in [w] after the history [h]: the calls made and the
    outcome. *)
Fixpoint run {R : Type} (w : world) (h : trace) (p : prog R)
  : trace * outcome R :=
  match p with
  | Ret r => ([], Returned r)
  | Raise e => ([], Raised e)
  | Vis a k =>
      let x := w h a in
      let (t, o) := run w (h ++ [Entry a x])%list (k x) in
      (Entry a x :: t, o)
  end.

End Effects.
Import Effects.

(** ** The methods of [FileTransfer] *)

(** Library functions the code calls and this development leaves
    uninterpreted. *)
Class PyLib : Type := {
  json_loads : string -> result json;   (* json.loads: the value, or the
                                           exception it raises
                                           ([JSONDecodeError] for text that
                                           is no JSON, [ValueError] for an
                                           integer beyond the digit limit) *)
  py_str : json -> string;              (* [str(v)], as f-strings format *)
  expanduser : string -> string;        (* os.path.expanduser *)
  dirname : string -> string;           (* os.path.dirname *)
  basename : string -> string;          (* os.path.basename *)
  path_parent : string -> string;       (* str(Path(p).parent) *)
  relpath : string -> string -> string; (* os.path.relpath(path, start) *)
  path_join : string -> string -> string (* os.path.join *)
}.

Record FileTransfer : Type := { instance_id : string }.

Module Transfer.
Section Methods.

Context {lib : PyLib} (self : FileTransfer).

(** *** The external calls, as the code spells them *)

Definition os_path_exists (p : string) : prog bool := call (PathExists p).
Definition os_path_isdir (p : string) : prog bool := call (PathIsDir p).
Definition os_path_getsize (p : string) : prog Z :=
  r <- call (GetSize p) ;; lift r.
Definition os_makedirs (p : string) : prog unit :=
  r <- call (Makedirs p) ;; lift r.
Definition os_unlink (p : string) : prog unit :=
  r <- call (Unlink p) ;; lift r.
Definition os_environ_get (name : string) : prog (option string) :=
  call (Environ name).
Definition time_sleep (seconds : Z) : prog unit := call (Sleep seconds).
Definition input (prompt : string) : prog string :=
  r <- call (Input prompt) ;; lift r.
Definition get_gpu_status : prog status_data :=
  r <- call GetGpuStatus ;; lift r.
Definition connect_ssh (host : json) (username key : string) (port : Z)
  (key_password : option string) : prog string :=
  r <- call (ConnectSsh host username key port key_password) ;; lift r.
Definition execute_remote_command (command : string) (timeout : option Z)
  : prog string :=
  r <- call (ExecuteRemoteCommand command (instance_id self) timeout) ;; lift r.

(** [subprocess.run(cmd, capture_output=True, ..., check=check)] *)
Definition subprocess_run (cmd : list string) (check : bool)
  : prog completed_process :=
  r <- call (SubprocessRun cmd) ;;
  process <- lift r ;;
  if check && negb (returncode process =? 0)%Z
  then Raise CalledProcessError
  else Ret process.

(** [v.get(k)]: only a dict has [get]. *)
Definition json_get (v : json) (k : string) : result (option json) :=
  match v with
  | JObj d => Ok (dict_get d k)
  | _ => Err AttributeError
  end.

(** [v[k]] for a string [k]. *)
Definition subscript (v : json) (k : string) : result json :=
  match v with
  | JObj d => match dict_get d k with
              | Some x => Ok x
              | None => Err KeyError
              end
  | _ => Err TypeError
  end.

(** [json.loads(s)] *)
Definition loads (s : string) : prog json := lift (json_loads s).

(** [v.get("status") == "ok"] *)
Definition status_is_ok (v : json) : prog bool :=
  s <- lift (json_get v "status") ;;
  Ret match s with
      | Some x => eq_str x "ok"
      | None => false
      end.

(** *** [_get_instance_ip] (lines 86-220) *)
Definition _get_instance_ip : prog (option endpoint) :=
  status_data <- get_gpu_status ;;
  match status_data with
  | StatusText s =>
      match json_loads s with
      | Ok status => lift (locate (instance_id self) status)
      | Err e => if is_JSONDecodeError e then Ret None else Raise e
      end
  | StatusValue status => lift (locate (instance_id self) status)
  end.

(** *** [_ensure_ssh_access] (lines 34-84) *)
Definition _ensure_ssh_access : prog unit :=
  connected <- call IsConnected ;;
  if connected then Ret tt else
  key <- os_environ_get "SSH_PRIVATE_KEY_PATH" ;;
  match key with
  | None | Some EmptyString => Raise ValueError
  | Some key =>
      let ssh_key_path := expanduser key in
      found <- os_path_exists ssh_key_path ;;
      if negb found then Raise FileNotFoundError else
      ssh_key_password <- os_environ_get "SSH_KEY_PASSWORD" ;;
      ip_info <- _get_instance_ip ;;
      match ip_info with
      | None => Raise RuntimeError
      | Some (ip_address, port) =>
          ssh_result <-
            connect_ssh ip_address "ubuntu" ssh_key_path port ssh_key_password ;;
          ssh_result <-
            (if PyStr.contains "Successfully connected" ssh_result
             then Ret ssh_result
             else connect_ssh ip_address "root" ssh_key_path port
                    ssh_key_password) ;;
          if PyStr.contains "Successfully connected" ssh_result
          then Ret tt
          else Raise RuntimeError
      end
  end.

(** *** [_get_ssh_info] (lines 677-707) *)
Record ssh_info : Type := {
  ssh_host : json;
  ssh_username : json;
  ssh_port : json
}.

Definition get_default (d : dict) (k : string) (default : json) : json :=
  match dict_get d k with
  | Some v => v
  | None => default
  end.

Definition _get_ssh_info : prog ssh_info :=
  let from_instance_data :=
    ip_info <- _get_instance_ip ;;
    match ip_info with
    | None => Raise RuntimeError
    | Some (ip_address, port) =>
        Ret {| ssh_host := ip_address;
               ssh_username := JStr "ubuntu";
               ssh_port := JInt port |}
    end in
  connected <- call IsConnected ;;
  if connected then
    r <- call GetConnectionInfo ;;
    conn_info <- lift r ;;
    if match dict_get conn_info "status" with
       | Some s => eq_str s "connected"
       | None => false
       end
    then Ret {| ssh_host := get_default conn_info "host" JNull;
                ssh_username := get_default conn_info "username" JNull;
                ssh_port := get_default conn_info "port" (JInt 22) |}
    else from_instance_data
  else from_instance_data.

(** [os.environ.get('SSH_PRIVATE_KEY_PATH')], checked and expanded, as
    both [upload_file] and [download_file] do. *)
Definition ssh_key_from_environ : prog string :=
  key <- os_environ_get "SSH_PRIVATE_KEY_PATH" ;;
  match key with
  | None | Some EmptyString => Raise ValueError
  | Some key => Ret (expanduser key)
  end.

(** The [scp] command line, up to the two paths. *)
Definition scp_options (info : ssh_info) (ssh_key_path : string)
  : list string :=
  ["scp"; "-P"; py_str (ssh_port info);
   "-o"; "StrictHostKeyChecking=no";
   "-o"; "UserKnownHostsFile=/dev/null";
   "-o"; "ConnectTimeout=30";
   "-o"; "ServerAliveInterval=30";
   "-i"; ssh_key_path].

Definition remote_spec (info : ssh_info) (remote_path : string) : string :=
  py_str (ssh_username info) ++ "@" ++ py_str (ssh_host info) ++ ":"
  ++ remote_path.

(** [if attempt < max_retries - 1: time.sleep(5 * (attempt + 1))] *)
Definition backoff (attempt max_retries : Z) : prog unit :=
  if (attempt <? max_retries - 1)%Z
  then time_sleep (5 * (attempt + 1))
  else Ret tt.

(** One turn of a retry loop: the [try] block with its
    [except Exception], then the wait. *)
Definition retrying (max_retries : Z) (attempt_body : Z -> prog flow)
  (attempt : Z) : prog flow :=
  f <- try_except (attempt_body attempt) is_Exception (fun _ => Ret Continue) ;;
  match f with
  | Return => Ret Return
  | Continue => backoff attempt max_retries ;; Ret Continue
  end.

(** [curl -s -L '<url>' -o '<remote_path>' && echo 'success'] *)
Definition download_cmd (url remote_path : string) : string :=
  "curl -s -L '" ++ url ++ "' -o '" ++ remote_path ++ "' && echo 'success'".

(** The remote fetch and its check, shared by the three tiers:
    [Return] when the file is there and not empty. *)
Definition fetch_and_verify (url remote_path : string) (timeout : Z)
  : prog flow :=
  result <- execute_remote_command (download_cmd url remote_path)
              (Some timeout) ;;
  if PyStr.contains "success" result then
    verify_result <-
      execute_remote_command
        ("test -s '" ++ remote_path ++ "' && echo 'exists'") None ;;
    if PyStr.contains "exists" verify_result then Ret Return
    else Ret Continue
  else Ret Continue.

(** *** [upload_via_curl] (lines 311-481) *)

Definition transfer_sh_cmd (local_path unique_filename : string)
  : list string :=
  ["curl"; "--upload-file"; local_path;
   "https://transfer.sh/" ++ unique_filename].

Definition get_server_cmd : list string :=
  ["curl"; "https://api.gofile.io/getServer"].

Definition gofile_upload_cmd (local_path : string) (server : json)
  : list string :=
  ["curl"; "-F"; "file=@" ++ local_path;
   "https://" ++ py_str server ++ ".gofile.io/uploadFile"].

(** The [try] block of the small-file tier (lines 337-371). *)
Definition transfer_sh_attempt (local_path remote_path : string) (_ : Z)
  : prog flow :=
  hex <- call Uuid4Hex ;;
  let unique_filename := hex ++ "_" ++ basename local_path in
  process <- subprocess_run (transfer_sh_cmd local_path unique_filename) true ;;
  let download_url := PyStr.strip (stdout process) in
  fetch_and_verify download_url remote_path 300.

(** The [try] block of the large-file tier (lines 386-438). *)
Definition gofile_attempt (local_path remote_path : string) (_ : Z)
  : prog flow :=
  server_response <- subprocess_run get_server_cmd true ;;
  server_data <- loads (stdout server_response) ;;
  ok <- status_is_ok server_data ;;
  if negb ok then Raise RuntimeError else
  data <- lift (subscript server_data "data") ;;
  server <- lift (subscript data "server") ;;
  process <- subprocess_run (gofile_upload_cmd local_path server) true ;;
  upload_result <- loads (stdout process) ;;
  ok <- status_is_ok upload_result ;;
  if ok then
    data <- lift (subscript upload_result "data") ;;
    download_url <- lift (subscript data "downloadPage") ;;
    data <- lift (subscript upload_result "data") ;;
    file_id <- lift (subscript data "fileId") ;;
    data <- lift (subscript upload_result "data") ;;
    direct_link <- lift (subscript data "downloadLink") ;;
    fetch_and_verify (py_str direct_link) remote_path 600
  else Ret Continue.

(** The manual tier (lines 449-478). *)
Definition manual_upload (remote_path : string) : prog unit :=
  url <- input "Enter a public URL where the file can be downloaded from (or press Enter to skip): " ;;
  f <- (if PyStr.is_empty url then Ret Continue
        else try_except (fetch_and_verify url remote_path 1800)
               is_Exception (fun _ => Ret Continue)) ;;
  match f with
  | Return => Ret tt
  | Continue => Raise RuntimeError
  end.

(** [file_size_mb = os.path.getsize(local_path) / (1024 * 1024)]: the
    quotient by a power of two, compared with an integer, as a
    rational. *)
Definition file_size_mb (size : Z) : Q := Qmake size 1048576.

Definition Qltb (a b : Q) : bool :=
  match Qcompare a b with
  | Lt => true
  | _ => false
  end.

Definition upload_via_curl (local_path remote_path : string)
  (max_retries : Z) : prog unit :=
  found <- os_path_exists local_path ;;
  if negb found then Raise FileNotFoundError else
  size <- os_path_getsize local_path ;;
  let mb := file_size_mb size in
  if Qltb mb (inject_Z 25) then
    f <- for_range max_retries
           (retrying max_retries (transfer_sh_attempt local_path remote_path)) ;;
    match f with
    | Return => Ret tt
    | Continue => Raise RuntimeError
    end
  else if Qltb mb (inject_Z 2000) then
    f <- for_range max_retries
           (retrying max_retries (gofile_attempt local_path remote_path)) ;;
    match f with
    | Return => Ret tt
    | Continue => Raise RuntimeError
    end
  else manual_upload remote_path.

(** *** [upload_file] (lines 222-309) *)

(** The [try] block of the secure-copy upload loop (lines 268-299). *)
Definition scp_upload_attempt (info : ssh_info) (ssh_key_path : string)
  (local_path remote_path : string) (_ : Z) : prog flow :=
  let cmd := (scp_options info ssh_key_path
              ++ [local_path; remote_spec info remote_path])%list in
  process <- subprocess_run cmd false ;;
  if (returncode process =? 0)%Z then
    verify_result <-
      execute_remote_command
        ("test -f " ++ remote_path ++ " && echo 'exists'") None ;;
    if PyStr.contains "exists" verify_result then Ret Return
    else Ret Continue
  else Ret Continue.

(** Lines 249-309: what follows the failed relay upload. *)
Definition scp_upload (local_path remote_path : string) (max_retries : Z)
  : prog unit :=
  info <- _get_ssh_info ;;
  ssh_key_path <- ssh_key_from_environ ;;
  f <- for_range max_retries
         (retrying max_retries
            (scp_upload_attempt info ssh_key_path local_path remote_path)) ;;
  match f with
  | Return => Ret tt
  | Continue => Raise RuntimeError
  end.

(** The command line of the secure-copy upload (lines 269-279). *)
Definition scp_upload_cmd (info : ssh_info) (ssh_key_path : string)
  (local_path remote_path : string) : list string :=
  (scp_options info ssh_key_path
   ++ [local_path; remote_spec info remote_path])%list.

(** Lines 251-263: the connection data and the key, which [scp_upload]
    reads before its loop. *)
Definition scp_connection : prog (ssh_info * string) :=
  info <- _get_ssh_info ;;
  ssh_key_path <- ssh_key_from_environ ;;
  Ret (info, ssh_key_path).

(** Lines 230-238: what precedes the relay upload. *)
Definition upload_setup (local_path remote_path : string) : prog unit :=
  found <- os_path_exists local_path ;;
  if negb found then Raise FileNotFoundError else
  _ensure_ssh_access ;;
  let remote_dir := path_parent remote_path in
  execute_remote_command ("mkdir -p " ++ remote_dir) None ;;
  Ret tt.

Definition upload_file (local_path remote_path : string) (max_retries : Z)
  : prog unit :=
  upload_setup local_path remote_path ;;
  f <- try_except
         (upload_via_curl local_path remote_path max_retries ;; Ret Return)
         is_Exception (fun _ => Ret Continue) ;;
  match f with
  | Return => Ret tt
  | Continue => scp_upload local_path remote_path max_retries
  end.

(** *** [download_file] (lines 483-561) *)

(** The [try] block of the download loop (lines 522-551). *)
Definition scp_download_attempt (info : ssh_info) (ssh_key_path : string)
  (remote_path local_path : string) (_ : Z) : prog flow :=
  let cmd := (scp_options info ssh_key_path
              ++ [remote_spec info remote_path; local_path])%list in
  process <- subprocess_run cmd false ;;
  if (returncode process =? 0)%Z then
    found <- os_path_exists local_path ;;
    if found then Ret Return else Ret Continue
  else Ret Continue.

Definition download_file (remote_path local_path : string) (max_retries : Z)
  : prog unit :=
  _ensure_ssh_access ;;
  let local_dir := dirname local_path in
  os_makedirs local_dir ;;
  info <- _get_ssh_info ;;
  ssh_key_path <- ssh_key_from_environ ;;
  verify_result <-
    execute_remote_command
      ("test -f " ++ remote_path ++ " && echo 'exists'") None ;;
  if negb (PyStr.contains "exists" verify_result)
  then Raise FileNotFoundError else
  f <- for_range max_retries
         (retrying max_retries
            (scp_download_attempt info ssh_key_path remote_path local_path)) ;;
  match f with
  | Return => Ret tt
  | Continue => Raise RuntimeError
  end.

(** *** [upload_directory] (lines 563-618) *)

(** The [finally] block (lines 615-618). *)
Definition remove_archive (temp_archive : string) : prog unit :=
  found <- os_path_exists temp_archive ;;
  if found then os_unlink temp_archive else Ret tt.

Definition upload_directory (local_dir remote_dir : string) (max_retries : Z)
  : prog unit :=
  is_dir <- os_path_isdir local_dir ;;
  if negb is_dir then Raise NotADirectoryError else
  _ensure_ssh_access ;;
  execute_remote_command ("mkdir -p " ++ remote_dir) None ;;
  r <- call (NamedTemporaryFile ".tar.gz") ;;
  temp_archive <- lift r ;;
  try_finally
    (subprocess_run
       ["tar"; "-czf"; temp_archive; "-C"; dirname local_dir;
        basename local_dir] true ;;
     let remote_archive := remote_dir ++ "/temp_archive.tar.gz" in
     try_except (upload_via_curl temp_archive remote_archive max_retries)
       is_Exception
       (fun _ => upload_file temp_archive remote_archive max_retries) ;;
     let extract_cmd :=
       "cd " ++ remote_dir
       ++ " && tar -xzf temp_archive.tar.gz && rm temp_archive.tar.gz && echo 'success'" in
     result <- execute_remote_command extract_cmd (Some 300) ;;
     if negb (PyStr.contains "success" result)
     then Raise RuntimeError
     else Ret tt)
    (remove_archive temp_archive).

(** *** Remote listings (lines 620-675) *)

Definition find_cmd (remote_dir : string) : string :=
  "find " ++ remote_dir ++ " -type f | sort".

(** [result.startswith("Error") or "No such file or directory" in result] *)
Definition listing_failed (result : string) : bool :=
  PyStr.startswith "Error" result
  || PyStr.contains "No such file or directory" result.

(** [result.strip().split('\n')] *)
Definition listing_lines (result : string) : list string :=
  PyStr.split "010"%char (PyStr.strip result).

Definition download_directory (remote_dir local_dir : string)
  (max_retries : Z) : prog unit :=
  _ensure_ssh_access ;;
  os_makedirs local_dir ;;
  result <- execute_remote_command (find_cmd remote_dir) None ;;
  if listing_failed result then Raise FileNotFoundError else
  for_each (listing_lines result)
    (fun remote_path =>
       if PyStr.is_empty remote_path then Ret tt else
       let rel_path := relpath remote_path remote_dir in
       let local_path := path_join local_dir rel_path in
       os_makedirs (dirname local_path) ;;
       download_file remote_path local_path max_retries).

Definition list_remote_files (remote_path : string) : prog (list string) :=
  _ensure_ssh_access ;;
  result <- execute_remote_command (find_cmd remote_path) None ;;
  if listing_failed result then Ret [] else
  Ret (filter (fun path => negb (PyStr.is_empty path)) (listing_lines result)).

End Methods.
End Transfer.
Import Transfer.

(** ** What a trace shows *)

Module Traces.

(** The remote commands of a trace: command, timeout and answer. *)
Definition remote_call (e : entry)
  : option (string * option Z * result string) :=
  match e with
  | Entry (ExecuteRemoteCommand c _ tm) x => Some (c, tm, x)
  | _ => None
  end.

(** The local processes of a trace: command line and answer. *)
Definition process_call (e : entry)
  : option (list string * result completed_process) :=
  match e with
  | Entry (SubprocessRun cmd) x => Some (cmd, x)
  | _ => None
  end.

Definition getsize_call (e : entry) : option (result Z) :=
  match e with
  | Entry (GetSize _) x => Some x
  | _ => None
  end.

Definition input_call (e : entry) : option (result string) :=
  match e with
  | Entry (Input _) x => Some x
  | _ => None
  end.

Definition tempfile_call (e : entry) : option (result string) :=
  match e with
  | Entry (NamedTemporaryFile _) x => Some x
  | _ => None
  end.

Definition unlink_call (e : entry) : option (string * result unit) :=
  match e with
  | Entry (Unlink p) x => Some (p, x)
  | _ => None
  end.

Definition project {X : Type} (f : entry -> option X) (t : trace) : list X :=
  flat_map (fun e => match f e with Some x => [x] | None => [] end) t.

Definition remote_calls : trace -> _ := project remote_call.
Definition process_calls : trace -> _ := project process_call.
Definition getsize_calls : trace -> _ := project getsize_call.
Definition input_calls : trace -> _ := project input_call.
Definition tempfile_calls : trace -> _ := project tempfile_call.
Definition unlink_calls : trace -> _ := project unlink_call.

(** *** The rhythm of a retry loop *)

Inductive mark : Type :=
| Attempt
| Delay (seconds : Z).

(** The first call of an attempt, in each of the four retry loops: the
    secure copy, the unique name of the small-file relay, the server
    lookup of the large-file relay. *)
Definition starts_attempt (a : action) : bool :=
  match a with
  | SubprocessRun ("scp" :: _) => true
  | SubprocessRun ["curl"; "https://api.gofile.io/getServer"] => true
  | Uuid4Hex => true
  | _ => false
  end.

Definition mark_of (e : entry) : list mark :=
  match e with
  | Entry (Sleep d) _ => [Delay d]
  | Entry a _ => if starts_attempt a then [Attempt] else []
  end.

Definition marks (t : trace) : list mark := flat_map mark_of t.

(** Attempt [k], counted from 1, with the delay slept before it. *)
Definition attempt_marks (k : nat) : list mark :=
  match k with
  | 1%nat => [Attempt]
  | _ => [Delay (5 * (Z.of_nat k - 1)); Attempt]
  end.

(** [n] attempts: a delay of [5 * (k - 1)] before attempt [k >= 2], and
    nothing after the last one. *)
Definition schedule (n : nat) : list mark :=
  flat_map attempt_marks (seq 1 n).

End Traces.
Import Traces.

(** ** The instance locator: priority of the fields *)

(** The priority list of the specification, level by level.  A level
    is [Absent] when its field is missing (for a nested level: not an
    object), [Unusable] when the field is there and gives no host. *)
Module Priority.

Inductive level_outcome : Type :=
| Absent
| Unusable
| Found (ep : endpoint)
| Failed (e : exn).

Definition flat_level (field : string) (instance : dict) : level_outcome :=
  match dict_get instance field with
  | None => Absent
  | Some v => if truthy v then Found (v, default_port) else Unusable
  end.

Definition ssh_command_level (instance : dict) : level_outcome :=
  match dict_get instance "sshCommand" with
  | None => Absent
  | Some v =>
      if truthy v then
        match parse_ssh_command v with
        | Err e => Failed e
        | Ok (Some ep) => Found ep
        | Ok None => Unusable
        end
      else Absent
  end.

Definition of_host (r : option json * Z) : level_outcome :=
  match r with
  | (Some host, port) => Found (host, port)
  | (None, _) => Unusable
  end.

Definition ssh_level (instance : dict) : level_outcome :=
  match dict_field instance "ssh" with
  | None => Absent
  | Some ssh_info =>
      match ssh_branch ssh_info with
      | Ok r => of_host r
      | Err e => Failed e
      end
  end.

Definition nested_ip_level (field : string) (instance : dict)
  : level_outcome :=
  match dict_field instance field with
  | None => Absent
  | Some info => of_host (truthy_field info "ip", default_port)
  end.

Definition nested_instance_level (instance : dict) : level_outcome :=
  match dict_field instance "instance" with
  | None => Absent
  | Some nested =>
      match ssh_command_level nested with
      | Found ep => Found ep
      | Failed e => Failed e
      | Absent | Unusable =>
          of_host (first_truthy_field nested
                     ["ip"; "ipAddress"; "hostname"; "address"],
                   default_port)
      end
  end.

(** The levels in their order; [true] marks the nested-object levels. *)
Definition levels : list (bool * (dict -> level_outcome)) :=
  [ (false, ssh_command_level);
    (false, flat_level "ip");
    (false, flat_level "ipAddress");
    (true, ssh_level);
    (true, nested_ip_level "network");
    (true, nested_ip_level "status");
    (true, nested_instance_level) ].

(** First success wins; [stops nested] tells whether an unusable level
    ends the search. *)
Fixpoint first_success (stops : bool -> bool)
  (ls : list (bool * (dict -> level_outcome))) (instance : dict)
  : result (option endpoint) :=
  match ls with
  | [] => Ok None
  | (nested, level) :: r =>
      match level instance with
      | Found ep => Ok (Some ep)
      | Failed e => Err e
      | Absent => first_success stops r instance
      | Unusable => if stops nested then Ok None
                    else first_success stops r instance
      end
  end.

(** As the specification words it: no level falls through once its
    field is present but unusable. *)
Definition resolve_as_specified : dict -> result (option endpoint) :=
  first_success (fun _ => true) levels.

(** As the code has it: only a nested-object level ends the search. *)
Definition resolve_by_priority : dict -> result (option endpoint) :=
  first_success (fun nested => nested) levels.

End Priority.

(** ** The fragments of an SSH command *)

(** A [user@host] fragment: no [@] before it, a host made of
    characters that are neither [:] nor white space, ended by the end
    of the string or by such a character. *)
Definition host_fragment (user host rest : string) : Prop :=
  PyStr.forallb_str (fun c => negb (Ascii.eqb c "@")) user = true /\
  host <> "" /\
  PyStr.forallb_str PyStr.host_char host = true /\
  (rest = "" \/ exists c r, rest = String c r /\ PyStr.host_char c = false).

(** A numeric port fragment: [-p], white space, and a digit. *)
Definition numeric_port_fragment (s : string) : Prop :=
  exists before spaces d rest,
    s = before ++ "-p" ++ spaces ++ String d rest /\
    spaces <> "" /\ PyStr.forallb_str PyStr.isspace spaces = true /\ PyStr.isdigit d = true.

(** The port fragment as a reader of the command sees it: the word
    after the first [-p] that white space follows, up to the next
    white space. *)
Fixpoint port_word (s : string) : option string :=
  match s with
  | EmptyString => None
  | String c r =>
      match r with
      | String p (String sp r') =>
          if (Ascii.eqb c "-" && Ascii.eqb p "p" && PyStr.isspace sp)%bool
          then Some (PyStr.take_while (fun x => negb (PyStr.isspace x))
                       (PyStr.drop_while PyStr.isspace r'))
          else port_word r
      | _ => port_word r
      end
  end.

(** ** Properties of every execution *)

(** [always p Q]: [Q] holds of the trace and the outcome of every
    execution of [p]. *)
Definition always {R : Type} (p : prog R) (Q : trace -> outcome R -> Prop)
  : Prop :=
  forall t o, exec p t o -> Q t o.

Definition action_of (e : entry) : action :=
  match e with Entry a _ => a end.

(** [only S t]: every call of [t] is of the kind [S]. *)
Definition only (S : action -> bool) (t : trace) : Prop :=
  Forall (fun e => S (action_of e) = true) t.

(** The calls that establish and describe the session. *)
Definition session_action (a : action) : bool :=
  match a with
  | IsConnected | GetConnectionInfo | GetGpuStatus | ConnectSsh _ _ _ _ _
  | Environ _ | PathExists _ | Makedirs _ => true
  | _ => false
  end.

(** The calls of the download loop: the copy, the local check, the
    wait. *)
Definition copy_action (a : action) : bool :=
  match a with
  | SubprocessRun _ | PathExists _ | Sleep _ => true
  | _ => false
  end.

(** The calls of a relay attempt. *)
Definition relay_action (a : action) : bool :=
  match a with
  | Uuid4Hex | SubprocessRun _ | ExecuteRemoteCommand _ _ _ | Sleep _ => true
  | _ => false
  end.

(** What [ssh_manager.is_connected] answered, call by call. *)
Definition connected_call (e : entry) : option bool :=
  match e with
  | Entry IsConnected x => Some x
  | _ => None
  end.

(** The trace ends with the removal of [temp_archive]: the file was
    found absent, or it was unlinked. *)
Definition archive_removed (temp_archive : string) (t : trace) : Prop :=
  exists before,
    t = (before ++ [Entry (PathExists temp_archive) false])%list \/
    t = (before ++ [Entry (PathExists temp_archive) true;
                    Entry (Unlink temp_archive) (Ok tt)])%list.

(** ** The shape of a retry loop *)

Section RetryShape.

Variable attempt_body : Z -> prog flow.

(** The calls of one run of the [try] block of attempt [k], counted
    from 1 (the loop variable is [k - 1]). *)
Definition attempt_trace (k : nat) (ta : trace) : Prop :=
  exists o, exec (attempt_body (Z.of_nat k - 1)) ta o.

(** [retry_trace k j t]: [t] is made of [j] attempts, the first of
    which is attempt [k], with a sleep of [5 * k'] seconds between
    attempt [k'] and the next, and nothing after the last. *)
Inductive retry_trace : nat -> nat -> trace -> Prop :=
| retry_none k : retry_trace k 0 []
| retry_last k ta : attempt_trace k ta -> retry_trace k 1 ta
| retry_more k j ta ts :
    attempt_trace k ta ->
    retry_trace (S k) (S j) ts ->
    retry_trace k (S (S j))
      (ta ++ Entry (Sleep (5 * Z.of_nat k)) tt :: ts)%list.

End RetryShape.

(** How a retry loop followed by its final [raise] ends, after [n]
    attempts out of at most [budget]. *)
Definition retry_outcome (budget n : nat) (o : outcome unit) : Prop :=
  match o with
  | Returned _ => (1 <= n)%nat
  | Raised e =>
      (e = RuntimeError /\ n = budget) \/
      (is_Exception e = false /\ (1 <= n)%nat)
  end.

(** How the secure-copy fallback ends: as a retry loop does, or before
    its first attempt when the connection data or the key are missing. *)
Definition fallback_outcome (budget n : nat) (o : outcome unit) : Prop :=
  retry_outcome budget n o \/ (n = 0%nat /\ exists e, o = Raised e).

(** ** The relay tiers *)

Section RelayTiers.

Context {lib : PyLib}.

(** A call of the small-file host: one upload under a unique name. *)
Definition small_file_call (local_path : string)
  (c : list string * result completed_process) : Prop :=
  exists hex,
    fst c = transfer_sh_cmd local_path (hex ++ "_" ++ basename local_path).

(** The server a successful lookup names: exit status 0, a JSON object
    with [status] [ok] and [data.server]. *)
Definition lookup_server (p : completed_process) : option json :=
  if (returncode p =? 0)%Z then
    match json_loads (stdout p) with
    | Ok server_data =>
        match json_get server_data "status" with
        | Ok (Some st) =>
            if eq_str st "ok" then
              match subscript server_data "data" with
              | Ok data =>
                  match subscript data "server" with
                  | Ok server => Some server
                  | Err _ => None
                  end
              | Err _ => None
              end
            else None
        | _ => None
        end
    | Err _ => None
    end
  else None.

(** The calls of one attempt at the small-file host: the upload. *)
Definition small_file_block (local_path : string)
  (cs : list (list string * result completed_process)) : Prop :=
  exists c, small_file_call local_path c /\ cs = [c].

(** A lookup that raised, or whose answer names no server. *)
Definition names_no_server (answer : result completed_process) : Prop :=
  match answer with
  | Ok p => lookup_server p = None
  | Err _ => True
  end.

(** The calls of one attempt at the large-file host: a server lookup
    that named no server, alone; or a lookup that named a server,
    followed by the upload to that server. *)
Definition two_step_block (local_path : string)
  (cs : list (list string * result completed_process)) : Prop :=
  (exists answer,
      names_no_server answer /\ cs = [(get_server_cmd, answer)]) \/
  (exists p server answer,
      lookup_server p = Some server /\
      cs = [(get_server_cmd, Ok p);
            (gofile_upload_cmd local_path server, answer)]).

(** The local processes of a relay loop: one block per attempt, at most
    [max_retries] of them, and at least one when [max_retries >= 1]. *)
Definition relay_blocks
  (block : list (list string * result completed_process) -> Prop)
  (max_retries : Z)
  (calls : list (list string * result completed_process)) : Prop :=
  exists blocks,
    calls = List.concat blocks /\
    Forall block blocks /\
    (List.length blocks <= Z.to_nat max_retries)%nat /\
    ((1 <= max_retries)%Z -> blocks <> []).

(** What the relay upload shows once the size is known, tier by tier. *)
Definition tier_calls (local_path : string) (max_retries : Z) (size : Z)
  (t : trace) : Prop :=
  if Qltb (file_size_mb size) (inject_Z 25) then
    relay_blocks (small_file_block local_path) max_retries (process_calls t)
  else if Qltb (file_size_mb size) (inject_Z 2000) then
    relay_blocks (two_step_block local_path) max_retries (process_calls t)
  else process_calls t = [].

End RelayTiers.

(** ** The constructor *)

Section Construction.

Context {lib : PyLib}.

(** [__init__] (lines 25-32): the handler exists once the session does. *)
Definition __init__ (instance_id : string) : prog FileTransfer :=
  let self := {| instance_id := instance_id |} in
  _ensure_ssh_access self ;;
  Ret self.

End Construction.

(** ** More of what a trace shows *)

(** The handshakes of a trace: host, user, key, port, passphrase and
    answer. *)
Definition connect_call (e : entry)
  : option (json * string * string * Z * option string * result string) :=
  match e with
  | Entry (ConnectSsh host user key port password) x =>
      Some (host, user, key, port, password, x)
  | _ => None
  end.

Definition status_call (e : entry) : option (result status_data) :=
  match e with
  | Entry GetGpuStatus x => Some x
  | _ => None
  end.

Definition environ_call (e : entry) : option (string * option string) :=
  match e with
  | Entry (Environ name) x => Some (name, x)
  | _ => None
  end.

Definition exists_call (e : entry) : option (string * bool) :=
  match e with
  | Entry (PathExists path) x => Some (path, x)
  | _ => None
  end.

Definition connect_calls : trace -> _ := project connect_call.
Definition status_calls : trace -> _ := project status_call.
Definition environ_calls : trace -> _ := project environ_call.
Definition exists_calls : trace -> _ := project exists_call.

(** The text a successful handshake answers with. *)
Definition connected_marker : string := "Successfully connected".

(** How [_ensure_ssh_access] can go about its handshakes: none; one as
    [ubuntu]; or one as [ubuntu] whose answer lacks the marker, then one
    as [root] with the same host, key, port and passphrase. *)
Definition handshake_protocol (t : trace) (o : outcome unit) : Prop :=
  (connect_calls t = [] /\
   (o = Returned tt -> project connected_call t = [true])) \/
  (exists host key port password,
      (exists answer,
          connect_calls t
          = [(host, "ubuntu", key, port, password, Ok answer)] /\
          PyStr.contains connected_marker answer = true /\
          o = Returned tt) \/
      (exists e,
          connect_calls t = [(host, "ubuntu", key, port, password, Err e)] /\
          o = Raised e) \/
      (exists first second,
          connect_calls t
          = [(host, "ubuntu", key, port, password, Ok first);
             (host, "root", key, port, password, second)] /\
          PyStr.contains connected_marker first = false /\
          o = match second with
              | Ok answer =>
                  if PyStr.contains connected_marker answer
                  then Returned tt else Raised RuntimeError
              | Err e => Raised e
              end)).

(** The seconds slept, added up. *)
Fixpoint total_delay (ms : list mark) : Z :=
  match ms with
  | [] => 0
  | Attempt :: r => total_delay r
  | Delay d :: r => d + total_delay r
  end.

(** The last two calls of a relay upload that returns: the fetch by the
    instance, answered with [success], and the check of the file,
    answered with [exists]. *)
Definition ends_fetched_and_verified (self : FileTransfer)
  (remote_path : string) (t : trace) : Prop :=
  exists before url timeout fetched verified,
    t = (before ++
         [Entry (ExecuteRemoteCommand (download_cmd url remote_path)
                   (instance_id self) (Some timeout)) (Ok fetched);
          Entry (ExecuteRemoteCommand
                   ("test -s '" ++ remote_path ++ "' && echo 'exists'")
                   (instance_id self) None) (Ok verified)])%list /\
    PyStr.contains "success" fetched = true /\
    PyStr.contains "exists" verified = true.

(** The last two calls of a secure-copy upload that returns: the copy,
    with exit status 0, and the check of the file, answered with
    [exists]. *)
Definition ends_copied_and_verified (self : FileTransfer)
  (remote_path : string) (t : trace) : Prop :=
  exists before cmd process verified,
    t = (before ++
         [Entry (SubprocessRun ("scp" :: cmd)) (Ok process);
          Entry (ExecuteRemoteCommand
                   ("test -f " ++ remote_path ++ " && echo 'exists'")
                   (instance_id self) None) (Ok verified)])%list /\
    returncode process = 0%Z /\
    PyStr.contains "exists" verified = true.

(** The last two calls of a download that returns: the copy, with exit
    status 0, and the local file found. *)
Definition ends_copied_and_found (local_path : string) (t : trace) : Prop :=
  exists before cmd process,
    t = (before ++
         [Entry (SubprocessRun ("scp" :: cmd)) (Ok process);
          Entry (PathExists local_path) true])%list /\
    returncode process = 0%Z.

(** What [download_file] does before its loop: session calls and the
    remote check. *)
Definition before_copy (a : action) : bool :=
  match a with
  | ExecuteRemoteCommand _ _ _ => true
  | a' => session_action a'
  end.

(** [extract_cmd] of [upload_directory] (line 607). *)
Definition extract_cmd (remote_dir : string) : string :=
  "cd " ++ remote_dir
  ++ " && tar -xzf temp_archive.tar.gz && rm temp_archive.tar.gz && echo 'success'".

(** ** Worked examples *)

Module Examples.

(** A library instance to run the methods with: [json.loads] decodes
    the two answers of the large-file host below, raises [ValueError]
    on an integer beyond the digit limit and [JSONDecodeError] on any
    other text; [str] prints strings and integers, paths are split at
    [/]. *)
Definition quoted (s : string) : string :=
  String (ascii_of_nat 34) (s ++ String (ascii_of_nat 34) "").

(** The answer of the directory service, naming the server [store1]. *)
Definition server_answer : string :=
  "{" ++ quoted "status" ++ ":" ++ quoted "ok" ++ ","
  ++ quoted "data" ++ ":{" ++ quoted "server" ++ ":" ++ quoted "store1"
  ++ "}}".

(** The answer of the server to an upload. *)
Definition upload_answer : string :=
  "{" ++ quoted "status" ++ ":" ++ quoted "ok" ++ ","
  ++ quoted "data" ++ ":{"
  ++ quoted "downloadPage" ++ ":" ++ quoted "https://gofile.io/d/k3" ++ ","
  ++ quoted "fileId" ++ ":" ++ quoted "k3" ++ ","
  ++ quoted "downloadLink" ++ ":"
  ++ quoted "https://store1.gofile.io/download/k3/clip.mp4"
  ++ "}}".

Definition example_loads (s : string) : result json :=
  if String.eqb s server_answer then
    Ok (JObj [("status", JStr "ok");
              ("data", JObj [("server", JStr "store1")])])
  else if String.eqb s upload_answer then
    Ok (JObj [("status", JStr "ok");
              ("data",
               JObj [("downloadPage", JStr "https://gofile.io/d/k3");
                     ("fileId", JStr "k3");
                     ("downloadLink",
                      JStr "https://store1.gofile.io/download/k3/clip.mp4")])])
  else if (PyStr.forallb_str PyStr.isdigit s
            && (PyStr.int_max_str_digits <? String.length s)%nat)%bool then
    Err ValueError
  else Err JSONDecodeError.

(** [n] times the digit 1. *)
Fixpoint ones (n : nat) : string :=
  match n with
  | O => ""
  | S n' => String "1" (ones n')
  end.

Definition example_str (v : json) : string :=
  match v with
  | JStr s => s
  | JInt z => NilZero.string_of_int (Z.to_int z)
  | _ => "None"
  end.

Definition example_dirname (p : string) : string :=
  String.concat "/" (removelast (PyStr.split "/" p)).

Definition example_basename (p : string) : string :=
  last (PyStr.split "/" p) "".

(** [os.path.relpath] for a path below [start]: what follows
    [start/]. *)
Definition example_relpath (path start : string) : string :=
  if String.prefix (start ++ "/") path
  then String.substring (S (String.length start))
         (String.length path - S (String.length start)) path
  else path.

#[export] Instance example_lib : PyLib := {|
  json_loads := example_loads;
  py_str := example_str;
  expanduser := fun p => p;
  dirname := example_dirname;
  basename := example_basename;
  path_parent := example_dirname;
  relpath := example_relpath;
  path_join := fun a b => a ++ "/" ++ b
|}.

Definition gpu : FileTransfer := {| instance_id := "gpu-1" |}.

(** A world with a live session in which nothing else works: local
    processes exit with status 1 and remote commands print nothing. *)
Definition quiet (a : action) : response a :=
  match a with
  | IsConnected => true
  | GetConnectionInfo =>
      Ok [("status", JStr "connected"); ("host", JStr "10.0.0.5");
          ("username", JStr "ubuntu"); ("port", JInt 22)]
  | GetGpuStatus => Ok (StatusValue (JObj []))
  | ConnectSsh _ _ _ _ _ => Ok "Successfully connected"
  | ExecuteRemoteCommand _ _ _ => Ok ""
  | SubprocessRun _ => Ok {| returncode := 1; stdout := ""; stderr := "" |}
  | Environ _ => Some "/home/user/.ssh/id_rsa"
  | PathExists _ => true
  | PathIsDir _ => true
  | GetSize _ => Ok 1024
  | Makedirs _ => Ok tt
  | Unlink _ => Ok tt
  | NamedTemporaryFile _ => Ok "/tmp/tmpabc.tar.gz"
  | Uuid4Hex => "0123abcd"
  | Input _ => Ok ""
  | Sleep _ => tt
  end.

Definition quiet_world : world := fun _ => quiet.

(** The same, with a local file of 3000 MB. *)
Definition huge_file_world : world :=
  fun _ a =>
    match a as a' return response a' with
    | GetSize _ => Ok 3145728000
    | a' => quiet a'
    end.

(** The same, with remote commands that print [answer]. *)
Definition remote_world (answer : string) : world :=
  fun _ a =>
    match a as a' return response a' with
    | ExecuteRemoteCommand _ _ _ => Ok answer
    | a' => quiet a'
    end.

End Examples.
Import Examples.

(** More worlds for the examples. *)
Module MoreExamples.

(** No session yet, and no key path in the environment. *)
Definition keyless_world : world :=
  fun _ a =>
    match a as a' return response a' with
    | IsConnected => false
    | Environ _ => None
    | a' => quiet a'
    end.

(** No session yet, a key path that names no file. *)
Definition missing_key_file_world : world :=
  fun _ a =>
    match a as a' return response a' with
    | IsConnected => false
    | PathExists _ => false
    | a' => quiet a'
    end.

(** No session yet, and a status report that is text. *)
Definition text_status_world (text : string) : world :=
  fun _ a =>
    match a as a' return response a' with
    | IsConnected => false
    | GetGpuStatus => Ok (StatusText text)
    | a' => quiet a'
    end.

(** No session yet; the status names the instance; the first handshake
    is refused and the second accepted. *)
Definition root_only_world : world :=
  fun _ a =>
    match a as a' return response a' with
    | IsConnected => false
    | GetGpuStatus =>
        Ok (StatusValue
              (JObj [("instances",
                      JArr [JObj [("id", JStr "gpu-1");
                                  ("sshCommand",
                                   JStr "ssh ubuntu@10.0.0.5 -p 31022")]])]))
    | ConnectSsh _ "ubuntu" _ _ _ => Ok "Permission denied"
    | a' => quiet a'
    end.

(** A live session in which everything works: processes exit with
    status 0 and print [printed], remote commands print [answer]. *)
Definition working_world (printed answer : string) : world :=
  fun _ a =>
    match a as a' return response a' with
    | SubprocessRun _ =>
        Ok {| returncode := 0; stdout := printed; stderr := "" |}
    | ExecuteRemoteCommand _ _ _ => Ok answer
    | a' => quiet a'
    end.

(** A live session, a local file of 500 MB, and a large-file host that
    works: the lookup names a server, the upload gives a link, and the
    instance fetches the file. *)
Definition large_file_world : world :=
  fun _ a =>
    match a as a' return response a' with
    | GetSize _ => Ok 524288000
    | SubprocessRun ["curl"; "https://api.gofile.io/getServer"] =>
        Ok {| returncode := 0; stdout := server_answer; stderr := "" |}
    | SubprocessRun _ =>
        Ok {| returncode := 0; stdout := upload_answer; stderr := "" |}
    | ExecuteRemoteCommand _ _ _ => Ok "success exists"
    | a' => quiet a'
    end.

(** A live session; the relay hosts cannot be reached ([curl] exits
    with status 7) and the secure copy works. *)
Definition relay_down_world : world :=
  fun _ a =>
    match a as a' return response a' with
    | SubprocessRun ("scp" :: _) =>
        Ok {| returncode := 0; stdout := ""; stderr := "" |}
    | SubprocessRun _ =>
        Ok {| returncode := 7; stdout := ""; stderr := "" |}
    | ExecuteRemoteCommand _ _ _ => Ok "exists"
    | a' => quiet a'
    end.

(** No local file, no local directory. *)
Definition empty_disk_world : world :=
  fun _ a =>
    match a as a' return response a' with
    | PathExists _ => false
    | PathIsDir _ => false
    | a' => quiet a'
    end.

End MoreExamples.
Import MoreExamples.

(** ** Reasoning about executions *)

Section ExecLemmas.

Context {A B : Type}.

Lemma exec_bind_inv (p : prog A) (f : A -> prog B) t o :
  exec (bind p f) t o ->
  (exists e, exec p t (Raised e) /\ o = Raised e) \/
  (exists x t1 t2,
      exec p t1 (Returned x) /\ exec (f x) t2 o /\ t = (t1 ++ t2)%list).
Proof.
  revert t. induction p as [r | e | a k IH]; simpl; intros t H.
  - right. exists r, [], t. auto.
  - destruct H as [-> ->]. left. eauto.
  - destruct H as (x & t' & -> & H).
    destruct (IH x _ H) as [(e & He & ->) | (y & t1 & t2 & H1 & H2 & ->)].
    + left. exists e. split; eauto.
    + right. exists y, (Entry a x :: t1), t2. repeat split; eauto.
Qed.

Lemma exec_bind_intro (p : prog A) (f : A -> prog B) x t1 t2 o :
  exec p t1 (Returned x) -> exec (f x) t2 o ->
  exec (bind p f) (t1 ++ t2)%list o.
Proof.
  revert t1. induction p as [r | e | a k IH]; simpl; intros t1 H1 H2.
  - destruct H1 as [-> H1]. injection H1 as ->. exact H2.
  - destruct H1 as [_ H1]. discriminate.
  - destruct H1 as (y & t' & -> & H1). exists y, (t' ++ t2)%list.
    split; [reflexivity | eauto].
Qed.

End ExecLemmas.

Section ExecHandlers.

Context {A : Type}.

Lemma exec_try_except_inv (p : prog A) classes h t o :
  exec (try_except p classes h) t o ->
  (exists r, exec p t (Returned r) /\ o = Returned r) \/
  (exists e, exec p t (Raised e) /\ classes e = false /\ o = Raised e) \/
  (exists e t1 t2, exec p t1 (Raised e) /\ classes e = true /\
                   exec (h e) t2 o /\ t = (t1 ++ t2)%list).
Proof.
  revert t. induction p as [r | e | a k IH]; simpl; intros t H.
  - destruct H as [-> ->]. left. eauto.
  - destruct (classes e) eqn:C.
    + right. right. exists e, [], t. auto.
    + destruct H as [-> ->]. right. left. eauto.
  - destruct H as (x & t' & -> & H).
    destruct (IH x _ H)
      as [(r & H1 & ->) | [(e & H1 & C & ->) | (e & t1 & t2 & H1 & C & H2 & ->)]].
    + left. exists r. split; eauto.
    + right. left. exists e. repeat split; eauto.
    + right. right. exists e, (Entry a x :: t1), t2. repeat split; eauto.
Qed.

Lemma exec_try_finally_inv (p : prog A) cleanup t o :
  exec (try_finally p cleanup) t o ->
  exists t1 t2 o1 o2,
    exec p t1 o1 /\ exec cleanup t2 o2 /\ t = (t1 ++ t2)%list /\
    match o2 with
    | Returned _ => o = o1
    | Raised e => o = Raised e
    end.
Proof.
  revert t. induction p as [r | e | a k IH]; simpl; intros t H.
  - apply exec_bind_inv in H.
    destruct H as [(e & H & ->) | (x & t1 & t2 & H1 & [-> ->] & ->)].
    + exists [], t, (Returned r), (Raised e). auto.
    + exists [], t1, (Returned r), (Returned x).
      rewrite app_nil_r. auto.
  - apply exec_bind_inv in H.
    destruct H as [(e' & H & ->) | (x & t1 & t2 & H1 & [-> ->] & ->)].
    + exists [], t, (Raised e), (Raised e'). auto.
    + exists [], t1, (Raised e), (Returned x).
      rewrite app_nil_r. auto.
  - destruct H as (x & t' & -> & H).
    destruct (IH x _ H) as (t1 & t2 & o1 & o2 & H1 & H2 & -> & Ho).
    exists (Entry a x :: t1), t2, o1, o2. repeat split; eauto.
Qed.

(** Every program has an execution in every world. *)
Lemma run_exec (w : world) (p : prog A) h :
  exec p (fst (run w h p)) (snd (run w h p)).
Proof.
  revert h. induction p as [r | e | a k IH]; simpl; intros h; auto.
  specialize (IH (w h a) (h ++ [Entry a (w h a)])%list).
  destruct (run w (h ++ [Entry a (w h a)])%list (k (w h a))) as [t o].
  simpl in *. eauto.
Qed.

End ExecHandlers.

Section LocatorFacts.

Lemma truthy_field_truthy d k v : truthy_field d k = Some v -> truthy v = true.
Proof.
  unfold truthy_field. destruct (dict_get d k) as [x|]; [|discriminate].
  destruct (truthy x) eqn:T; congruence.
Qed.

Lemma truthy_field_get d k :
  truthy_field d k =
  match dict_get d k with
  | Some v => if truthy v then Some v else None
  | None => None
  end.
Proof. reflexivity. Qed.

End LocatorFacts.

Lemma ssh_branch_truthy s r v :
  ssh_branch s = Ok r -> fst r = Some v -> truthy v = true.
Proof.
  unfold ssh_branch. intros H E.
  assert (T : truthy_field s "host" = Some v).
  { destruct (truthy_field s "port") as [q|].
    - destruct (py_int q) as [z|e].
      + injection H as <-. exact E.
      + destruct (is_ValueError_or_TypeError e); [|discriminate].
        injection H as <-. exact E.
    - injection H as <-. exact E. }
  exact (truthy_field_truthy _ _ _ T).
Qed.

Lemma first_truthy_field_truthy n fs v :
  first_truthy_field n fs = Some v -> truthy v = true.
Proof.
  induction fs as [|f fs IH]; simpl; [discriminate|].
  destruct (truthy_field n f) as [y|] eqn:E; [|exact IH].
  intros H. injection H as <-. exact (truthy_field_truthy _ _ _ E).
Qed.

(** The chain after the [sshCommand] block, level by level. *)
Lemma field_chain_by_priority (instance : dict) :
  match field_chain instance with
  | Err e => Err e
  | Ok (inr r) => Ok r
  | Ok (inl (Some ip_address, port)) =>
      if truthy ip_address then Ok (Some (ip_address, port)) else Ok None
  | Ok (inl (None, _)) => Ok None
  end =
  Priority.first_success (fun nested => nested)
    (tl Priority.levels) instance.
Proof.
  unfold field_chain, Priority.levels.
  cbn [tl Priority.first_success]. unfold Priority.flat_level.
  rewrite !truthy_field_get.
  destruct (dict_get instance "ip") as [v|];
    [destruct (truthy v) eqn:Tv; [rewrite Tv; reflexivity|]|].
  all: destruct (dict_get instance "ipAddress") as [v'|];
    [destruct (truthy v') eqn:Tv'; [rewrite Tv'; reflexivity|]|].
  all: unfold Priority.ssh_level, Priority.nested_ip_level,
         Priority.nested_instance_level.
  all: destruct (dict_field instance "ssh") as [s|];
    [destruct (ssh_branch s) as [[[h|] q]|e] eqn:Es; cbn [Priority.of_host];
     [rewrite (ssh_branch_truthy _ _ _ Es eq_refl)| |]; reflexivity|].
  all: destruct (dict_field instance "network") as [n|];
    [destruct (truthy_field n "ip") as [x|] eqn:Ex; cbn [Priority.of_host];
     [rewrite (truthy_field_truthy _ _ _ Ex)|]; reflexivity|].
  all: destruct (dict_field instance "status") as [n|];
    [destruct (truthy_field n "ip") as [x|] eqn:Ex; cbn [Priority.of_host];
     [rewrite (truthy_field_truthy _ _ _ Ex)|]; reflexivity|].
  all: destruct (dict_field instance "instance") as [n|]; [|reflexivity].
  all: unfold Priority.ssh_command_level; rewrite truthy_field_get.
  all: destruct (dict_get n "sshCommand") as [c|];
    [destruct (truthy c);
     [destruct (parse_ssh_command c) as [[ep|]|e]; try reflexivity|]|].
  all: destruct (first_truthy_field n ["ip"; "ipAddress"; "hostname"; "address"])
         as [y|] eqn:Ey; cbn [Priority.of_host];
    [rewrite (first_truthy_field_truthy _ _ _ Ey)|]; reflexivity.
Qed.

(** C1, as the code has it: the levels are tried in the fixed order and
    the first success wins; an unusable nested-object level ([ssh],
    [network], [status], [instance]) ends the search with not-found,
    while an [sshCommand] without a host and an empty [ip] or
    [ipAddress] fall through to the next level. *)
Theorem resolve_endpoint_by_priority (instance : dict) :
  resolve_endpoint instance = Priority.resolve_by_priority instance.
Proof.
  unfold resolve_endpoint. rewrite field_chain_by_priority.
  unfold Priority.resolve_by_priority.
  change Priority.levels
    with ((false, Priority.ssh_command_level) :: tl Priority.levels).
  cbn [Priority.first_success].
  unfold Priority.ssh_command_level. rewrite truthy_field_get.
  destruct (dict_get instance "sshCommand") as [c|]; [|reflexivity].
  destruct (truthy c); [|reflexivity].
  destruct (parse_ssh_command c) as [[ep|]|e]; reflexivity.
Qed.

(** C1 as the specification words it fails: a non-empty [sshCommand]
    without a [user@host] fragment is present but unusable, and the
    search falls through to the flat [ip] field instead of reporting
    not-found. *)
Lemma ssh_command_without_host_falls_through :
  let instance :=
    [("id", JStr "gpu-1"); ("sshCommand", JStr "ssh gpu-node-7");
     ("ip", JStr "10.0.0.5")] in
  PyStr.search_host "ssh gpu-node-7" = None /\
  Priority.resolve_as_specified instance = Ok None /\
  resolve_endpoint instance = Ok (Some (JStr "10.0.0.5", 22)).
Proof. repeat split. Qed.

(** ** The SSH command: host and port fragments *)

Section SshCommand.

Import PyStr.

Lemma take_drop_while p s : s = take_while p s ++ drop_while p s.
Proof.
  induction s as [|c r IH]; simpl; [reflexivity|].
  destruct (p c); simpl; [f_equal; exact IH | reflexivity].
Qed.

Lemma take_while_all p s : forallb_str p (take_while p s) = true.
Proof.
  induction s as [|c r IH]; simpl; [reflexivity|].
  destruct (p c) eqn:E; simpl; [rewrite E; exact IH | reflexivity].
Qed.

Lemma take_while_app p h rest :
  forallb_str p h = true ->
  (rest = "" \/ exists c r, rest = String c r /\ p c = false) ->
  take_while p (h ++ rest) = h.
Proof.
  intros Hh Hr. induction h as [|c r IH]; simpl in *.
  - destruct Hr as [-> | (c & r & -> & E)]; simpl; [|rewrite E]; reflexivity.
  - apply andb_true_iff in Hh. destruct Hh as [Hc Hh].
    rewrite Hc, (IH Hh). reflexivity.
Qed.

Lemma search_host_fragment user host rest :
  host_fragment user host rest ->
  search_host (user ++ "@" ++ host ++ rest) = Some host.
Proof.
  intros (Hu & Hne & Hh & Hr). induction user as [|c u IH]; simpl in *.
  - rewrite (take_while_app _ _ _ Hh Hr).
    destruct host; [contradiction | reflexivity].
  - apply andb_true_iff in Hu. destruct Hu as [Hc Hu].
    destruct (Ascii.eqb c "@"); [discriminate | exact (IH Hu)].
Qed.

Lemma match_port_here_sound s g :
  match_port_here s = Some g ->
  exists spaces d rest,
    s = "-p" ++ spaces ++ String d rest /\
    spaces <> "" /\ forallb_str isspace spaces = true /\ isdigit d = true.
Proof.
  unfold match_port_here.
  destruct s as [|a s]; [discriminate|].
  destruct (Ascii.eqb a "-") eqn:Ea;
    [apply Ascii.eqb_eq in Ea; subst a
    | intros H; exfalso; revert Ea H;
      destruct a as [[] [] [] [] [] [] [] []]; simpl; try discriminate;
      intros; discriminate].
  destruct s as [|b r]; [discriminate|].
  destruct (Ascii.eqb b "p") eqn:Eb;
    [apply Ascii.eqb_eq in Eb; subst b
    | intros H; exfalso; revert Eb H;
      destruct b as [[] [] [] [] [] [] [] []]; simpl; try discriminate;
      intros; discriminate].
  destruct (take_while isspace r) as [|w ws] eqn:Ew; simpl; [discriminate|].
  destruct (drop_while isspace r) as [|d rest] eqn:Ed; simpl; [discriminate|].
  destruct (isdigit d) eqn:Dd; [|discriminate].
  intros _. exists (String w ws), d, rest. repeat split.
  - simpl. do 2 f_equal. rewrite (take_drop_while isspace r), Ew, Ed.
    reflexivity.
  - discriminate.
  - rewrite <- Ew. apply take_while_all.
  - exact Dd.
Qed.

Lemma search_port_sound s g :
  search_port s = Some g -> numeric_port_fragment s.
Proof.
  induction s as [|c r IH].
  - simpl. discriminate.
  - cbn [search_port].
    destruct (match_port_here (String c r)) as [d|] eqn:E.
    + intros _. destruct (match_port_here_sound _ _ E)
        as (sp & d' & rest & -> & H1 & H2 & H3).
      exists "", sp, d', rest. auto.
    + intros H. destruct (IH H) as (b & sp & d' & rest & -> & H1 & H2 & H3).
      exists (String c b), sp, d', rest. auto.
Qed.

Lemma search_port_malformed s :
  ~ numeric_port_fragment s -> search_port s = None.
Proof.
  intros H. destruct (search_port s) as [g|] eqn:E; [|reflexivity].
  elim H. exact (search_port_sound _ _ E).
Qed.

Lemma digit_not_space d : isdigit d = true -> isspace d = false.
Proof.
  destruct d as [[] [] [] [] [] [] [] []]; intros H;
    solve [reflexivity | discriminate H].
Qed.

Lemma drop_while_spaces spaces d rest :
  forallb_str isspace spaces = true -> isdigit d = true ->
  drop_while isspace (spaces ++ String d rest) = String d rest.
Proof.
  intros Hs Hd. induction spaces as [|x ws IH]; simpl in *.
  - rewrite (digit_not_space _ Hd). reflexivity.
  - apply andb_true_iff in Hs. destruct Hs as [Hx Hs].
    rewrite Hx. exact (IH Hs).
Qed.

Lemma match_port_here_complete spaces d rest :
  spaces <> "" -> forallb_str isspace spaces = true -> isdigit d = true ->
  match_port_here ("-p" ++ spaces ++ String d rest) <> None.
Proof.
  intros Hne Hs Hd. simpl.
  rewrite (drop_while_spaces _ _ _ Hs Hd).
  destruct spaces as [|w ws]; [contradiction|].
  simpl in Hs. apply andb_true_iff in Hs. destruct Hs as [Hw _].
  simpl. rewrite Hw. simpl. rewrite Hd. discriminate.
Qed.

Lemma search_port_complete s :
  numeric_port_fragment s -> search_port s <> None.
Proof.
  intros (b & sp & d & r & -> & Hne & Hs & Hd).
  induction b as [|c b IH].
  - pose proof (match_port_here_complete sp d r Hne Hs Hd) as M.
    change ("" ++ "-p" ++ sp ++ String d r) with ("-p" ++ sp ++ String d r).
    change ("-p" ++ sp ++ String d r)
      with (String "-" (String "p" (sp ++ String d r))) in *.
    cbn [search_port].
    destruct (match_port_here (String "-" (String "p" (sp ++ String d r))));
      [discriminate | contradiction].
  - change (String c b ++ "-p" ++ sp ++ String d r)
      with (String c (b ++ "-p" ++ sp ++ String d r)).
    cbn [search_port].
    destruct (match_port_here _); [discriminate | exact IH].
Qed.

End SshCommand.

(** ** Rules for [always] *)

Section AlwaysRules.

Context {A B : Type}.

Lemma always_ret (r : A) (Q : trace -> outcome A -> Prop) : Q [] (Returned r) -> always (Ret r) Q.
Proof. intros H t o [-> ->]. exact H. Qed.

Lemma always_raise e (Q : trace -> outcome A -> Prop) :
  Q [] (Raised e) -> always (Raise e) Q.
Proof. intros H t o [-> ->]. exact H. Qed.

Lemma always_vis a (k : response a -> prog A) Q :
  (forall x, always (k x) (fun t o => Q (Entry a x :: t) o)) ->
  always (Vis a k) Q.
Proof. intros H t o (x & t' & -> & E). exact (H x t' o E). Qed.

Lemma always_weaken (p : prog A) (Q Q' : trace -> outcome A -> Prop) :
  always p Q -> (forall t o, Q t o -> Q' t o) -> always p Q'.
Proof. intros H W t o E. exact (W t o (H t o E)). Qed.

Lemma always_bind (p : prog A) (k : A -> prog B) Q :
  always p (fun t1 o1 =>
              match o1 with
              | Returned x => always (k x) (fun t2 o2 => Q (t1 ++ t2)%list o2)
              | Raised e => Q t1 (Raised e)
              end) ->
  always (bind p k) Q.
Proof.
  intros H t o E. apply exec_bind_inv in E.
  destruct E as [(e & E & ->) | (x & t1 & t2 & E1 & E2 & ->)].
  - exact (H t _ E).
  - exact (H t1 _ E1 t2 o E2).
Qed.

Lemma always_lift (r : result A) (Q : trace -> outcome A -> Prop) :
  Q [] (match r with Ok a => Returned a | Err e => Raised e end) ->
  always (lift r) Q.
Proof. destruct r; simpl; [apply always_ret | apply always_raise]. Qed.

Lemma always_try_except (p : prog A) (classes : exn -> bool)
  (h : exn -> prog A) (Q : trace -> outcome A -> Prop) :
  always p (fun t1 o1 =>
              match o1 with
              | Returned r => Q t1 (Returned r)
              | Raised e =>
                  if classes e
                  then always (h e) (fun t2 o2 => Q (t1 ++ t2)%list o2)
                  else Q t1 (Raised e)
              end) ->
  always (try_except p classes h) Q.
Proof.
  intros H t o E. apply exec_try_except_inv in E.
  destruct E
    as [(r & E & ->) | [(e & E & C & ->) | (e & t1 & t2 & E1 & C & E2 & ->)]].
  - exact (H t _ E).
  - specialize (H t _ E). simpl in H. rewrite C in H. exact H.
  - specialize (H t1 _ E1). simpl in H. rewrite C in H. exact (H t2 o E2).
Qed.

Lemma always_try_finally (p : prog A) cleanup Q :
  always p (fun t1 o1 =>
              always cleanup (fun t2 o2 =>
                Q (t1 ++ t2)%list
                  match o2 with
                  | Returned _ => o1
                  | Raised e => Raised e
                  end)) ->
  always (try_finally p cleanup) Q.
Proof.
  intros H t o E. apply exec_try_finally_inv in E.
  destruct E as (t1 & t2 & o1 & o2 & E1 & E2 & -> & Ho).
  specialize (H t1 o1 E1 t2 o2 E2). simpl in H.
  destruct o2; subst o; exact H.
Qed.

End AlwaysRules.

(** One step through the syntax of a program. *)
Ltac case_scrutinee x :=
  lazymatch x with
  | match ?y with _ => _ end => case_scrutinee y
  | _ => destruct x eqn:?
  end.

Ltac step :=
  lazymatch goal with
  | |- always (Ret _) _ => apply always_ret
  | |- always (Raise _) _ => apply always_raise
  | |- always (lift _) _ => apply always_lift
  | |- always (call _) _ => unfold call
  | |- always (Vis _ _) _ => apply always_vis; intros ?
  | |- always (bind _ _) _ => apply always_bind
  | |- always (try_except _ _ _) _ => apply always_try_except
  | |- always (try_finally _ _) _ => apply always_try_finally
  | |- always (match ?x with _ => _ end) _ => case_scrutinee x
  | |- match ?x with _ => _ end => case_scrutinee x
  end.

Ltac steps := repeat (step; cbv beta; cbn [bind call lift app]).

(** *** Calls of one kind only *)

Lemma only_nil S : only S [].
Proof. constructor. Qed.

Lemma only_cons S a x t : S a = true -> only S t -> only S (Entry a x :: t).
Proof. intros H1 H2. constructor; assumption. Qed.

Lemma only_app S t1 t2 : only S t1 -> only S t2 -> only S (t1 ++ t2)%list.
Proof. intros H1 H2. apply Forall_app. split; assumption. Qed.

Create HintDb trace.
#[local] Hint Resolve only_nil only_cons only_app : trace.

Lemma project_app {X} (f : entry -> option X) t1 t2 :
  project f (t1 ++ t2)%list = (project f t1 ++ project f t2)%list.
Proof. apply flat_map_app. Qed.

Lemma project_cons {X} (f : entry -> option X) e t :
  project f (e :: t) =
  match f e with
  | Some x => x :: project f t
  | None => project f t
  end.
Proof. unfold project. cbn [flat_map]. destruct (f e); reflexivity. Qed.

Lemma project_nil {X} (f : entry -> option X) : project f [] = [].
Proof. reflexivity. Qed.

Lemma marks_app t1 t2 : marks (t1 ++ t2)%list = (marks t1 ++ marks t2)%list.
Proof. apply flat_map_app. Qed.

Lemma only_project_nil {X} S (f : entry -> option X) t :
  (forall a x, S a = true -> f (Entry a x) = None) ->
  only S t -> project f t = [].
Proof.
  intros H. induction 1 as [|[a x] t Ha _ IH]; simpl; [reflexivity|].
  rewrite (H a x Ha). exact IH.
Qed.

Lemma only_marks_nil S t :
  (forall a x, S a = true -> mark_of (Entry a x) = []) ->
  only S t -> marks t = [].
Proof.
  intros H. induction 1 as [|[a x] t Ha _ IH]; [reflexivity|].
  unfold marks in *. cbn [flat_map]. rewrite (H a x Ha). exact IH.
Qed.

Section SessionCalls.

Context {lib : PyLib} (self : FileTransfer).

Lemma get_instance_ip_session :
  always (_get_instance_ip self) (fun t _ => only session_action t).
Proof.
  unfold _get_instance_ip, get_gpu_status. cbn [bind call lift].
  steps; auto with trace.
Qed.

Lemma ensure_ssh_access_session :
  always (_ensure_ssh_access self) (fun t _ => only session_action t).
Proof.
  unfold _ensure_ssh_access, os_environ_get, os_path_exists, connect_ssh.
  cbn [bind call lift].
  repeat (first
    [ step
    | eapply always_weaken; [apply get_instance_ip_session|];
      cbv beta; intros ? [[[? ?]|]|] ? ];
    cbv beta; cbn [bind call lift]); auto 10 with trace.
Qed.

End SessionCalls.

Section SessionSetup.

Context {lib : PyLib} (self : FileTransfer).

Lemma get_ssh_info_session :
  always (_get_ssh_info self) (fun t _ => only session_action t).
Proof.
  unfold _get_ssh_info. cbn [bind call lift].
  repeat (first
    [ step
    | eapply always_weaken; [apply get_instance_ip_session|];
      cbv beta; intros ? [[[? ?]|]|] ? ];
    cbv beta; cbn [bind call lift app]); auto 10 with trace.
Qed.

Lemma ssh_key_from_environ_session :
  always ssh_key_from_environ (fun t _ => only session_action t).
Proof.
  unfold ssh_key_from_environ, os_environ_get. cbn [bind call lift].
  steps; auto with trace.
Qed.

Lemma os_makedirs_session p :
  always (os_makedirs p) (fun t _ => only session_action t).
Proof.
  unfold os_makedirs. cbn [bind call lift]. steps; auto with trace.
Qed.

Lemma session_no_remote_calls t : only session_action t -> remote_calls t = [].
Proof.
  apply only_project_nil. intros [] x H; try discriminate H; reflexivity.
Qed.

Lemma session_no_process_calls t :
  only session_action t -> process_calls t = [].
Proof.
  apply only_project_nil. intros [] x H; try discriminate H; reflexivity.
Qed.

Lemma session_no_marks t : only session_action t -> marks t = [].
Proof.
  apply only_marks_nil. intros [] x H; try discriminate H; reflexivity.
Qed.

End SessionSetup.

(** *** Loops whose calls are of one kind *)

Section LoopsOnly.

Variable S : action -> bool.

Lemma for_range_from_only (body : Z -> prog flow) :
  (forall i, always (body i) (fun t _ => only S t)) ->
  forall n i, always (for_range_from i n body) (fun t _ => only S t).
Proof.
  intros Hb. induction n as [|n IH]; intros i; cbn [for_range_from].
  - step. auto with trace.
  - apply always_bind. eapply always_weaken; [apply Hb|].
    cbv beta. intros t1 [[]|e] H1; [| |exact H1].
    + eapply always_weaken; [apply IH|]. cbv beta. auto with trace.
    + step. rewrite app_nil_r. exact H1.
Qed.

Lemma retrying_only max_retries (attempt_body : Z -> prog flow) :
  (forall seconds, S (Sleep seconds) = true) ->
  (forall i, always (attempt_body i) (fun t _ => only S t)) ->
  forall i, always (retrying max_retries attempt_body i)
                   (fun t _ => only S t).
Proof.
  intros Hs Hb i. unfold retrying, backoff, time_sleep.
  apply always_bind. apply always_try_except.
  eapply always_weaken; [apply Hb|]. cbv beta.
  intros t1 [[]|e] H1; [| |destruct (is_Exception e); [|exact H1]].
  all: steps; rewrite ?app_nil_r; auto with trace.
Qed.

End LoopsOnly.

(** ** The theorems on sessions, downloads and listings *)

Section SessionsAndListings.

Context {lib : PyLib} (self : FileTransfer).

(** C9: when the session is already connected, [_ensure_ssh_access]
    asks [is_connected] and returns: the environment is not read, the
    endpoint is not resolved, no handshake is attempted. *)
Theorem ensure_ssh_access_idempotent t o :
  exec (_ensure_ssh_access self) t o ->
  hd_error (project connected_call t) = Some true ->
  t = [Entry IsConnected true] /\ o = Returned tt.
Proof.
  unfold _ensure_ssh_access. cbn [bind call exec].
  intros (x & t' & -> & H) Hc. cbn in Hc. injection Hc as ->.
  destruct H as [-> ->]. auto.
Qed.

(** C10: when the listing command answers with an error, or with
    [No such file or directory], [list_remote_files] returns the empty
    list, where [download_directory] raises [FileNotFoundError]. *)
Theorem listing_failure_empty_or_raise remote_path local_dir max_retries res :
  PyStr.startswith "Error" res = true \/
  PyStr.contains "No such file or directory" res = true ->
  (forall t o,
      exec (list_remote_files self remote_path) t o ->
      hd_error (remote_calls t) = Some (find_cmd remote_path, None, Ok res) ->
      o = Returned []) /\
  (forall t o,
      exec (download_directory self remote_path local_dir max_retries) t o ->
      hd_error (remote_calls t) = Some (find_cmd remote_path, None, Ok res) ->
      o = Raised FileNotFoundError).
Proof.
  intros Hres.
  assert (F : listing_failed res = true).
  { unfold listing_failed. apply orb_true_iff. exact Hres. }
  split.
  - change (always (list_remote_files self remote_path)
              (fun t o =>
                 hd_error (remote_calls t)
                 = Some (find_cmd remote_path, None, Ok res) ->
                 o = Returned [])).
    unfold list_remote_files, execute_remote_command.
    apply always_bind.
    eapply always_weaken; [apply ensure_ssh_access_session|]. cbv beta.
    intros t1 o1 H1. apply session_no_remote_calls in H1.
    unfold remote_calls in *.
    destruct o1 as [[]|e]; [|rewrite H1; discriminate].
    cbn [bind call lift]. apply always_vis. intros [s|e]; cbn [bind lift].
    + destruct (listing_failed s) eqn:Fs; step;
        rewrite project_app, H1; cbn; intros E; injection E as <-;
        congruence.
    + step. rewrite project_app, H1. cbn. discriminate.
  - change (always (download_directory self remote_path local_dir max_retries)
              (fun t o =>
                 hd_error (remote_calls t)
                 = Some (find_cmd remote_path, None, Ok res) ->
                 o = Raised FileNotFoundError)).
    unfold download_directory, execute_remote_command.
    apply always_bind.
    eapply always_weaken; [apply ensure_ssh_access_session|]. cbv beta.
    intros t1 o1 H1. apply session_no_remote_calls in H1.
    unfold remote_calls in *.
    destruct o1 as [[]|e]; [|rewrite H1; discriminate].
    apply always_bind.
    eapply always_weaken; [apply os_makedirs_session|]. cbv beta.
    intros t2 o2 H2. apply session_no_remote_calls in H2.
    unfold remote_calls in *.
    destruct o2 as [[]|e]; [|rewrite project_app, H1, H2; discriminate].
    cbn [bind call lift]. apply always_vis. intros [s|e]; cbn [bind lift].
    + destruct (listing_failed s) eqn:Fs.
      * step. reflexivity.
      * intros t o _. rewrite !project_app, H1, H2. cbn.
        intros E. injection E as <-. congruence.
    + step. rewrite !project_app, H1, H2. cbn. discriminate.
Qed.

Lemma scp_download_attempt_copy info key remote_path local_path i :
  always (scp_download_attempt info key remote_path local_path i)
         (fun t _ => only copy_action t).
Proof.
  unfold scp_download_attempt, subprocess_run, os_path_exists.
  cbn [bind call lift]. steps; auto 10 with trace.
Qed.

Lemma copy_no_remote_calls t : only copy_action t -> remote_calls t = [].
Proof.
  apply only_project_nil. intros [] x H; try discriminate H; reflexivity.
Qed.

(** C5: when the remote existence check of [download_file] does not
    answer [exists], the call raises [FileNotFoundError] and no copy
    has been run. *)
Theorem download_file_absent_raises remote_path local_path max_retries
  t o verify_result :
  exec (download_file self remote_path local_path max_retries) t o ->
  In ("test -f " ++ remote_path ++ " && echo 'exists'", None, Ok verify_result)
     (remote_calls t) ->
  PyStr.contains "exists" verify_result = false ->
  o = Raised FileNotFoundError /\ process_calls t = [].
Proof.
  revert t o.
  change (always (download_file self remote_path local_path max_retries)
            (fun t o =>
               In ("test -f " ++ remote_path ++ " && echo 'exists'", None,
                   Ok verify_result) (remote_calls t) ->
               PyStr.contains "exists" verify_result = false ->
               o = Raised FileNotFoundError /\ process_calls t = [])).
  unfold download_file, execute_remote_command.
  apply always_bind.
  eapply always_weaken; [apply ensure_ssh_access_session|]. cbv beta.
  intros t1 o1 H1.
  pose proof (session_no_remote_calls _ H1) as R1.
  pose proof (session_no_process_calls _ H1) as P1.
  unfold remote_calls, process_calls in *.
  destruct o1 as [[]|e]; [|rewrite R1; intros []].
  apply always_bind.
  eapply always_weaken; [apply os_makedirs_session|]. cbv beta.
  intros t2 o2 H2.
  pose proof (session_no_remote_calls _ H2) as R2.
  pose proof (session_no_process_calls _ H2) as P2.
  unfold remote_calls, process_calls in *.
  destruct o2 as [[]|e]; [|rewrite project_app, R1, R2; intros []].
  apply always_bind.
  eapply always_weaken; [apply get_ssh_info_session|]. cbv beta.
  intros t3 o3 H3.
  pose proof (session_no_remote_calls _ H3) as R3.
  pose proof (session_no_process_calls _ H3) as P3.
  unfold remote_calls, process_calls in *.
  destruct o3 as [info|e]; [|rewrite !project_app, R1, R2, R3; intros []].
  apply always_bind.
  eapply always_weaken; [apply ssh_key_from_environ_session|]. cbv beta.
  intros t4 o4 H4.
  pose proof (session_no_remote_calls _ H4) as R4.
  pose proof (session_no_process_calls _ H4) as P4.
  unfold remote_calls, process_calls in *.
  destruct o4 as [key|e]; [|rewrite !project_app, R1, R2, R3, R4; intros []].
  cbn [bind call lift]. apply always_vis. intros [s|e]; cbn [bind lift].
  - destruct (PyStr.contains "exists" s) eqn:Es; cbn [negb].
    + apply always_bind. unfold for_range.
      eapply always_weaken;
        [apply (for_range_from_only copy_action);
         apply retrying_only; [intros; reflexivity|];
         intros; apply scp_download_attempt_copy|].
      cbv beta. intros t5 o5 H5.
      apply copy_no_remote_calls in H5. unfold remote_calls in H5.
      destruct o5 as [[]|e]; steps;
        intros Hin C; exfalso; revert Hin;
        rewrite ?app_nil_r, ?project_app, ?project_cons, ?R1, ?R2, ?R3, ?R4;
        cbn [remote_call app]; rewrite ?project_app, ?H5;
        intros [E|[]]; injection E as <-; congruence.
    + step. intros _ _. split; [reflexivity|].
      rewrite !project_app, P1, P2, P3, P4. reflexivity.
  - step. rewrite !project_app, R1, R2, R3, R4. cbn. intros [E|[]].
    discriminate E.
Qed.

Lemma Qltb_lt a b : Qltb a b = true <-> (a < b)%Q.
Proof.
  unfold Qltb. rewrite Qlt_alt. destruct (a ?= b)%Q; split; congruence.
Qed.

(** C4: for a file of 2000 MB or more, no remote fetch is issued and
    the call raises when no URL is given; a given URL is fetched by the
    instance with a timeout of 1800 seconds. *)
Theorem manual_upload_for_very_large_files local_path remote_path max_retries
  t o size :
  exec (upload_via_curl self local_path remote_path max_retries) t o ->
  getsize_calls t = [Ok size] ->
  (2000 <= file_size_mb size)%Q ->
  (input_calls t = [Ok ""] ->
   o = Raised RuntimeError /\ remote_calls t = []) /\
  (forall e, input_calls t = [Err e] ->
   o = Raised e /\ remote_calls t = []) /\
  (forall url, input_calls t = [Ok url] -> url <> "" ->
   exists answer rest,
     remote_calls t
     = (download_cmd url remote_path, Some 1800, answer) :: rest).
Proof.
  intros E Hg Hq. revert t o E Hg.
  change (always (upload_via_curl self local_path remote_path max_retries)
    (fun t o =>
       getsize_calls t = [Ok size] ->
       (input_calls t = [Ok ""] ->
        o = Raised RuntimeError /\ remote_calls t = []) /\
       (forall e, input_calls t = [Err e] ->
        o = Raised e /\ remote_calls t = []) /\
       (forall url, input_calls t = [Ok url] -> url <> "" ->
        exists answer rest,
          remote_calls t
          = (download_cmd url remote_path, Some 1800, answer) :: rest))).
  assert (N25 : Qltb (file_size_mb size) (inject_Z 25) = false).
  { destruct (Qltb (file_size_mb size) (inject_Z 25)) eqn:L; [|reflexivity].
    apply Qltb_lt in L. exfalso.
    apply (Qlt_irrefl (file_size_mb size)).
    eapply Qlt_le_trans; [exact L|].
    eapply Qle_trans; [|exact Hq]. discriminate. }
  assert (N2000 : Qltb (file_size_mb size) (inject_Z 2000) = false).
  { destruct (Qltb (file_size_mb size) (inject_Z 2000)) eqn:L; [|reflexivity].
    apply Qltb_lt in L. exfalso.
    apply (Qlt_irrefl (file_size_mb size)).
    eapply Qlt_le_trans; [exact L|exact Hq]. }
  unfold upload_via_curl, os_path_exists, os_path_getsize,
    getsize_calls, input_calls, remote_calls.
  cbn [bind call lift]. apply always_vis. intros found.
  destruct found; cbn [negb]; [|step; discriminate].
  apply always_vis. intros [size'|e]; cbn [bind lift]; [|step; discriminate].
  destruct (Qltb (file_size_mb size') (inject_Z 25)) eqn:L25;
    [intros t o _; rewrite !project_cons; cbn [getsize_call];
     intros Hg; injection Hg as -> _; congruence|].
  destruct (Qltb (file_size_mb size') (inject_Z 2000)) eqn:L2000;
    [intros t o _; rewrite !project_cons; cbn [getsize_call];
     intros Hg; injection Hg as -> _; congruence|].
  unfold manual_upload, input. cbn [bind call lift].
  apply always_vis. intros [url|e]; cbn [bind lift].
  - destruct url as [|c url]; cbn [PyStr.is_empty bind].
    + step. intros _. rewrite !project_cons. cbn [input_call remote_call].
      repeat split; auto; intros; congruence.
    + unfold fetch_and_verify, execute_remote_command.
      cbn [bind call lift try_except].
      apply always_vis. intros answer t o _.
      rewrite !project_cons. cbn [getsize_call input_call remote_call].
      intros _. split; [|split].
      * intros Hi. exfalso. destruct (project input_call t); discriminate Hi.
      * intros e Hi. exfalso. destruct (project input_call t); discriminate Hi.
      * intros u Hi _. exists answer, (project remote_call t).
        destruct (project input_call t); [|discriminate Hi].
        injection Hi as <-. reflexivity.
  - step. intros _. rewrite !project_cons. cbn [input_call remote_call].
    repeat split; auto; intros; congruence.
Qed.

Lemma anything {R : Type} (p : prog R) : always p (fun _ _ => True).
Proof. intros t o _. exact I. Qed.

Lemma session_no_tempfile_calls t :
  only session_action t -> tempfile_calls t = [].
Proof.
  apply only_project_nil. intros [] x H; try discriminate H; reflexivity.
Qed.

(** C7: once the temporary archive exists, every way out of
    [upload_directory], by return or by exception, goes through its
    removal, provided [os.unlink] itself does not fail. *)
Theorem upload_directory_removes_archive local_dir remote_dir max_retries
  t o temp_archive :
  exec (upload_directory self local_dir remote_dir max_retries) t o ->
  tempfile_calls t = [Ok temp_archive] ->
  Forall (fun c => snd c = Ok tt) (unlink_calls t) ->
  archive_removed temp_archive t.
Proof.
  revert t o.
  change (always (upload_directory self local_dir remote_dir max_retries)
            (fun t _ =>
               tempfile_calls t = [Ok temp_archive] ->
               Forall (fun c => snd c = Ok tt) (unlink_calls t) ->
               archive_removed temp_archive t)).
  unfold upload_directory, os_path_isdir, execute_remote_command,
    tempfile_calls, unlink_calls.
  cbn [bind call lift]. apply always_vis. intros is_dir.
  destruct is_dir; cbn [negb]; [|step; discriminate].
  apply always_bind.
  eapply always_weaken; [apply ensure_ssh_access_session|]. cbv beta.
  intros t1 o1 H1. apply session_no_tempfile_calls in H1.
  unfold tempfile_calls in H1.
  destruct o1 as [[]|e];
    [|rewrite project_cons, H1; cbn [tempfile_call]; discriminate].
  apply always_vis. intros [s|e]; cbn [bind lift];
    [|step; rewrite project_cons, project_app, H1, project_cons;
      cbn [tempfile_call]; discriminate].
  apply always_vis. intros [temp|e]; cbn [bind lift];
    [|step; rewrite project_cons, project_app, H1, !project_cons;
      cbn [tempfile_call]; discriminate].
  apply always_try_finally.
  eapply always_weaken; [apply anything|]. cbv beta. intros t2 o2 _.
  unfold remove_archive, os_path_exists, os_unlink. cbn [bind call lift].
  apply always_vis. intros found.
  assert (T : forall t3,
    project tempfile_call
      (Entry (PathIsDir local_dir) true
       :: t1 ++ Entry (ExecuteRemoteCommand ("mkdir -p " ++ remote_dir)
                         (instance_id self) None) (Ok s)
          :: Entry (NamedTemporaryFile ".tar.gz") (Ok temp) :: t3)%list
    = [Ok temp_archive] -> temp = temp_archive).
  { intros t3.
    rewrite project_cons, project_app, H1, !project_cons.
    cbn [tempfile_call app]. intros E. injection E as -> _. reflexivity. }
  destruct found.
  - apply always_vis. intros r. destruct r as [[]|e]; cbn [lift]; step.
    + intros Ht _. apply T in Ht. subst temp.
      exists (Entry (PathIsDir local_dir) true
              :: t1 ++ Entry (ExecuteRemoteCommand ("mkdir -p " ++ remote_dir)
                                (instance_id self) None) (Ok s)
                 :: Entry (NamedTemporaryFile ".tar.gz") (Ok temp_archive)
                 :: t2)%list.
      right. cbn [app]. f_equal. rewrite <- app_assoc. cbn [app].
      do 3 f_equal.
    + intros _ Hu. exfalso.
      rewrite project_cons, project_app in Hu. cbn [unlink_call] in Hu.
      apply Forall_app in Hu. destruct Hu as [_ Hu].
      rewrite !project_cons, project_app in Hu. cbn [unlink_call] in Hu.
      apply Forall_app in Hu. destruct Hu as [_ Hu].
      rewrite !project_cons in Hu. cbn [unlink_call] in Hu.
      inversion Hu as [|c l Hc _]. discriminate Hc.
  - step. intros Ht _. apply T in Ht. subst temp.
    exists (Entry (PathIsDir local_dir) true
            :: t1 ++ Entry (ExecuteRemoteCommand ("mkdir -p " ++ remote_dir)
                              (instance_id self) None) (Ok s)
               :: Entry (NamedTemporaryFile ".tar.gz") (Ok temp_archive)
               :: t2)%list.
    left. cbn [app]. f_equal. rewrite <- app_assoc. cbn [app].
    do 3 f_equal.
Qed.

End SessionsAndListings.

(** ** Executions of a retry loop *)

Section RetryLoop.

Variable max_retries : Z.
Variable attempt_body : Z -> prog flow.

Lemma retry_trace_zero k t : retry_trace attempt_body k 0 t -> t = [].
Proof. inversion 1. reflexivity. Qed.

(** One turn: the attempt, then the wait unless it was the last turn
    or the attempt returned. *)
Lemma retrying_turn k t o :
  exec (retrying max_retries attempt_body (Z.of_nat k - 1)) t o ->
  exists ta,
    attempt_trace attempt_body k ta /\
    ((o = Returned Return /\ t = ta) \/
     (exists e, o = Raised e /\ is_Exception e = false /\ t = ta) \/
     (o = Returned Continue /\
      t = (ta ++ if (Z.of_nat k <? max_retries)%Z
                 then [Entry (Sleep (5 * Z.of_nat k)) tt] else [])%list)).
Proof.
  unfold retrying. intros H. apply exec_bind_inv in H.
  assert (W : forall t2 o2,
    exec (backoff (Z.of_nat k - 1) max_retries ;; Ret Continue) t2 o2 ->
    o2 = Returned Continue /\
    t2 = if (Z.of_nat k <? max_retries)%Z
         then [Entry (Sleep (5 * Z.of_nat k)) tt] else []).
  { intros t2 o2. unfold backoff, time_sleep.
    replace (Z.of_nat k - 1 <? max_retries - 1)%Z
      with (Z.of_nat k <? max_retries)%Z
      by (destruct (Z.ltb_spec (Z.of_nat k) max_retries);
          destruct (Z.ltb_spec (Z.of_nat k - 1) (max_retries - 1));
          reflexivity || lia).
    replace (5 * (Z.of_nat k - 1 + 1))%Z with (5 * Z.of_nat k)%Z by lia.
    destruct (Z.of_nat k <? max_retries)%Z; cbn [bind call exec].
    - intros ([] & t' & -> & -> & ->). auto.
    - intros [-> ->]. auto. }
  destruct H as [(e & H & ->) | (x & t1 & t2 & H1 & H2 & ->)].
  - apply exec_try_except_inv in H.
    destruct H as [(r & _ & D) | [(e' & H & C & D) | (e' & t1 & t2 & _ & _ & [_ D] & _)]];
      try discriminate D.
    injection D as <-. exists t. split; [exists (Raised e); exact H|].
    right. left. eauto.
  - apply exec_try_except_inv in H1.
    destruct H1 as [(r & H1 & D) | [(e' & _ & _ & D) | (e' & ta & t0 & H1 & C & [-> D] & ->)]];
      try discriminate D.
    + injection D as <-. exists t1. split; [exists (Returned x); exact H1|].
      destruct x; cbv beta iota in H2.
      * right. right. apply W in H2. destruct H2 as [-> ->]. auto.
      * left. destruct H2 as [-> ->]. rewrite app_nil_r. auto.
    + injection D as ->. rewrite app_nil_r. cbv beta iota in H2.
      exists ta. split; [exists (Raised e'); exact H1|].
      right. right. apply W in H2. destruct H2 as [-> ->]. auto.
Qed.

(** The loop from attempt [k] on, with [n] turns left. *)
Lemma retry_loop_shape n : forall k t o,
  (1 <= k)%nat ->
  (Z.of_nat k - 1 + Z.of_nat n = max_retries)%Z ->
  exec (for_range_from (Z.of_nat k - 1) n (retrying max_retries attempt_body))
       t o ->
  exists j,
    retry_trace attempt_body k j t /\ (j <= n)%nat /\ (j = 0%nat -> n = 0%nat) /\
    match o with
    | Returned Continue => j = n
    | Returned Return => (1 <= j)%nat
    | Raised e => is_Exception e = false /\ (1 <= j)%nat
    end.
Proof.
  induction n as [|n IH]; intros k t o Hk Hm; cbn [for_range_from].
  - intros [-> ->]. exists 0%nat. repeat split; auto. constructor.
  - intros H. apply exec_bind_inv in H.
    destruct H as [(e & H & ->) | (x & t1 & t2 & H1 & H2 & ->)].
    + apply retrying_turn in H.
      destruct H as (ta & Ha & [[D _] | [(e' & D & C & ->) | [D _]]]);
        try discriminate D.
      injection D as <-. exists 1%nat.
      split; [constructor; exact Ha|]. repeat split; auto; lia.
    + apply retrying_turn in H1.
      destruct H1 as (ta & Ha & [[D ->] | [(e' & D & _) | [D ->]]]);
        try discriminate D; injection D as ->; cbv beta iota in H2.
      * destruct H2 as [-> ->]. rewrite app_nil_r. exists 1%nat.
        split; [constructor; exact Ha|]. repeat split; auto; lia.
      * replace (Z.of_nat k - 1 + 1)%Z with (Z.of_nat (S k) - 1)%Z in H2
          by lia.
        apply IH in H2; [|lia|lia].
        destruct H2 as (j & Hj & Hle & Hz & Ho).
        destruct (Z.ltb_spec (Z.of_nat k) max_retries) as [L|L].
        -- destruct j as [|j]; [specialize (Hz eq_refl); lia|].
           exists (S (S j)). rewrite <- app_assoc. cbn [app].
           split; [constructor; assumption|].
           split; [lia|]. split; [lia|].
           destruct o as [[]|e]; [lia | lia | destruct Ho; split; [assumption|lia]].
        -- assert (Hn : n = 0%nat) by lia.
           assert (Hj0 : j = 0%nat) by lia.
           rewrite Hj0 in Hj. apply retry_trace_zero in Hj.
           rewrite Hj, !app_nil_r.
           exists 1%nat.
           split; [constructor; exact Ha|].
           split; [lia|]. split; [lia|].
           destruct o as [[]|e]; [lia | lia | destruct Ho; lia].
Qed.

(** The whole loop [for attempt in range(max_retries)]. *)
Lemma retry_loop t o :
  exec (for_range max_retries (retrying max_retries attempt_body)) t o ->
  exists j,
    retry_trace attempt_body 1 j t /\ (j <= Z.to_nat max_retries)%nat /\
    (j = 0%nat -> (max_retries <= 0)%Z) /\
    match o with
    | Returned Continue => j = Z.to_nat max_retries
    | Returned Return => (1 <= j)%nat
    | Raised e => is_Exception e = false /\ (1 <= j)%nat
    end.
Proof.
  unfold for_range. intros H.
  destruct (Z.le_gt_cases max_retries 0) as [L|L].
  - replace (Z.to_nat max_retries) with 0%nat in * by lia.
    destruct H as [-> ->]. exists 0%nat. repeat split; auto. constructor.
  - change 0%Z with (Z.of_nat 1 - 1)%Z in H.
    apply retry_loop_shape in H; [|lia|lia].
    destruct H as (j & Hj & Hle & Hz & Ho). exists j.
    repeat split; auto. intros ->. specialize (Hz eq_refl). lia.
Qed.

(** The marks of a loop whose attempts each show one start and no
    sleep. *)
Lemma retry_trace_marks k j t :
  (forall k' ta, attempt_trace attempt_body k' ta -> marks ta = [Attempt]) ->
  (1 <= k)%nat ->
  retry_trace attempt_body k j t ->
  marks t =
  match j with
  | O => []
  | S j' => Attempt :: flat_map attempt_marks (seq (S k) j')
  end.
Proof.
  intros Ha Hk H. induction H as [k | k ta H | k j ta ts H _ IH].
  - reflexivity.
  - rewrite (Ha _ _ H). reflexivity.
  - rewrite marks_app, (Ha _ _ H). unfold marks at 1. cbn [flat_map mark_of].
    fold (marks ts). rewrite IH by lia. cbn [seq flat_map app].
    unfold attempt_marks at 2. destruct k as [|k]; [lia|].
    replace (Z.of_nat (S (S k)) - 1)%Z with (Z.of_nat (S k)) by lia.
    reflexivity.
Qed.

Lemma retry_loop_marks t o :
  (forall k ta, attempt_trace attempt_body k ta -> marks ta = [Attempt]) ->
  exec (for_range max_retries (retrying max_retries attempt_body)) t o ->
  exists n,
    marks t = schedule n /\ (n <= Z.to_nat max_retries)%nat /\
    (n = 0%nat -> (max_retries <= 0)%Z) /\
    match o with
    | Returned Continue => n = Z.to_nat max_retries
    | Returned Return => (1 <= n)%nat
    | Raised e => is_Exception e = false /\ (1 <= n)%nat
    end.
Proof.
  intros Ha H. apply retry_loop in H.
  destruct H as (j & Hj & Hle & Hz & Ho). exists j.
  repeat split; auto.
  rewrite (retry_trace_marks _ _ _ Ha (le_n 1) Hj).
  destruct j; reflexivity.
Qed.

(** What a loop shows of one kind of call: the blocks of its attempts,
    one after the other (a sleep shows nothing). *)
Lemma retry_trace_project {X : Type} (f : entry -> option X)
  (P : list X -> Prop) k j t :
  (forall d x, f (Entry (Sleep d) x) = None) ->
  (forall k' ta, attempt_trace attempt_body k' ta -> P (project f ta)) ->
  retry_trace attempt_body k j t ->
  exists blocks,
    List.length blocks = j /\ Forall P blocks /\
    project f t = List.concat blocks.
Proof.
  intros Hs Ha H. induction H as [k | k ta H | k j ta ts H _ IH].
  - exists []. repeat split; constructor.
  - exists [project f ta]. cbn [List.concat List.length]. rewrite app_nil_r.
    repeat split. constructor; [exact (Ha _ _ H) | constructor].
  - destruct IH as (blocks & Hl & Hf & Hp).
    exists (project f ta :: blocks). cbn [List.concat List.length].
    rewrite project_app, project_cons, Hs, Hp, Hl.
    repeat split. constructor; [exact (Ha _ _ H) | exact Hf].
Qed.

End RetryLoop.

(** ** Running a program in a world, step by step *)

Section RunLemmas.

Context {A B : Type}.

Lemma run_bind (w : world) (p : prog A) (k : A -> prog B) h :
  run w h (bind p k) =
  let (t1, o1) := run w h p in
  match o1 with
  | Returned x =>
      let (t2, o2) := run w (h ++ t1)%list (k x) in ((t1 ++ t2)%list, o2)
  | Raised e => (t1, Raised e)
  end.
Proof.
  revert h. induction p as [r | e | a q IH]; intros h; cbn [bind run].
  - rewrite app_nil_r. destruct (run w h (k r)). reflexivity.
  - reflexivity.
  - rewrite IH.
    destruct (run w (h ++ [Entry a (w h a)])%list (q (w h a))) as [t1 [x|e]].
    + rewrite <- app_assoc. cbn [app].
      destruct (run w (h ++ Entry a (w h a) :: t1)%list (k x)). reflexivity.
    + reflexivity.
Qed.

End RunLemmas.

Lemma run_try_except {A : Type} (w : world) (p : prog A) classes handler h :
  run w h (try_except p classes handler) =
  let (t1, o1) := run w h p in
  match o1 with
  | Returned x => (t1, Returned x)
  | Raised e =>
      if classes e
      then let (t2, o2) := run w (h ++ t1)%list (handler e) in
           ((t1 ++ t2)%list, o2)
      else (t1, Raised e)
  end.
Proof.
  revert h. induction p as [r | e | a q IH]; intros h; cbn [try_except run].
  - reflexivity.
  - destruct (classes e); [|reflexivity].
    rewrite app_nil_r. destruct (run w h (handler e)). reflexivity.
  - rewrite IH.
    destruct (run w (h ++ [Entry a (w h a)])%list (q (w h a))) as [t1 [x|e]].
    + reflexivity.
    + destruct (classes e); [|reflexivity].
      rewrite <- app_assoc. cbn [app].
      destruct (run w (h ++ Entry a (w h a) :: t1)%list (handler e)).
      reflexivity.
Qed.

(** ** The retry loops of the four transfers *)

Section Retries.

Context {lib : PyLib} (self : FileTransfer).

(** Each [try] block starts its attempt once and does not sleep. *)

Lemma scp_upload_attempt_marks info key local_path remote_path i :
  always (scp_upload_attempt self info key local_path remote_path i)
         (fun t _ => marks t = [Attempt]).
Proof.
  unfold scp_upload_attempt, subprocess_run, execute_remote_command.
  cbn [bind call lift app scp_options]. steps; reflexivity.
Qed.

Lemma scp_download_attempt_marks info key remote_path local_path i :
  always (scp_download_attempt info key remote_path local_path i)
         (fun t _ => marks t = [Attempt]).
Proof.
  unfold scp_download_attempt, subprocess_run, os_path_exists.
  cbn [bind call lift app scp_options]. steps; reflexivity.
Qed.

Lemma transfer_sh_attempt_marks local_path remote_path i :
  always (transfer_sh_attempt self local_path remote_path i)
         (fun t _ => marks t = [Attempt]).
Proof.
  unfold transfer_sh_attempt, subprocess_run, fetch_and_verify,
    execute_remote_command.
  cbn [bind call lift]. steps; reflexivity.
Qed.

Lemma gofile_attempt_marks local_path remote_path i :
  always (gofile_attempt self local_path remote_path i)
         (fun t _ => marks t = [Attempt]).
Proof.
  unfold gofile_attempt, subprocess_run, fetch_and_verify,
    execute_remote_command, loads, status_is_ok.
  cbn [bind call lift]. steps; reflexivity.
Qed.

(** From a fact on every execution of the [try] block to the attempts
    of the loop. *)
Lemma attempts_always (attempt_body : Z -> prog flow) (P : trace -> Prop) :
  (forall i, always (attempt_body i) (fun t _ => P t)) ->
  forall k ta, attempt_trace attempt_body k ta -> P ta.
Proof. intros H k ta (o & E). exact (H _ _ _ E). Qed.

Lemma retry_then_raise max_retries attempt_body :
  (forall i, always (attempt_body i) (fun t _ => marks t = [Attempt])) ->
  always
    (f <- for_range max_retries (retrying max_retries attempt_body) ;;
     match f with
     | Return => Ret tt
     | Continue => Raise RuntimeError
     end)
    (fun t o =>
       exists n, marks t = schedule n /\ (n <= Z.to_nat max_retries)%nat /\
                 retry_outcome (Z.to_nat max_retries) n o).
Proof.
  intros Ha. apply always_bind. intros t o E.
  apply retry_loop_marks in E; [|exact (attempts_always _ _ Ha)].
  destruct E as (n & Hm & Hle & Hz & Ho).
  destruct o as [[]|e]; [step | step |]; rewrite ?app_nil_r;
    exists n; repeat split; auto; cbn.
  - left. auto.
  - right. exact Ho.
Qed.

Lemma marks_cons e t : marks (e :: t) = (mark_of e ++ marks t)%list.
Proof. reflexivity. Qed.

Lemma schedule_0 : schedule 0 = [].
Proof. reflexivity. Qed.

(** The relay upload: at most [max_retries] attempts on the schedule
    (none in the manual tier). *)
Lemma upload_via_curl_marks local_path remote_path max_retries :
  always (upload_via_curl self local_path remote_path max_retries)
    (fun t _ => exists n, (n <= Z.to_nat max_retries)%nat /\
                          marks t = schedule n).
Proof.
  unfold upload_via_curl, os_path_exists, os_path_getsize.
  cbn [bind call lift]. apply always_vis. intros found.
  destruct found; cbn [negb];
    [|step; exists 0%nat; split; [lia | reflexivity]].
  apply always_vis. intros [size|e]; cbn [bind lift];
    [|step; exists 0%nat; split; [lia | reflexivity]].
  destruct (Qltb (file_size_mb size) (inject_Z 25));
    [|destruct (Qltb (file_size_mb size) (inject_Z 2000))].
  - eapply always_weaken;
      [apply retry_then_raise; intros; apply transfer_sh_attempt_marks|].
    cbv beta. intros t o (n & Hm & Hle & _). exists n. split; [exact Hle|].
    rewrite !marks_cons, Hm. reflexivity.
  - eapply always_weaken;
      [apply retry_then_raise; intros; apply gofile_attempt_marks|].
    cbv beta. intros t o (n & Hm & Hle & _). exists n. split; [exact Hle|].
    rewrite !marks_cons, Hm. reflexivity.
  - unfold manual_upload, input, fetch_and_verify, execute_remote_command.
    cbn [bind call lift].
    steps; exists 0%nat; (split; [lia | reflexivity]).
Qed.

Lemma scp_upload_marks local_path remote_path max_retries :
  always (scp_upload self local_path remote_path max_retries)
    (fun t o => exists n, (n <= Z.to_nat max_retries)%nat /\
                          marks t = schedule n /\
                          fallback_outcome (Z.to_nat max_retries) n o).
Proof.
  unfold scp_upload. apply always_bind.
  eapply always_weaken; [apply get_ssh_info_session|]. cbv beta.
  intros t1 o1 H1. apply session_no_marks in H1.
  destruct o1 as [info|e];
    [|exists 0%nat; repeat split; [lia | exact H1 | right; eauto]].
  apply always_bind.
  eapply always_weaken; [apply ssh_key_from_environ_session|]. cbv beta.
  intros t2 o2 H2. apply session_no_marks in H2.
  destruct o2 as [key|e];
    [|exists 0%nat; rewrite marks_app, H1, H2;
      repeat split; [lia | right; eauto]].
  eapply always_weaken;
    [apply retry_then_raise; intros; apply scp_upload_attempt_marks|].
  cbv beta. intros t o (n & Hm & Hle & Ho). exists n.
  rewrite !marks_app, H1, H2, Hm. repeat split; auto. left. exact Ho.
Qed.

Lemma upload_setup_marks local_path remote_path :
  always (upload_setup self local_path remote_path)
         (fun t _ => marks t = []).
Proof.
  unfold upload_setup, os_path_exists, execute_remote_command.
  cbn [bind call lift]. apply always_vis. intros found.
  destruct found; cbn [negb]; [|step; reflexivity].
  apply always_bind.
  eapply always_weaken; [apply ensure_ssh_access_session|]. cbv beta.
  intros t1 o1 H1. apply session_no_marks in H1.
  destruct o1 as [[]|e]; [|rewrite marks_cons, H1; reflexivity].
  steps; rewrite marks_cons, marks_app, H1; reflexivity.
Qed.

Lemma upload_file_marks local_path remote_path max_retries :
  always (upload_file self local_path remote_path max_retries)
    (fun t _ => exists n1 n2,
       (n1 <= Z.to_nat max_retries)%nat /\ (n2 <= Z.to_nat max_retries)%nat /\
       marks t = (schedule n1 ++ schedule n2)%list).
Proof.
  unfold upload_file. apply always_bind.
  eapply always_weaken; [apply upload_setup_marks|]. cbv beta.
  intros t0 o0 H0.
  destruct o0 as [[]|e];
    [|exists 0%nat, 0%nat; repeat split; [lia | lia | exact H0]].
  apply always_bind. apply always_try_except. apply always_bind.
  eapply always_weaken; [apply upload_via_curl_marks|]. cbv beta.
  intros t1 o1 (n1 & L1 & M1).
  assert (Stop : exists a b, (a <= Z.to_nat max_retries)%nat /\
                             (b <= Z.to_nat max_retries)%nat /\
                             marks (t0 ++ t1)%list
                             = (schedule a ++ schedule b)%list).
  { exists n1, 0%nat. rewrite marks_app, H0, M1, app_nil_r.
    repeat split; auto. lia. }
  destruct o1 as [[]|e].
  - steps. rewrite !app_nil_r. exact Stop.
  - destruct (is_Exception e); [|exact Stop].
    steps. rewrite app_nil_r.
    eapply always_weaken; [apply scp_upload_marks|]. cbv beta.
    intros t2 o2 (n2 & L2 & M2 & _). exists n1, n2.
    rewrite !marks_app, H0, M1, M2. repeat split; auto.
Qed.

Lemma download_file_marks remote_path local_path max_retries :
  always (download_file self remote_path local_path max_retries)
    (fun t _ => exists n, (n <= Z.to_nat max_retries)%nat /\
                          marks t = schedule n).
Proof.
  unfold download_file, execute_remote_command.
  apply always_bind.
  eapply always_weaken; [apply ensure_ssh_access_session|]. cbv beta.
  intros t1 o1 H1. apply session_no_marks in H1.
  destruct o1 as [[]|e]; [|exists 0%nat; split; [lia | exact H1]].
  apply always_bind.
  eapply always_weaken; [apply os_makedirs_session|]. cbv beta.
  intros t2 o2 H2. apply session_no_marks in H2.
  destruct o2 as [[]|e];
    [|exists 0%nat; rewrite marks_app, H1, H2; split; [lia | reflexivity]].
  apply always_bind.
  eapply always_weaken; [apply get_ssh_info_session|]. cbv beta.
  intros t3 o3 H3. apply session_no_marks in H3.
  destruct o3 as [info|e];
    [|exists 0%nat; rewrite !marks_app, H1, H2, H3;
      split; [lia | reflexivity]].
  apply always_bind.
  eapply always_weaken; [apply ssh_key_from_environ_session|]. cbv beta.
  intros t4 o4 H4. apply session_no_marks in H4.
  destruct o4 as [key|e];
    [|exists 0%nat; rewrite !marks_app, H1, H2, H3, H4;
      split; [lia | reflexivity]].
  cbn [bind call lift]. apply always_vis. intros [s|e]; cbn [bind lift];
    [|step; exists 0%nat; rewrite !marks_app, H1, H2, H3, H4;
      split; [lia | reflexivity]].
  destruct (PyStr.contains "exists" s); cbn [negb];
    [|step; exists 0%nat; rewrite !marks_app, H1, H2, H3, H4;
      split; [lia | reflexivity]].
  eapply always_weaken;
    [apply retry_then_raise; intros; apply scp_download_attempt_marks|].
  cbv beta. intros t o (n & Hm & Hle & _). exists n. split; [exact Hle|].
  rewrite !marks_app, H1, H2, H3, H4, marks_cons, Hm. reflexivity.
Qed.

(** C6: in the four retry loops (both relay tiers in [upload_via_curl],
    the secure-copy loops of [download_file] and [upload_file]) the
    sleep before attempt [k >= 2] lasts [5 * (k - 1)] seconds, and no
    sleep follows the last attempt. *)
Theorem backoff_schedule local_path remote_path max_retries :
  (forall t o,
      exec (upload_via_curl self local_path remote_path max_retries) t o ->
      exists n, (n <= Z.to_nat max_retries)%nat /\ marks t = schedule n) /\
  (forall t o,
      exec (download_file self remote_path local_path max_retries) t o ->
      exists n, (n <= Z.to_nat max_retries)%nat /\ marks t = schedule n) /\
  (forall t o,
      exec (upload_file self local_path remote_path max_retries) t o ->
      exists n1 n2,
        (n1 <= Z.to_nat max_retries)%nat /\ (n2 <= Z.to_nat max_retries)%nat /\
        marks t = (schedule n1 ++ schedule n2)%list).
Proof.
  split; [|split].
  - exact (upload_via_curl_marks _ _ _).
  - exact (download_file_marks _ _ _).
  - exact (upload_file_marks _ _ _).
Qed.

(** *** The calls of the relay tiers *)

Lemma relay_no_getsize_calls t : only relay_action t -> getsize_calls t = [].
Proof.
  apply only_project_nil. intros [] x H; try discriminate H; reflexivity.
Qed.

Lemma remote_only_no_process_calls t :
  only (fun a => match a with
                 | ExecuteRemoteCommand _ _ _ => true
                 | _ => false
                 end) t ->
  process_calls t = [].
Proof.
  apply only_project_nil. intros [] x H; try discriminate H; reflexivity.
Qed.

Lemma fetch_and_verify_remote url remote_path timeout :
  always (fetch_and_verify self url remote_path timeout)
    (fun t _ => only (fun a => match a with
                               | ExecuteRemoteCommand _ _ _ => true
                               | _ => false
                               end) t).
Proof.
  unfold fetch_and_verify, execute_remote_command. cbn [bind call lift].
  steps; auto 10 with trace.
Qed.

Lemma transfer_sh_attempt_relay local_path remote_path i :
  always (transfer_sh_attempt self local_path remote_path i)
         (fun t _ => only relay_action t).
Proof.
  unfold transfer_sh_attempt, subprocess_run, fetch_and_verify,
    execute_remote_command.
  cbn [bind call lift]. steps; auto 10 with trace.
Qed.

Lemma gofile_attempt_relay local_path remote_path i :
  always (gofile_attempt self local_path remote_path i)
         (fun t _ => only relay_action t).
Proof.
  unfold gofile_attempt, subprocess_run, fetch_and_verify,
    execute_remote_command, loads, status_is_ok.
  cbn [bind call lift]. steps; auto 10 with trace.
Qed.

Lemma transfer_sh_attempt_calls local_path remote_path i :
  always (transfer_sh_attempt self local_path remote_path i)
    (fun t _ => exists c, small_file_call local_path c /\
                          process_calls t = [c]).
Proof.
  unfold transfer_sh_attempt, subprocess_run.
  cbn [bind call lift andb]. apply always_vis. intros hex.
  apply always_vis. intros answer.
  assert (G : forall t, process_calls t = [] ->
    exists c, small_file_call local_path c /\
      process_calls
        (Entry Uuid4Hex hex
         :: Entry (SubprocessRun
                     (transfer_sh_cmd local_path
                        (hex ++ "_" ++ basename local_path))) answer
         :: t) = [c]).
  { intros t Ht.
    exists (transfer_sh_cmd local_path (hex ++ "_" ++ basename local_path),
            answer).
    split; [exists hex; reflexivity|].
    unfold process_calls in *. rewrite !project_cons, Ht. reflexivity. }
  destruct answer as [p|e]; cbn [bind lift]; [|step; apply G; reflexivity].
  destruct (negb (returncode p =? 0)%Z); cbn [bind];
    [step; apply G; reflexivity|].
  eapply always_weaken; [apply fetch_and_verify_remote|]. cbv beta.
  intros t _ H. apply G. exact (remote_only_no_process_calls _ H).
Qed.

Lemma gofile_attempt_calls local_path remote_path i :
  always (gofile_attempt self local_path remote_path i)
    (fun t _ => two_step_block local_path (process_calls t)).
Proof.
  unfold gofile_attempt, subprocess_run, loads, status_is_ok.
  cbn [bind call lift andb]. apply always_vis. intros [p|e]; cbn [bind lift];
    [|step; left; exists (Err e); split; [exact I | reflexivity]].
  assert (N : lookup_server p = None ->
    two_step_block local_path
      (process_calls [Entry (SubprocessRun get_server_cmd) (Ok p)])).
  { intros H. left. exists (Ok p). split; [exact H | reflexivity]. }
  destruct (returncode p =? 0)%Z eqn:Rc; cbn [negb bind];
    [|step; apply N; unfold lookup_server; rewrite Rc; reflexivity].
  destruct (json_loads (stdout p)) as [sd|e] eqn:Jl; cbn [bind lift];
    [|step; apply N; unfold lookup_server; rewrite Rc, Jl; reflexivity].
  destruct (json_get sd "status") as [st|e] eqn:Js; cbn [bind lift];
    [|step; apply N; unfold lookup_server; rewrite Rc, Jl, Js; reflexivity].
  destruct st as [st|]; cbn [negb];
    [destruct (eq_str st "ok") eqn:Hok|]; cbn [negb];
    try (step; apply N; unfold lookup_server; rewrite Rc, Jl, Js, ?Hok;
         reflexivity).
  destruct (subscript sd "data") as [d|e] eqn:Sd; cbn [bind lift];
    [|step; apply N; unfold lookup_server; rewrite Rc, Jl, Js, Hok, Sd;
      reflexivity].
  destruct (subscript d "server") as [server|e] eqn:Ss; cbn [bind lift];
    [|step; apply N; unfold lookup_server; rewrite Rc, Jl, Js, Hok, Sd, Ss;
      reflexivity].
  clear N. apply always_vis. intros answer.
  assert (L : lookup_server p = Some server).
  { unfold lookup_server. rewrite Rc, Jl, Js, Hok, Sd, Ss. reflexivity. }
  assert (G : forall t, process_calls t = [] ->
    two_step_block local_path
      (process_calls
         (Entry (SubprocessRun get_server_cmd) (Ok p)
          :: Entry (SubprocessRun (gofile_upload_cmd local_path server)) answer
          :: t))).
  { intros t Ht. right. exists p, server, answer. split; [exact L|].
    unfold process_calls in *. rewrite !project_cons, Ht. reflexivity. }
  destruct answer as [q|e]; cbn [bind lift]; [|step; apply G; reflexivity].
  destruct (negb (returncode q =? 0)%Z); cbn [bind];
    [step; apply G; reflexivity|].
  destruct (json_loads (stdout q)) as [ur|e]; cbn [bind lift];
    [|step; apply G; reflexivity].
  destruct (json_get ur "status") as [st'|e]; cbn [bind lift];
    [|step; apply G; reflexivity].
  destruct (match st' with Some x => eq_str x "ok" | None => false end);
    [|step; apply G; reflexivity].
  repeat (match goal with
          | |- always (bind (lift ?r) _) _ =>
              destruct r; cbn [bind lift]; [|step; apply G; reflexivity]
          end).
  eapply always_weaken; [apply fetch_and_verify_remote|]. cbv beta.
  intros t _ H. apply G. exact (remote_only_no_process_calls _ H).
Qed.

(** A loop followed by its final [raise] makes the calls of the loop. *)
Lemma loop_then_raise (p : prog flow) t (o : outcome unit) :
  exec (f <- p ;;
        match f with
        | Return => Ret tt
        | Continue => Raise RuntimeError
        end) t o ->
  exists o', exec p t o'.
Proof.
  intros H. apply exec_bind_inv in H.
  destruct H as [(e & H & _) | (x & t1 & t2 & H1 & H2 & ->)].
  - eauto.
  - destruct x; destruct H2 as [-> _]; rewrite app_nil_r; eauto.
Qed.

(** The local processes of a relay loop, block by block. *)
Lemma relay_loop_blocks max_retries (attempt_body : Z -> prog flow)
  (block : list (list string * result completed_process) -> Prop) t o :
  (forall i, always (attempt_body i) (fun ta _ => block (process_calls ta))) ->
  exec (for_range max_retries (retrying max_retries attempt_body)) t o ->
  relay_blocks block max_retries (process_calls t).
Proof.
  intros Ha E. apply retry_loop in E. destruct E as (j & Hj & Hle & Hz & _).
  destruct (retry_trace_project _ process_call block
              _ _ _ (fun _ _ => eq_refl)
              (attempts_always _ (fun ta => block (process_calls ta)) Ha)
              Hj) as (blocks & Hl & Hb & Hp).
  exists blocks. repeat split.
  - exact Hp.
  - exact Hb.
  - rewrite Hl. exact Hle.
  - intros Hm ->. cbn in Hl. specialize (Hz (eq_sym Hl)). lia.
Qed.

Lemma upload_via_curl_tiers local_path remote_path max_retries :
  always (upload_via_curl self local_path remote_path max_retries)
    (fun t _ =>
       getsize_calls t = [] \/
       (exists e, getsize_calls t = [Err e]) \/
       exists size,
         getsize_calls t = [Ok size] /\
         tier_calls local_path max_retries size t).
Proof.
  unfold upload_via_curl, os_path_exists, os_path_getsize.
  cbn [bind call lift]. apply always_vis. intros found.
  destruct found; cbn [negb]; [|step; left; reflexivity].
  apply always_vis. intros [size|e]; cbn [bind lift];
    [|step; right; left; exists e; reflexivity].
  assert (Pre : forall t,
    getsize_calls t = [] ->
    getsize_calls (Entry (PathExists local_path) true
                   :: Entry (GetSize local_path) (Ok size) :: t)
    = [Ok size] /\
    process_calls (Entry (PathExists local_path) true
                   :: Entry (GetSize local_path) (Ok size) :: t)
    = process_calls t).
  { intros t Ht. unfold getsize_calls, process_calls in *.
    rewrite !project_cons, Ht. split; reflexivity. }
  unfold tier_calls.
  destruct (Qltb (file_size_mb size) (inject_Z 25)) eqn:L25;
    [|destruct (Qltb (file_size_mb size) (inject_Z 2000)) eqn:L2000].
  - intros t o E. apply loop_then_raise in E. destruct E as (o' & E).
    pose proof (for_range_from_only relay_action _
                  (retrying_only relay_action max_retries _
                     (fun _ => eq_refl)
                     (fun i => transfer_sh_attempt_relay _ _ i))
                  _ _ _ _ E) as Hr.
    apply relay_no_getsize_calls in Hr. destruct (Pre _ Hr) as [G P].
    right. right. exists size. rewrite L25, P. split; [exact G|].
    exact (relay_loop_blocks _ _ _ _ _
             (fun i => transfer_sh_attempt_calls _ _ i) E).
  - intros t o E. apply loop_then_raise in E. destruct E as (o' & E).
    pose proof (for_range_from_only relay_action _
                  (retrying_only relay_action max_retries _
                     (fun _ => eq_refl)
                     (fun i => gofile_attempt_relay _ _ i))
                  _ _ _ _ E) as Hr.
    apply relay_no_getsize_calls in Hr. destruct (Pre _ Hr) as [G P].
    right. right. exists size. rewrite L25, L2000, P. split; [exact G|].
    exact (relay_loop_blocks _ _ _ _ _
             (fun i => gofile_attempt_calls _ _ i) E).
  - unfold manual_upload, input, fetch_and_verify, execute_remote_command.
    cbn [bind call lift].
    steps; right; right; exists size; rewrite L25, L2000; split; reflexivity.
Qed.

(** The commands of the large-file host are not uploads to the
    small-file host. *)
Lemma two_step_block_not_small local_path cs :
  two_step_block local_path cs ->
  Forall (fun c => ~ small_file_call local_path c) cs.
Proof.
  intros [(answer & _ & ->) | (p & server & answer & _ & ->)];
    repeat constructor; intros (hex & H); discriminate H.
Qed.

Lemma concat_Forall {X : Type} (P : X -> Prop) (blocks : list (list X)) :
  Forall (Forall P) blocks -> Forall P (List.concat blocks).
Proof.
  induction 1 as [|b bs Hb _ IH]; cbn [List.concat].
  - constructor.
  - apply Forall_app. split; assumption.
Qed.

(** In a world where the local file is there and its size can be read,
    the relay upload starts with these two calls. *)
Lemma upload_via_curl_starts (w : world) local_path remote_path max_retries
  size :
  w [] (PathExists local_path) = true ->
  w [Entry (PathExists local_path) true] (GetSize local_path) = Ok size ->
  exists rest,
    fst (run w [] (upload_via_curl self local_path remote_path max_retries))
    = Entry (PathExists local_path) true
      :: Entry (GetSize local_path) (Ok size) :: rest.
Proof.
  intros Hfound Hsize.
  unfold upload_via_curl, os_path_exists, os_path_getsize.
  cbn [bind call run]. rewrite Hfound. cbn [negb bind app run].
  rewrite Hsize.
  destruct (run w _ _) as [rest o]. cbn [fst]. eauto.
Qed.

(** C3: in a world where the local file is there and has [size] bytes,
    the size is read once, and the local processes of the relay upload
    come in one block per attempt (at most [max_retries], at least one
    when [max_retries >= 1]): under 25 MB each block is one upload to
    the small-file host; from 25 MB and under 2000 MB each block is a
    server lookup at the large-file host, followed by the upload to
    the server it named exactly when it named one, and no block holds
    an upload to the small-file host. *)
Theorem relay_tier_by_size (w : world) local_path remote_path max_retries
  size :
  w [] (PathExists local_path) = true ->
  w [Entry (PathExists local_path) true] (GetSize local_path) = Ok size ->
  let t := fst (run w [] (upload_via_curl self local_path remote_path
                            max_retries)) in
  getsize_calls t = [Ok size] /\
  ((file_size_mb size < 25)%Q ->
   relay_blocks (small_file_block local_path) max_retries (process_calls t)) /\
  ((25 <= file_size_mb size)%Q -> (file_size_mb size < 2000)%Q ->
   relay_blocks (two_step_block local_path) max_retries (process_calls t) /\
   Forall (fun c => ~ small_file_call local_path c) (process_calls t)).
Proof.
  intros Hfound Hsize t.
  pose proof (run_exec w (upload_via_curl self local_path remote_path
                            max_retries) []) as E.
  fold t in E. apply upload_via_curl_tiers in E.
  destruct (upload_via_curl_starts w local_path remote_path max_retries size
              Hfound Hsize) as (rest & S).
  fold t in S.
  assert (G : getsize_calls t = (Ok size :: getsize_calls rest)%list).
  { rewrite S. reflexivity. }
  destruct E as [E | [(e & E) | (size' & E & T)]];
    rewrite G in E; try discriminate E.
  injection E as <- E. rewrite G, E. split; [reflexivity|].
  unfold tier_calls in T. split.
  - intros H. apply Qltb_lt in H.
    change 25%Q with (inject_Z 25) in H. rewrite H in T. exact T.
  - intros H25 H2000. apply Qltb_lt in H2000.
    change 2000%Q with (inject_Z 2000) in H2000.
    destruct (Qltb (file_size_mb size) (inject_Z 25)) eqn:L25.
    + exfalso. apply Qltb_lt in L25.
      apply (Qlt_irrefl (file_size_mb size)).
      eapply Qlt_le_trans; eassumption.
    + rewrite H2000 in T. split; [exact T|].
      destruct T as (blocks & -> & Hb & _).
      apply concat_Forall. eapply Forall_impl; [|exact Hb].
      intros cs. apply two_step_block_not_small.
Qed.

End Retries.

Example schedule_of_three :
  schedule 3 = [Attempt; Delay 5; Attempt; Delay 10; Attempt].
Proof. reflexivity. Qed.

Example download_retries_three_times :
  let r := run (remote_world "exists") []
             (download_file gpu "/remote/out.mp4" "/tmp/out.mp4" 3) in
  marks (fst r) = schedule 3 /\ snd r = Raised RuntimeError.
Proof. vm_compute. split; reflexivity. Qed.

Lemma ensure_ssh_access_idempotent_witness :
  fst (run quiet_world [] (_ensure_ssh_access gpu)) = [Entry IsConnected true]
  /\ snd (run quiet_world [] (_ensure_ssh_access gpu)) = Returned tt.
Proof.
  apply (ensure_ssh_access_idempotent gpu).
  - apply run_exec.
  - reflexivity.
Defined.

Lemma download_file_absent_raises_witness :
  let r := run quiet_world []
             (download_file gpu "/remote/out.mp4" "/tmp/out.mp4" 3) in
  snd r = Raised FileNotFoundError /\ process_calls (fst r) = [].
Proof.
  apply (download_file_absent_raises gpu "/remote/out.mp4" "/tmp/out.mp4" 3
           _ _ "").
  - apply run_exec.
  - vm_compute. left. reflexivity.
  - reflexivity.
Defined.

Lemma listing_failure_empty_or_raise_witness :
  snd (run (remote_world "Error: connection lost") []
         (list_remote_files gpu "/remote/out"))
  = Returned [] /\
  snd (run (remote_world "Error: connection lost") []
         (download_directory gpu "/remote/out" "/tmp/out" 3))
  = Raised FileNotFoundError.
Proof.
  destruct (listing_failure_empty_or_raise gpu "/remote/out" "/tmp/out" 3
              "Error: connection lost" (or_introl eq_refl)) as [L D].
  split.
  - apply (L (fst (run (remote_world "Error: connection lost") []
                     (list_remote_files gpu "/remote/out")))).
    + apply run_exec.
    + reflexivity.
  - apply (D (fst (run (remote_world "Error: connection lost") []
                     (download_directory gpu "/remote/out" "/tmp/out" 3)))).
    + apply run_exec.
    + reflexivity.
Defined.

Lemma manual_upload_for_very_large_files_witness :
  let r := run huge_file_world []
             (upload_via_curl gpu "/data/film.mov" "/remote/film.mov" 3) in
  snd r = Raised RuntimeError /\ remote_calls (fst r) = [].
Proof.
  assert (G : getsize_calls
                (fst (run huge_file_world []
                        (upload_via_curl gpu "/data/film.mov"
                           "/remote/film.mov" 3)))
              = [Ok 3145728000]) by (vm_compute; reflexivity).
  assert (S : (2000 <= file_size_mb 3145728000)%Q)
    by (vm_compute; discriminate).
  destruct (manual_upload_for_very_large_files gpu
              "/data/film.mov" "/remote/film.mov" 3 _ _ 3145728000
              (run_exec huge_file_world
                 (upload_via_curl gpu "/data/film.mov" "/remote/film.mov" 3)
                 []) G S) as [H _].
  apply H. vm_compute. reflexivity.
Defined.

Lemma upload_directory_removes_archive_witness :
  archive_removed "/tmp/tmpabc.tar.gz"
    (fst (run quiet_world []
            (upload_directory gpu "/data/frames" "/remote/frames" 1))).
Proof.
  apply (upload_directory_removes_archive gpu
           "/data/frames" "/remote/frames" 1 _
           (snd (run quiet_world []
                   (upload_directory gpu "/data/frames" "/remote/frames" 1)))).
  - apply run_exec.
  - reflexivity.
  - vm_compute. repeat constructor.
Defined.

Lemma relay_tier_by_size_witness :
  (let t := fst (run quiet_world []
                   (upload_via_curl gpu "/data/clip.mp4" "/remote/clip.mp4"
                      2)) in
   getsize_calls t = [Ok 1024%Z] /\
   ((file_size_mb 1024 < 25)%Q ->
    relay_blocks (small_file_block "/data/clip.mp4") 2 (process_calls t)) /\
   ((25 <= file_size_mb 1024)%Q -> (file_size_mb 1024 < 2000)%Q ->
    relay_blocks (two_step_block "/data/clip.mp4") 2 (process_calls t) /\
    Forall (fun c => ~ small_file_call "/data/clip.mp4" c)
      (process_calls t))) /\
  (let t := fst (run large_file_world []
                   (upload_via_curl gpu "/data/clip.mp4" "/remote/clip.mp4"
                      2)) in
   getsize_calls t = [Ok 524288000%Z] /\
   ((file_size_mb 524288000 < 25)%Q ->
    relay_blocks (small_file_block "/data/clip.mp4") 2 (process_calls t)) /\
   ((25 <= file_size_mb 524288000)%Q -> (file_size_mb 524288000 < 2000)%Q ->
    relay_blocks (two_step_block "/data/clip.mp4") 2 (process_calls t) /\
    Forall (fun c => ~ small_file_call "/data/clip.mp4" c)
      (process_calls t))).
Proof.
  split.
  - apply (relay_tier_by_size gpu quiet_world "/data/clip.mp4"
             "/remote/clip.mp4" 2 1024); reflexivity.
  - apply (relay_tier_by_size gpu large_file_world "/data/clip.mp4"
             "/remote/clip.mp4" 2 524288000); reflexivity.
Defined.

Example one_kilobyte_goes_to_the_small_file_host :
  let r := run quiet_world []
             (upload_via_curl gpu "/data/clip.mp4" "/remote/clip.mp4" 2) in
  (file_size_mb 1024 < 25)%Q /\
  map fst (process_calls (fst r))
  = [transfer_sh_cmd "/data/clip.mp4" "0123abcd_clip.mp4";
     transfer_sh_cmd "/data/clip.mp4" "0123abcd_clip.mp4"] /\
  snd r = Raised RuntimeError.
Proof. vm_compute. repeat split. Qed.

Example five_hundred_megabytes_take_two_steps :
  let r := run large_file_world []
             (upload_via_curl gpu "/data/clip.mp4" "/remote/clip.mp4" 2) in
  (25 <= file_size_mb 524288000)%Q /\
  (file_size_mb 524288000 < 2000)%Q /\
  map fst (process_calls (fst r))
  = [get_server_cmd; gofile_upload_cmd "/data/clip.mp4" (JStr "store1")] /\
  remote_calls (fst r)
  = [(download_cmd "https://store1.gofile.io/download/k3/clip.mp4"
        "/remote/clip.mp4", Some 600%Z, Ok "success exists");
     ("test -s '/remote/clip.mp4' && echo 'exists'", None,
      Ok "success exists")] /\
  snd r = Returned tt.
Proof. vm_compute. repeat split; discriminate. Qed.

Lemma backoff_schedule_witness :
  exists n, (n <= 3)%nat /\
    marks (fst (run (remote_world "exists") []
                  (download_file gpu "/remote/out.mp4" "/tmp/out.mp4" 3)))
    = schedule n.
Proof.
  apply (proj1 (proj2 (backoff_schedule gpu "/tmp/out.mp4" "/remote/out.mp4" 3))
           _ (snd (run (remote_world "exists") []
                     (download_file gpu "/remote/out.mp4" "/tmp/out.mp4" 3)))).
  apply run_exec.
Defined.

(** ** More on the instance locator *)

Section LocatorEdges.

Import PyStr.

(** A record with none of the seven fields the locator reads resolves
    to not-found; nothing is raised. *)
Theorem record_without_address_fields (instance : dict) :
  (forall k,
      In k ["sshCommand"; "ip"; "ipAddress"; "ssh"; "network"; "status";
            "instance"] ->
      dict_get instance k = None) ->
  resolve_endpoint instance = Ok None.
Proof.
  intros H. unfold resolve_endpoint, field_chain, dict_field.
  rewrite !truthy_field_get.
  rewrite (H "sshCommand"), (H "ip"), (H "ipAddress"), (H "ssh"),
    (H "network"), (H "status"), (H "instance");
    cbn [In]; auto 10.
Qed.

Lemma record_without_address_fields_witness :
  resolve_endpoint [("id", JStr "gpu-1"); ("gpuModel", JStr "H100")] = Ok None.
Proof.
  apply record_without_address_fields.
  intros k Hk. cbn [In] in Hk.
  repeat (destruct Hk as [<- | Hk]; [reflexivity|]). destruct Hk.
Defined.

(** An [sshCommand] that is true but not a string makes [re.search]
    raise: the resolution ends with [TypeError], whatever the other
    fields hold. *)
Theorem non_string_ssh_command_raises (instance : dict) (v : json) :
  dict_get instance "sshCommand" = Some v ->
  truthy v = true ->
  (forall s, v <> JStr s) ->
  resolve_endpoint instance = Err TypeError.
Proof.
  intros Hget Ht Hs. unfold resolve_endpoint.
  rewrite truthy_field_get, Hget, Ht.
  destruct v; try reflexivity. elim (Hs s). reflexivity.
Qed.

Lemma non_string_ssh_command_raises_witness :
  resolve_endpoint
    [("id", JStr "gpu-1"); ("sshCommand", JArr [JStr "ssh"; JStr "u@h"]);
     ("ip", JStr "10.0.0.5")]
  = Err TypeError.
Proof.
  apply (non_string_ssh_command_raises _ (JArr [JStr "ssh"; JStr "u@h"])).
  - reflexivity.
  - reflexivity.
  - intros s. discriminate.
Defined.

Lemma search_host_wellformed s h :
  search_host s = Some h -> h <> "" /\ forallb_str host_char h = true.
Proof.
  induction s as [|c r IH]; cbn [search_host]; [discriminate|].
  destruct (Ascii.eqb c "@"); [|exact IH].
  destruct (take_while host_char r) as [|x g] eqn:E; [exact IH|].
  intros H. injection H as <-. split; [discriminate|].
  rewrite <- E. apply take_while_all.
Qed.

Lemma search_port_digits s g :
  search_port s = Some g -> g <> "" /\ forallb_str isdigit g = true.
Proof.
  induction s as [|c r IH].
  - cbn. discriminate.
  - cbn [search_port].
    destruct (match_port_here (String c r)) as [d|] eqn:E; [|exact IH].
    intros H. injection H as <-. revert E. unfold match_port_here.
    destruct c as [[] [] [] [] [] [] [] []]; try discriminate.
    destruct r as [|c' r']; [discriminate|].
    destruct c' as [[] [] [] [] [] [] [] []]; try discriminate.
    destruct (is_empty (take_while isspace r')); [discriminate|].
    destruct (take_while isdigit (drop_while isspace r')) as [|x g] eqn:T;
      [discriminate|].
    intros H. injection H as <-. split; [discriminate|].
    rewrite <- T. apply take_while_all.
Qed.

Lemma parse_digits_nonneg s : forall acc n b v m,
  (0 <= acc)%Z -> parse_digits s acc n b = Some (v, m) -> (0 <= v)%Z.
Proof.
  induction s as [|c r IH]; intros acc n b v m Hacc; cbn [parse_digits].
  - destruct b; [|discriminate]. intros H. injection H as <- _. exact Hacc.
  - destruct (isdigit c) eqn:D.
    + apply IH. unfold isdigit in D. apply andb_true_iff in D.
      destruct D as [D _]. apply N.leb_le in D.
      unfold digit_value. lia.
    + destruct (Ascii.eqb c "_" && b); [apply IH; exact Hacc | discriminate].
Qed.

Lemma rev_str_all p s : forall acc,
  forallb_str p acc = true -> forallb_str p s = true ->
  forallb_str p (rev_str acc s) = true.
Proof.
  induction s as [|c r IH]; intros acc Ha Hs; cbn [rev_str]; [exact Ha|].
  cbn [forallb_str] in Hs. apply andb_true_iff in Hs. destruct Hs as [Hc Hr].
  apply IH; [|exact Hr]. cbn [forallb_str]. rewrite Hc. exact Ha.
Qed.

Lemma drop_while_none p q s :
  (forall c, q c = true -> p c = false) ->
  forallb_str q s = true -> drop_while p s = s.
Proof.
  intros H. destruct s as [|c r]; cbn; [reflexivity|].
  intros Hs. apply andb_true_iff in Hs. destruct Hs as [Hc _].
  rewrite (H c Hc). reflexivity.
Qed.

(** [int] of a string of digits is never negative. *)
Lemma int_of_digits_nonneg g v :
  forallb_str isdigit g = true -> int_of_str g = Some v -> (0 <= v)%Z.
Proof.
  intros Hg. unfold int_of_str, strip, lstrip, rstrip.
  rewrite (drop_while_none isspace isdigit g digit_not_space Hg).
  rewrite (drop_while_none isspace isdigit (rev_str "" g) digit_not_space)
    by (apply rev_str_all; [reflexivity | exact Hg]).
  assert (Hr : forallb_str isdigit (rev_str "" (rev_str "" g)) = true)
    by (apply rev_str_all; [reflexivity|];
        apply rev_str_all; [reflexivity | exact Hg]).
  destruct (rev_str "" (rev_str "" g)) as [|c r]; unfold parse_unsigned.
  - cbn. discriminate.
  - assert (P : forall w,
        match parse_digits (String c r) 0 0%nat false with
        | Some (v0, n) =>
            if (int_max_str_digits <? n)%nat then None else Some v0
        | None => None
        end = Some w -> (0 <= w)%Z).
    { intros w.
      destruct (parse_digits (String c r) 0 0%nat false) as [[v0 n]|] eqn:E;
        [|discriminate].
      destruct (int_max_str_digits <? n)%nat; [discriminate|].
      intros H. injection H as <-.
      exact (parse_digits_nonneg _ _ _ _ _ _ (Z.le_refl 0) E). }
    cbn [forallb_str] in Hr. apply andb_true_iff in Hr. destruct Hr as [Hc _].
    destruct c as [[] [] [] [] [] [] [] []]; try discriminate Hc; apply P.
Qed.

(** C8 as the specification words it fails: the port fragment [80abc]
    is malformed, not a number ([int] rejects it), and the resolution
    does not keep port 22: the pattern [-p\s+(\d+)] takes the leading
    digits, and the port is 80. *)
Lemma malformed_port_with_leading_digits :
  let command := "ssh ubuntu@10.1.2.3 -p 80abc" in
  let instance := [("id", JStr "gpu-1"); ("sshCommand", JStr command)] in
  PyStr.search_host command = Some "10.1.2.3" /\
  port_word command = Some "80abc" /\
  PyStr.int_of_str "80abc" = None /\
  resolve_endpoint instance = Ok (Some (JStr "10.1.2.3", 80%Z)) /\
  resolve_endpoint instance <> Ok (Some (JStr "10.1.2.3", 22%Z)).
Proof. vm_compute. repeat split. discriminate. Qed.

(** C8, as the code has it: a record whose [sshCommand] holds a
    [user@host] fragment resolves to that host and nothing is raised,
    whatever follows the host; the port is never negative, and it is 22
    when the command holds no [-p], white space and digit (no port
    fragment, or one that does not start with a digit). *)
Theorem malformed_port_keeps_default (instance : dict)
  (user host rest : string) :
  dict_get instance "sshCommand" = Some (JStr (user ++ "@" ++ host ++ rest)) ->
  host_fragment user host rest ->
  (exists port,
      resolve_endpoint instance = Ok (Some (JStr host, port)) /\
      (0 <= port)%Z) /\
  (~ numeric_port_fragment (user ++ "@" ++ host ++ rest) ->
   resolve_endpoint instance = Ok (Some (JStr host, 22))).
Proof.
  intros Hget Hhost. unfold resolve_endpoint.
  rewrite truthy_field_get, Hget.
  assert (T : truthy (JStr (user ++ "@" ++ host ++ rest)) = true).
  { destruct Hhost as (_ & Hne & _). simpl.
    destruct user; simpl; [|reflexivity]. reflexivity. }
  rewrite T. unfold parse_ssh_command.
  rewrite (search_host_fragment _ _ _ Hhost). split.
  - eexists. split; [reflexivity|].
    destruct (search_port (user ++ "@" ++ host ++ rest)) as [g|] eqn:Eg;
      [|unfold default_port; lia].
    destruct (search_port_digits _ _ Eg) as [_ Hd].
    destruct (int_of_str g) as [p|] eqn:Ep; [|unfold default_port; lia].
    exact (int_of_digits_nonneg _ _ Hd Ep).
  - intros Hport. rewrite (search_port_malformed _ Hport). reflexivity.
Qed.

Lemma malformed_port_keeps_default_witness :
  let instance :=
    [("id", JStr "gpu-1"); ("sshCommand", JStr "ssh ubuntu@10.1.2.3 -p abc")] in
  (exists port,
      resolve_endpoint instance = Ok (Some (JStr "10.1.2.3", port)) /\
      (0 <= port)%Z) /\
  resolve_endpoint instance = Ok (Some (JStr "10.1.2.3", 22%Z)).
Proof.
  destruct (malformed_port_keeps_default
              [("id", JStr "gpu-1");
               ("sshCommand", JStr "ssh ubuntu@10.1.2.3 -p abc")]
              "ssh ubuntu" "10.1.2.3" " -p abc") as [H1 H2].
  - reflexivity.
  - unfold host_fragment. repeat split.
    + discriminate.
    + right. exists " "%char, "-p abc". split; reflexivity.
  - split; [exact H1|]. apply H2.
    intros H. apply search_port_complete in H. apply H. reflexivity.
Defined.

(** An [sshCommand] string with a host fragment always resolves, to a
    host that is not empty and holds neither [:] nor white space, and
    to a port that is not negative. *)
Theorem ssh_command_endpoint_wellformed (instance : dict) (s : string) :
  dict_get instance "sshCommand" = Some (JStr s) ->
  search_host s <> None ->
  exists host port,
    resolve_endpoint instance = Ok (Some (JStr host, port)) /\
    host <> "" /\ forallb_str host_char host = true /\ (0 <= port)%Z.
Proof.
  intros Hget Hh. unfold resolve_endpoint.
  rewrite truthy_field_get, Hget.
  assert (T : truthy (JStr s) = true)
    by (destruct s; [elim Hh; reflexivity | reflexivity]).
  rewrite T. unfold parse_ssh_command.
  destruct (search_host s) as [h|] eqn:Eh; [|elim Hh; reflexivity].
  destruct (search_host_wellformed _ _ Eh) as [Hne Hall].
  eexists h, _. split; [reflexivity|]. repeat split; auto.
  destruct (search_port s) as [g|] eqn:Eg; [|unfold default_port; lia].
  destruct (search_port_digits _ _ Eg) as [_ Hd].
  destruct (int_of_str g) as [p|] eqn:Ep; [|unfold default_port; lia].
  exact (int_of_digits_nonneg _ _ Hd Ep).
Qed.

Lemma ssh_command_endpoint_wellformed_witness :
  exists host port,
    resolve_endpoint
      [("id", JStr "gpu-1"); ("sshCommand", JStr "ssh ubuntu@gpu7.example -p 0")]
    = Ok (Some (JStr host, port)) /\
    host <> "" /\ forallb_str host_char host = true /\ (0 <= port)%Z.
Proof.
  apply (ssh_command_endpoint_wellformed _ "ssh ubuntu@gpu7.example -p 0").
  - reflexivity.
  - discriminate.
Defined.

(** An infinite [ssh.port] is not among the conversion errors the code
    catches: once the search reaches the [ssh] object, [int] raises
    [OverflowError] and the resolution raises it too. *)
Theorem infinite_ssh_port_raises (instance ssh_info : dict) negative :
  truthy_field instance "sshCommand" = None ->
  truthy_field instance "ip" = None ->
  truthy_field instance "ipAddress" = None ->
  dict_get instance "ssh" = Some (JObj ssh_info) ->
  dict_get ssh_info "port" = Some (JFloat (FInf negative)) ->
  resolve_endpoint instance = Err OverflowError.
Proof.
  intros H1 H2 H3 H4 H5. unfold resolve_endpoint, field_chain, dict_field.
  rewrite H1, H2, H3, H4. unfold ssh_branch.
  rewrite (truthy_field_get ssh_info "port"), H5. reflexivity.
Qed.

Lemma infinite_ssh_port_raises_witness :
  resolve_endpoint
    [("id", JStr "gpu-1");
     ("ssh", JObj [("host", JStr "10.0.0.5"); ("port", JFloat (FInf false))])]
  = Err OverflowError.
Proof.
  apply (infinite_ssh_port_raises _
           [("host", JStr "10.0.0.5"); ("port", JFloat (FInf false))] false);
    reflexivity.
Defined.

(** The record the loop finds is an element of the list, carries the
    requested id, and no record before it does. *)
Theorem find_in_list_first_match (instance_id : string) (l : list json)
  (instance : dict) :
  find_in_list instance_id l = Ok (Some instance) ->
  exists before after,
    l = (before ++ JObj instance :: after)%list /\
    (exists v, dict_get instance "id" = Some v /\ eq_str v instance_id = true) /\
    Forall (fun x => exists r, x = JObj r /\
                               forall v, dict_get r "id" = Some v ->
                                         eq_str v instance_id = false) before.
Proof.
  induction l as [|x l IH]; cbn [find_in_list]; [discriminate|].
  destruct x as [| | | | |a|r]; try discriminate.
  destruct (dict_get r "id") as [v|] eqn:Ev.
  - destruct (eq_str v instance_id) eqn:Eq.
    + intros H. injection H as <-. exists [], l. repeat split; eauto.
    + intros H. destruct (IH H) as (b & a & -> & Hi & Hb).
      exists (JObj r :: b), a. repeat split; auto.
      constructor; [|exact Hb]. exists r. split; [reflexivity|].
      intros v' Hv'. congruence.
  - intros H. destruct (IH H) as (b & a & -> & Hi & Hb).
    exists (JObj r :: b), a. repeat split; auto.
    constructor; [|exact Hb]. exists r. split; [reflexivity|].
    intros v' Hv'. congruence.
Qed.

Lemma find_in_list_first_match_witness :
  exists before after,
    [JObj [("id", JStr "gpu-0")]; JObj [("id", JStr "gpu-1"); ("ip", JStr "a")];
     JObj [("id", JStr "gpu-1"); ("ip", JStr "b")]]
    = (before ++ JObj [("id", JStr "gpu-1"); ("ip", JStr "a")] :: after)%list /\
    (exists v, dict_get [("id", JStr "gpu-1"); ("ip", JStr "a")] "id" = Some v /\
               eq_str v "gpu-1" = true) /\
    Forall (fun x => exists r, x = JObj r /\
                               forall v, dict_get r "id" = Some v ->
                                         eq_str v "gpu-1" = false) before.
Proof.
  apply (find_in_list_first_match "gpu-1"). reflexivity.
Defined.

(** When no record of the [instances] list carries the requested id,
    the instance is not found and nothing is raised. *)
Theorem locate_unknown_instance (instance_id : string) (status : dict)
  (l : list json) :
  dict_get status "instances" = Some (JArr l) ->
  Forall (fun x => exists r, x = JObj r /\
                             forall v, dict_get r "id" = Some v ->
                                       eq_str v instance_id = false) l ->
  locate instance_id (JObj status) = Ok None.
Proof.
  intros Hget Hl. unfold locate, extract_instances. rewrite Hget.
  cbn [find_instance].
  assert (F : find_in_list instance_id l = Ok None).
  { clear Hget. induction Hl as [|x l (r & -> & Hr) _ IH]; cbn [find_in_list];
      [reflexivity|].
    destruct (dict_get r "id") as [v|]; [|exact IH].
    rewrite (Hr v eq_refl). exact IH. }
  rewrite F. reflexivity.
Qed.

Lemma locate_unknown_instance_witness :
  locate "gpu-9"
    (JObj [("instances",
            JArr [JObj [("id", JStr "gpu-0"); ("ip", JStr "10.0.0.4")];
                  JObj [("name", JStr "spare")]])])
  = Ok None.
Proof.
  apply (locate_unknown_instance "gpu-9" _
           [JObj [("id", JStr "gpu-0"); ("ip", JStr "10.0.0.4")];
            JObj [("name", JStr "spare")]]).
  - reflexivity.
  - repeat constructor.
    + eexists. split; [reflexivity|]. intros v H. injection H as <-.
      reflexivity.
    + eexists. split; [reflexivity|]. intros v H. discriminate H.
Defined.

End LocatorEdges.

(** ** More on the session *)

Section SessionEdges.

Context {lib : PyLib} (self : FileTransfer).

(** [_get_instance_ip] asks for the status, once, and does nothing
    else; text on which [json.loads] raises [JSONDecodeError] gives
    not-found, and any other exception of [json.loads] is raised. *)
Lemma get_instance_ip_one_call :
  always (_get_instance_ip self)
    (fun t o =>
       exists x, t = [Entry GetGpuStatus x] /\
                 (forall s e, x = Ok (StatusText s) -> json_loads s = Err e ->
                              o = if is_JSONDecodeError e
                                  then Returned None else Raised e)).
Proof.
  unfold _get_instance_ip, get_gpu_status. cbn [bind call lift].
  apply always_vis. intros x.
  destruct x as [[s|v]|e]; cbn [bind lift].
  - destruct (json_loads s) as [status|e] eqn:J;
      [|destruct (is_JSONDecodeError e) eqn:D];
      steps; eexists; (split; [reflexivity|]);
      intros s' e' E N; injection E as <-; rewrite J in N;
      try discriminate N; injection N as <-; rewrite D; reflexivity.
  - steps; eexists; (split; [reflexivity|]); intros s' e' E; discriminate E.
  - steps; eexists; (split; [reflexivity|]); intros s' e' E; discriminate E.
Qed.

(** Without a live session and without [SSH_PRIVATE_KEY_PATH] (unset
    or empty), [_ensure_ssh_access] raises [ValueError] at once: no
    status query, no handshake. *)
Theorem ensure_ssh_access_requires_key t o key :
  exec (_ensure_ssh_access self) t o ->
  hd_error (environ_calls t) = Some ("SSH_PRIVATE_KEY_PATH", key) ->
  key = None \/ key = Some "" ->
  t = [Entry IsConnected false; Entry (Environ "SSH_PRIVATE_KEY_PATH") key] /\
  o = Raised ValueError.
Proof.
  unfold _ensure_ssh_access, os_environ_get. cbn [bind call exec].
  intros (c & t1 & -> & H) He Hk.
  destruct c; [destruct H as [-> _]; discriminate He|].
  cbn [exec] in H. destruct H as (k & t2 & -> & H).
  cbn in He. injection He as <-.
  destruct Hk as [-> | ->]; destruct H as [-> ->]; auto.
Qed.

(** With a key path that names no file, [_ensure_ssh_access] raises
    [FileNotFoundError] before any status query or handshake. *)
Theorem ensure_ssh_access_requires_key_file t o path :
  exec (_ensure_ssh_access self) t o ->
  hd_error (exists_calls t) = Some (path, false) ->
  o = Raised FileNotFoundError /\ status_calls t = [] /\ connect_calls t = [].
Proof.
  unfold _ensure_ssh_access, os_environ_get, os_path_exists.
  cbn [bind call exec].
  intros (c & t1 & -> & H) He.
  destruct c; [destruct H as [-> _]; discriminate He|].
  cbn [exec] in H. destruct H as (k & t2 & -> & H). cbn [response] in k.
  destruct k as [[|a k]|]; cbn [exec] in H;
    try (destruct H as [-> _]; discriminate He).
  destruct H as (found & t3 & -> & H). cbn [response] in found.
  cbn in He. injection He as _ ->. cbn [negb exec] in H.
  destruct H as [-> ->]. repeat split.
Qed.

Lemma ensure_ssh_access_handshake_shape :
  always (_ensure_ssh_access self) handshake_protocol.
Proof.
  unfold _ensure_ssh_access, os_environ_get, os_path_exists, connect_ssh.
  cbn [bind call lift].
  apply always_vis. intros c.
  destruct c; [step; left; split; [reflexivity | intros _; reflexivity]|].
  apply always_vis. intros k.
  destruct k as [[|a k]|];
    try (apply always_raise; left; split; [reflexivity | discriminate]).
  apply always_vis. intros found.
  destruct found; cbn [negb];
    [|step; left; split; [reflexivity | discriminate]].
  apply always_vis. intros password.
  apply always_bind.
  eapply always_weaken; [apply get_instance_ip_one_call|]. cbv beta.
  intros t1 o1 (x & -> & _).
  destruct o1 as [[[ip_address port]|]|e];
    try (try step; left; split; [reflexivity | discriminate]).
  apply always_vis. intros first.
  destruct first as [first|e]; cbn [bind lift].
  - destruct (PyStr.contains "Successfully connected" first) eqn:C1;
      cbn [bind].
    + rewrite C1. step. right.
      exists ip_address, (expanduser (String a k)), port, password.
      left. exists first. repeat split. exact C1.
    + apply always_vis. intros second.
      destruct second as [second|e]; cbn [bind lift].
      * destruct (PyStr.contains "Successfully connected" second) eqn:C2;
          step; right;
          exists ip_address, (expanduser (String a k)), port, password;
          right; right; exists first, (Ok second);
          (repeat split; [exact C1|]);
          unfold connected_marker; rewrite C2; reflexivity.
      * step. right.
        exists ip_address, (expanduser (String a k)), port, password.
        right. right. exists first, (Err e). repeat split. exact C1.
  - step. right.
    exists ip_address, (expanduser (String a k)), port, password.
    right. left. exists e. split; reflexivity.
Qed.

(** The handshakes of [_ensure_ssh_access]: at most two, as [ubuntu]
    and then as [root] with the same host, key, port and passphrase,
    the second only when the answer to the first lacks the marker; the
    call returns when a handshake answers with the marker (or the
    session was live), and raises otherwise. *)
Theorem ensure_ssh_access_handshakes t o :
  exec (_ensure_ssh_access self) t o -> handshake_protocol t o.
Proof.
  apply ensure_ssh_access_handshake_shape.
Qed.

(** When the status report is text on which [json.loads] raises, no
    handshake is attempted: for [JSONDecodeError] the instance counts
    as not found and [_ensure_ssh_access] raises [RuntimeError]; any
    other exception of [json.loads] (the [ValueError] for an integer
    beyond the digit limit) is not caught and is raised as it is. *)
Theorem ensure_ssh_access_undecodable_status t o text e :
  exec (_ensure_ssh_access self) t o ->
  In (Ok (StatusText text)) (status_calls t) ->
  json_loads text = Err e ->
  o = Raised (if is_JSONDecodeError e then RuntimeError else e) /\
  connect_calls t = [].
Proof.
  intros E Hin Hj. revert t o E Hin.
  change (always (_ensure_ssh_access self)
            (fun t o => In (Ok (StatusText text)) (status_calls t) ->
                        o = Raised (if is_JSONDecodeError e
                                    then RuntimeError else e) /\
                        connect_calls t = [])).
  unfold _ensure_ssh_access, os_environ_get, os_path_exists, connect_ssh.
  cbn [bind call lift].
  apply always_vis. intros c.
  destruct c; [apply always_ret; intros []|].
  apply always_vis. intros k.
  destruct k as [[|a k]|]; try (apply always_raise; intros []).
  apply always_vis. intros found.
  destruct found; cbn [negb]; [|apply always_raise; intros []].
  apply always_vis. intros password.
  apply always_bind.
  eapply always_weaken; [apply get_instance_ip_one_call|]. cbv beta.
  intros t1 o1 (x & -> & Hx).
  assert (Ho : In (Ok (StatusText text))
                 (status_calls [Entry GetGpuStatus x]) ->
               o1 = if is_JSONDecodeError e
                    then Returned None else Raised e).
  { intros Hin. cbn in Hin. destruct Hin as [E|[]].
    exact (Hx _ _ E Hj). }
  destruct o1 as [[[ip_address port]|]|e'].
  - steps; intros Hin; exfalso; specialize (Ho Hin);
      destruct (is_JSONDecodeError e); discriminate Ho.
  - step. intros Hin. specialize (Ho Hin).
    destruct (is_JSONDecodeError e); [|discriminate Ho].
    split; reflexivity.
  - intros Hin. specialize (Ho Hin).
    destruct (is_JSONDecodeError e); [discriminate Ho|].
    injection Ho as ->. split; reflexivity.
Qed.

End SessionEdges.

(** A handler that was constructed carries the id it was given, and
    its construction either found a live session (and attempted no
    handshake) or ended with a handshake whose answer holds the
    marker. *)
Theorem init_returns_with_session {lib : PyLib} (given : string) t
  (handler : FileTransfer) :
  exec (__init__ given) t (Returned handler) ->
  instance_id handler = given /\
  ((project connected_call t = [true] /\ connect_calls t = []) \/
   (exists earlier host user key port password answer,
       connect_calls t
       = (earlier ++ [(host, user, key, port, password, Ok answer)])%list /\
       PyStr.contains connected_marker answer = true)).
Proof.
  unfold __init__. intros H. apply exec_bind_inv in H.
  destruct H as [(e & _ & D) | ([] & t1 & t2 & H1 & [-> D] & ->)];
    [discriminate D|].
  injection D as ->. split; [reflexivity|]. rewrite app_nil_r.
  apply (ensure_ssh_access_handshake_shape {| instance_id := given |}) in H1.
  destruct H1 as [[Hc Hr] | (host & key & port & password & H)].
  - left. split; [exact (Hr eq_refl) | exact Hc].
  - right. destruct H as [(answer & Hc & Hm & _) | [(e & _ & D) | H]].
    + exists [], host, "ubuntu", key, port, password, answer.
      split; [exact Hc | exact Hm].
    + discriminate D.
    + destruct H as (first & second & Hc & _ & Ho).
      destruct second as [answer|e]; [|discriminate Ho].
      destruct (PyStr.contains connected_marker answer) eqn:Hm;
        [|discriminate Ho].
      exists [(host, "ubuntu", key, port, password, Ok first)],
        host, "root", key, port, password, answer.
      split; [exact Hc | exact Hm].
Qed.

(** ** A transfer returns only when it is verified *)

Section Returns.

Context {lib : PyLib} (self : FileTransfer).

(** A turn of a retry loop that returns is an attempt that returned. *)
Lemma retrying_return max_retries (attempt_body : Z -> prog flow) i t :
  exec (retrying max_retries attempt_body i) t (Returned Return) ->
  exec (attempt_body i) t (Returned Return).
Proof.
  unfold retrying. intros H. apply exec_bind_inv in H.
  destruct H as [(e & _ & D) | (x & t1 & t2 & H1 & H2 & ->)];
    [discriminate D|].
  destruct x; cbv beta iota in H2.
  - apply exec_bind_inv in H2.
    destruct H2 as [(e & _ & D) | (u & t3 & t4 & _ & [_ D] & _)];
      discriminate D.
  - destruct H2 as [-> _]. rewrite app_nil_r.
    apply exec_try_except_inv in H1.
    destruct H1 as [(r & H1 & D) | [(e & _ & _ & D) | (e & ta & tb & _ & _ & [_ D] & _)]];
      try discriminate D.
    injection D as <-. exact H1.
Qed.

(** A loop that returns ends with an attempt that returned. *)
Lemma for_range_return max_retries (attempt_body : Z -> prog flow) n :
  forall i t,
    exec (for_range_from i n (retrying max_retries attempt_body)) t
         (Returned Return) ->
    exists before ta k,
      t = (before ++ ta)%list /\ exec (attempt_body k) ta (Returned Return).
Proof.
  induction n as [|n IH]; intros i t; cbn [for_range_from].
  - intros [_ D]. discriminate D.
  - intros H. apply exec_bind_inv in H.
    destruct H as [(e & _ & D) | (x & t1 & t2 & H1 & H2 & ->)];
      [discriminate D|].
    destruct x; cbv beta iota in H2.
    + destruct (IH _ _ H2) as (before & ta & k & -> & Ha).
      exists (t1 ++ before)%list, ta, k. rewrite app_assoc. auto.
    + destruct H2 as [-> _]. rewrite app_nil_r.
      exists [], t1, i. split; [reflexivity|].
      exact (retrying_return _ _ _ _ H1).
Qed.

Lemma loop_then_raise_return (p : prog flow) t :
  exec (f <- p ;;
        match f with
        | Return => Ret tt
        | Continue => Raise RuntimeError
        end) t (Returned tt) ->
  exec p t (Returned Return).
Proof.
  intros H. apply exec_bind_inv in H.
  destruct H as [(e & _ & D) | (x & t1 & t2 & H1 & H2 & ->)];
    [discriminate D|].
  destruct x; destruct H2 as [-> D]; [discriminate D|].
  rewrite app_nil_r. exact H1.
Qed.

(** The three endings hold of a trace as soon as they hold of its end. *)
Lemma fetched_and_verified_cons remote_path e t :
  ends_fetched_and_verified self remote_path t ->
  ends_fetched_and_verified self remote_path (e :: t).
Proof.
  intros (b & url & tm & f & v & -> & H). exists (e :: b), url, tm, f, v.
  split; [reflexivity | exact H].
Qed.

Lemma fetched_and_verified_app remote_path t1 t :
  ends_fetched_and_verified self remote_path t ->
  ends_fetched_and_verified self remote_path (t1 ++ t)%list.
Proof.
  intros H. induction t1 as [|e t1 IH]; [exact H|].
  apply fetched_and_verified_cons. exact IH.
Qed.

Lemma copied_and_verified_cons remote_path e t :
  ends_copied_and_verified self remote_path t ->
  ends_copied_and_verified self remote_path (e :: t).
Proof.
  intros (b & cmd & p & v & -> & H). exists (e :: b), cmd, p, v.
  split; [reflexivity | exact H].
Qed.

Lemma copied_and_verified_app remote_path t1 t :
  ends_copied_and_verified self remote_path t ->
  ends_copied_and_verified self remote_path (t1 ++ t)%list.
Proof.
  intros H. induction t1 as [|e t1 IH]; [exact H|].
  apply copied_and_verified_cons. exact IH.
Qed.

Lemma copied_and_found_cons local_path e t :
  ends_copied_and_found local_path t ->
  ends_copied_and_found local_path (e :: t).
Proof.
  intros (b & cmd & p & -> & H). exists (e :: b), cmd, p.
  split; [reflexivity | exact H].
Qed.

Lemma copied_and_found_app local_path t1 t :
  ends_copied_and_found local_path t ->
  ends_copied_and_found local_path (t1 ++ t)%list.
Proof.
  intros H. induction t1 as [|e t1 IH]; [exact H|].
  apply copied_and_found_cons. exact IH.
Qed.

Lemma fetch_and_verify_ends url remote_path timeout :
  always (fetch_and_verify self url remote_path timeout)
    (fun t o => o = Returned Return ->
                ends_fetched_and_verified self remote_path t).
Proof.
  unfold fetch_and_verify, execute_remote_command. cbn [bind call lift].
  apply always_vis. intros [fetched|e]; cbn [bind lift];
    [|step; discriminate].
  destruct (PyStr.contains "success" fetched) eqn:F; [|step; discriminate].
  apply always_vis. intros [verified|e]; cbn [bind lift];
    [|step; discriminate].
  destruct (PyStr.contains "exists" verified) eqn:V; step; [|discriminate].
  intros _. exists [], url, timeout, fetched, verified. auto.
Qed.

Lemma transfer_sh_attempt_ends local_path remote_path i :
  always (transfer_sh_attempt self local_path remote_path i)
    (fun t o => o = Returned Return ->
                ends_fetched_and_verified self remote_path t).
Proof.
  unfold transfer_sh_attempt, subprocess_run. cbn [bind call lift andb].
  apply always_vis. intros hex. apply always_vis.
  intros [p|e]; cbn [bind lift]; [|step; discriminate].
  destruct (negb (returncode p =? 0)%Z); cbn [bind]; [step; discriminate|].
  eapply always_weaken; [apply fetch_and_verify_ends|]. cbv beta.
  intros t o H D. do 2 apply fetched_and_verified_cons. auto.
Qed.

Lemma gofile_attempt_ends local_path remote_path i :
  always (gofile_attempt self local_path remote_path i)
    (fun t o => o = Returned Return ->
                ends_fetched_and_verified self remote_path t).
Proof.
  unfold gofile_attempt, subprocess_run, loads, status_is_ok.
  cbn [bind call lift andb].
  repeat (first
    [ eapply always_weaken; [apply fetch_and_verify_ends|]; cbv beta;
      intros ? ? ? ?; do 2 apply fetched_and_verified_cons; auto
    | step; cbv beta; cbn [bind call lift app negb] ]);
    try discriminate.
Qed.

Lemma scp_upload_attempt_ends info key local_path remote_path i :
  always (scp_upload_attempt self info key local_path remote_path i)
    (fun t o => o = Returned Return ->
                ends_copied_and_verified self remote_path t).
Proof.
  unfold scp_upload_attempt, subprocess_run, execute_remote_command.
  cbn [bind call lift andb scp_options app].
  apply always_vis. intros [p|e]; cbn [bind lift]; [|step; discriminate].
  destruct (returncode p =? 0)%Z eqn:Rc; [|step; discriminate].
  apply always_vis. intros [verified|e]; cbn [bind lift];
    [|step; discriminate].
  destruct (PyStr.contains "exists" verified) eqn:V; step; [|discriminate].
  intros _. eexists [], _, p, verified. split; [reflexivity|].
  split; [apply Z.eqb_eq; exact Rc | exact V].
Qed.

Lemma scp_download_attempt_ends info key remote_path local_path i :
  always (scp_download_attempt info key remote_path local_path i)
    (fun t o => o = Returned Return -> ends_copied_and_found local_path t).
Proof.
  unfold scp_download_attempt, subprocess_run, os_path_exists.
  cbn [bind call lift andb scp_options app].
  apply always_vis. intros [p|e]; cbn [bind lift]; [|step; discriminate].
  destruct (returncode p =? 0)%Z eqn:Rc; [|step; discriminate].
  apply always_vis. intros found.
  destruct found; step; [|discriminate].
  intros _. eexists [], _, p. split; [reflexivity|].
  apply Z.eqb_eq. exact Rc.
Qed.

(** A retry loop that returns ends as its last attempt does. *)
Lemma retry_returns_as_attempt max_retries attempt_body (P : trace -> Prop) :
  (forall t1 t, P t -> P (t1 ++ t)%list) ->
  (forall i, always (attempt_body i) (fun t o => o = Returned Return -> P t)) ->
  forall t,
    exec (f <- for_range max_retries (retrying max_retries attempt_body) ;;
          match f with
          | Return => Ret tt
          | Continue => Raise RuntimeError
          end) t (Returned tt) ->
    P t.
Proof.
  intros Happ Ha t H. apply loop_then_raise_return in H.
  apply for_range_return in H.
  destruct H as (before & ta & k & -> & E).
  apply Happ. exact (Ha k ta _ E eq_refl).
Qed.

Lemma upload_via_curl_ends local_path remote_path max_retries :
  always (upload_via_curl self local_path remote_path max_retries)
    (fun t o => o = Returned tt ->
                ends_fetched_and_verified self remote_path t).
Proof.
  unfold upload_via_curl, os_path_exists, os_path_getsize.
  cbn [bind call lift]. apply always_vis. intros found.
  destruct found; cbn [negb]; [|step; discriminate].
  apply always_vis. intros [size|e]; cbn [bind lift]; [|step; discriminate].
  destruct (Qltb (file_size_mb size) (inject_Z 25));
    [|destruct (Qltb (file_size_mb size) (inject_Z 2000))].
  - intros t o E ->. do 2 apply fetched_and_verified_cons.
    apply (retry_returns_as_attempt max_retries
             (transfer_sh_attempt self local_path remote_path));
      [apply fetched_and_verified_app
      | intros; apply transfer_sh_attempt_ends | exact E].
  - intros t o E ->. do 2 apply fetched_and_verified_cons.
    apply (retry_returns_as_attempt max_retries
             (gofile_attempt self local_path remote_path));
      [apply fetched_and_verified_app
      | intros; apply gofile_attempt_ends | exact E].
  - unfold manual_upload, input. cbn [bind call lift].
    apply always_vis. intros [url|e]; cbn [bind lift]; [|step; discriminate].
    destruct (PyStr.is_empty url); cbn [bind]; [step; discriminate|].
    apply always_bind. apply always_try_except.
    eapply always_weaken; [apply fetch_and_verify_ends|]. cbv beta.
    intros t1 o1 H1. destruct o1 as [[]|e].
    + step. discriminate.
    + step. intros _. rewrite app_nil_r.
      do 3 apply fetched_and_verified_cons. auto.
    + destruct (is_Exception e); [|discriminate].
      steps. discriminate.
Qed.

(** [upload_via_curl] returns only after the instance fetched the file
    (the answer holds [success]) and the check that the file is there
    and not empty answered [exists]; these are its last two calls. *)
Theorem upload_via_curl_returns_verified local_path remote_path max_retries t :
  exec (upload_via_curl self local_path remote_path max_retries) t
       (Returned tt) ->
  ends_fetched_and_verified self remote_path t.
Proof.
  intros E.
  exact (upload_via_curl_ends local_path remote_path max_retries t _ E
           eq_refl).
Qed.

(** [download_file] returns only after a copy that exited with status
    0 and the local file found; these are its last two calls. *)
Theorem download_file_returns_found remote_path local_path max_retries t :
  exec (download_file self remote_path local_path max_retries) t
       (Returned tt) ->
  ends_copied_and_found local_path t.
Proof.
  unfold download_file. intros H.
  repeat (apply exec_bind_inv in H;
          destruct H as [(e & _ & D) | (? & ? & ? & _ & H & ->)];
          [discriminate D|]; apply copied_and_found_app).
  match type of H with
  | exec (if ?b then _ else _) _ _ =>
      destruct b; [destruct H as [_ D]; discriminate D|]
  end.
  refine (retry_returns_as_attempt max_retries _
            (ends_copied_and_found local_path) _ _ _ H);
    [apply copied_and_found_app | intros; apply scp_download_attempt_ends].
Qed.

Lemma scp_upload_returns_verified local_path remote_path max_retries t :
  exec (scp_upload self local_path remote_path max_retries) t (Returned tt) ->
  ends_copied_and_verified self remote_path t.
Proof.
  unfold scp_upload. intros H.
  do 2 (apply exec_bind_inv in H;
          destruct H as [(e & _ & D) | (? & ? & ? & _ & H & ->)];
          [discriminate D|]; apply copied_and_verified_app).
  refine (retry_returns_as_attempt max_retries _
            (ends_copied_and_verified self remote_path) _ _ _ H);
    [apply copied_and_verified_app | intros; apply scp_upload_attempt_ends].
Qed.

(** [upload_file] returns only when the transfer is verified: by the
    relay (fetch and check of size) or, after the fallback, by the
    secure copy (exit status 0 and check of existence). *)
Theorem upload_file_returns_verified local_path remote_path max_retries t :
  exec (upload_file self local_path remote_path max_retries) t
       (Returned tt) ->
  ends_fetched_and_verified self remote_path t \/
  ends_copied_and_verified self remote_path t.
Proof.
  unfold upload_file. intros H. apply exec_bind_inv in H.
  destruct H as [(e & _ & D) | ([] & t0 & t' & _ & H & ->)];
    [discriminate D|].
  apply exec_bind_inv in H.
  destruct H as [(e & _ & D) | (f & t1 & t2 & H1 & H2 & ->)];
    [discriminate D|].
  destruct f; cbv beta iota in H2.
  - right. rewrite app_assoc. apply copied_and_verified_app.
    exact (scp_upload_returns_verified _ _ _ _ H2).
  - left. destruct H2 as [-> _]. rewrite app_nil_r.
    apply fetched_and_verified_app.
    apply exec_try_except_inv in H1.
    destruct H1 as [(r & H1 & _) | [(e & _ & _ & D) | (e & ta & tb & _ & _ & [_ D] & _)]];
      try discriminate D.
    apply exec_bind_inv in H1.
    destruct H1 as [(e & _ & D) | ([] & ta & tb & Ha & [-> _] & ->)];
      [discriminate D|].
    rewrite app_nil_r.
    exact (upload_via_curl_ends _ _ _ _ _ Ha eq_refl).
Qed.

End Returns.

(** ** The secure-copy fallback of [upload_file] *)

Section Fallback.

Context {lib : PyLib} (self : FileTransfer).

(** Each attempt of the fallback starts one process: the secure copy. *)
Lemma scp_upload_attempt_copy info key local_path remote_path i :
  always (scp_upload_attempt self info key local_path remote_path i)
    (fun t _ =>
       exists answer,
         process_calls t
         = [(scp_upload_cmd info key local_path remote_path, answer)]).
Proof.
  unfold scp_upload_attempt, subprocess_run, execute_remote_command.
  cbn [bind call lift andb]. apply always_vis. intros answer.
  assert (G : forall t, process_calls t = [] ->
    exists a,
      process_calls
        (Entry (SubprocessRun
                  (scp_upload_cmd info key local_path remote_path)) answer
         :: t)
      = [(scp_upload_cmd info key local_path remote_path, a)]).
  { intros t Ht. exists answer. unfold process_calls in *.
    rewrite project_cons, Ht. reflexivity. }
  destruct answer as [p|e]; cbn [bind lift]; [|step; apply G; reflexivity].
  destruct (returncode p =? 0)%Z; [|step; apply G; reflexivity].
  apply always_vis. intros [v|e]; cbn [bind lift];
    [|step; apply G; reflexivity].
  destruct (PyStr.contains "exists" v); step; apply G; reflexivity.
Qed.

Lemma copies_of_blocks (cmd : list string)
  (blocks : list (list (list string * result completed_process))) :
  Forall (fun cs => exists answer, cs = [(cmd, answer)]) blocks ->
  map fst (List.concat blocks) = repeat cmd (List.length blocks).
Proof.
  induction 1 as [|b bs (a & ->) _ IH]; cbn; [reflexivity|].
  rewrite IH. reflexivity.
Qed.

(** The loop of the fallback and its final [raise]: [n] attempts on the
    schedule, one secure copy each, always the same command. *)
Lemma scp_loop_shape info key local_path remote_path max_retries t o :
  exec (f <- for_range max_retries
               (retrying max_retries
                  (scp_upload_attempt self info key local_path remote_path)) ;;
        match f with
        | Return => Ret tt
        | Continue => Raise RuntimeError
        end) t o ->
  exists n,
    (n <= Z.to_nat max_retries)%nat /\
    marks t = schedule n /\
    map fst (process_calls t)
    = repeat (scp_upload_cmd info key local_path remote_path) n /\
    retry_outcome (Z.to_nat max_retries) n o /\
    (o = Returned tt -> ends_copied_and_verified self remote_path t).
Proof.
  intros H.
  assert (V : o = Returned tt ->
              ends_copied_and_verified self remote_path t).
  { intros ->. revert t H. apply retry_returns_as_attempt;
      [apply copied_and_verified_app
      | intros; apply scp_upload_attempt_ends]. }
  assert (S : forall t' o',
    exec (for_range max_retries
            (retrying max_retries
               (scp_upload_attempt self info key local_path remote_path)))
         t' o' ->
    exists j,
      (j <= Z.to_nat max_retries)%nat /\
      marks t' = schedule j /\
      map fst (process_calls t')
      = repeat (scp_upload_cmd info key local_path remote_path) j /\
      match o' with
      | Returned Continue => j = Z.to_nat max_retries
      | Returned Return => (1 <= j)%nat
      | Raised e => is_Exception e = false /\ (1 <= j)%nat
      end).
  { intros t' o' E. apply retry_loop in E.
    destruct E as (j & Hj & Hle & _ & Ho). exists j.
    split; [exact Hle|]. split; [|split; [|exact Ho]].
    - rewrite (retry_trace_marks _ _ _ _
                 (attempts_always _ _
                    (fun i => scp_upload_attempt_marks self info key
                                local_path remote_path i))
                 (le_n 1) Hj).
      destruct j; reflexivity.
    - destruct (retry_trace_project _ process_call
                  (fun cs => exists answer,
                       cs = [(scp_upload_cmd info key local_path remote_path,
                              answer)])
                  _ _ _ (fun _ _ => eq_refl)
                  (attempts_always _ _
                     (fun i => scp_upload_attempt_copy info key local_path
                                 remote_path i))
                  Hj) as (blocks & Hl & Hb & Hp).
      unfold process_calls. rewrite Hp, <- Hl.
      apply copies_of_blocks. exact Hb. }
  apply exec_bind_inv in H.
  destruct H as [(e & E & ->) | (x & t1 & t2 & E & H2 & ->)].
  - destruct (S _ _ E) as (j & Hle & Hm & Hp & Ho). exists j.
    repeat split; auto. right. exact Ho.
  - destruct (S _ _ E) as (j & Hle & Hm & Hp & Ho).
    destruct x; destruct H2 as [-> ->]; rewrite app_nil_r in *;
      exists j; repeat split; auto.
    left. split; [reflexivity | exact Ho].
Qed.

(** C2: when the relay upload of [upload_file] raises an exception,
    the call goes on as the secure-copy fallback.  The fallback first
    reads the connection data and the key; when that raises, the call
    raises the same and no process was started.  Otherwise the loop
    runs with the same [max_retries]: [n <= max_retries] attempts on
    the schedule, each starting the secure copy once, with the same
    command; the call returns after an attempt whose copy exited with
    status 0 and was verified, and once all [max_retries] attempts are
    used up it raises [RuntimeError]. *)
Theorem upload_file_falls_back_with_full_budget (w : world)
  local_path remote_path max_retries t0 t1 e :
  run w [] (upload_setup self local_path remote_path) = (t0, Returned tt) ->
  run w t0 (upload_via_curl self local_path remote_path max_retries)
  = (t1, Raised e) ->
  is_Exception e = true ->
  let (t2, o) :=
    run w (t0 ++ t1)%list
      (scp_upload self local_path remote_path max_retries) in
  run w [] (upload_file self local_path remote_path max_retries)
  = ((t0 ++ t1 ++ t2)%list, o) /\
  match run w (t0 ++ t1)%list (scp_connection self) with
  | (tc, Raised e') => t2 = tc /\ o = Raised e' /\ process_calls t2 = []
  | (tc, Returned (info, key)) =>
      exists t_loop n,
        t2 = (tc ++ t_loop)%list /\
        process_calls tc = [] /\
        (n <= Z.to_nat max_retries)%nat /\
        marks t_loop = schedule n /\
        map fst (process_calls t_loop)
        = repeat (scp_upload_cmd info key local_path remote_path) n /\
        retry_outcome (Z.to_nat max_retries) n o /\
        (o = Returned tt ->
         ends_copied_and_verified self remote_path t_loop)
  end.
Proof.
  intros Hsetup Hrelay He.
  destruct (run w (t0 ++ t1)%list
              (scp_upload self local_path remote_path max_retries))
    as [t2 o] eqn:R.
  split.
  { unfold upload_file.
    rewrite run_bind, Hsetup. cbn [app].
    rewrite run_bind, run_try_except, run_bind, Hrelay, He.
    cbn [run]. rewrite !app_nil_r, R. reflexivity. }
  unfold scp_upload in R. unfold scp_connection.
  rewrite run_bind in R. rewrite run_bind.
  pose proof (get_ssh_info_session self _ _
                (run_exec w (_get_ssh_info self) (t0 ++ t1)%list)) as Sa.
  apply session_no_process_calls in Sa.
  destruct (run w (t0 ++ t1)%list (_get_ssh_info self)) as [ta oa].
  cbn [fst] in Sa.
  destruct oa as [info|e'];
    [|injection R as <- <-; repeat split; exact Sa].
  rewrite run_bind in R. rewrite run_bind.
  pose proof (ssh_key_from_environ_session _ _
                (run_exec w ssh_key_from_environ
                   ((t0 ++ t1) ++ ta)%list)) as Sb.
  apply session_no_process_calls in Sb.
  destruct (run w ((t0 ++ t1) ++ ta)%list ssh_key_from_environ) as [tb ob].
  cbn [fst] in Sb.
  assert (Sab : process_calls (ta ++ tb)%list = []).
  { unfold process_calls in *. rewrite project_app, Sa, Sb. reflexivity. }
  destruct ob as [key|e'];
    [|injection R as <- <-; repeat split; exact Sab].
  cbn [run]. rewrite !app_nil_r.
  match type of R with
  | (let (_, _) := let (_, _) := run ?w' ?h' ?p' in _ in _) = _ =>
      pose proof (run_exec w' p' h') as E;
      destruct (run w' h' p') as [tl ol]
  end.
  cbn [fst snd] in E. injection R as <- <-.
  destruct (scp_loop_shape _ _ _ _ _ _ _ E) as (n & Hle & Hm & Hp & Ho & Hv).
  exists tl, n. rewrite app_assoc. repeat split; auto.
Qed.

End Fallback.

(** ** Checks, budgets and bounds of the transfers *)

Section Bounds.

Context {lib : PyLib} (self : FileTransfer).

(** The local checks come first: a missing local file, or a local path
    that is no directory, ends the call with its error and without any
    other call. *)
Theorem local_checks_come_first local_path remote_path max_retries :
  (forall t o rest,
      exec (upload_file self local_path remote_path max_retries) t o ->
      t = Entry (PathExists local_path) false :: rest ->
      rest = [] /\ o = Raised FileNotFoundError) /\
  (forall t o rest,
      exec (upload_via_curl self local_path remote_path max_retries) t o ->
      t = Entry (PathExists local_path) false :: rest ->
      rest = [] /\ o = Raised FileNotFoundError) /\
  (forall t o rest,
      exec (upload_directory self local_path remote_path max_retries) t o ->
      t = Entry (PathIsDir local_path) false :: rest ->
      rest = [] /\ o = Raised NotADirectoryError).
Proof.
  assert (X : forall x rest rest',
    Entry (PathExists local_path) x :: rest'
    = Entry (PathExists local_path) false :: rest ->
    x = false /\ rest' = rest).
  { intros x rest rest' E. split.
    - apply (f_equal (fun l => match exists_calls l with
                               | (_, b) :: _ => b
                               | [] => true
                               end)) in E. exact E.
    - apply (f_equal (@tl entry)) in E. exact E. }
  assert (D : forall x rest rest',
    Entry (PathIsDir local_path) x :: rest'
    = Entry (PathIsDir local_path) false :: rest ->
    x = false /\ rest' = rest).
  { intros x rest rest' E. split.
    - apply (f_equal (fun l => match l with
                               | Entry (PathIsDir _) b :: _ => b
                               | _ => true
                               end)) in E. exact E.
    - apply (f_equal (@tl entry)) in E. exact E. }
  split; [|split]; intros t o rest H E.
  - unfold upload_file, upload_setup, os_path_exists in H.
    cbn [bind call exec] in H. destruct H as (x & t' & -> & H).
    apply X in E. destruct E as [-> <-]. cbn [negb bind exec] in H.
    destruct H as [-> ->]. auto.
  - unfold upload_via_curl, os_path_exists in H.
    cbn [bind call exec] in H. destruct H as (x & t' & -> & H).
    apply X in E. destruct E as [-> <-]. cbn [negb bind exec] in H.
    destruct H as [-> ->]. auto.
  - unfold upload_directory, os_path_isdir in H.
    cbn [bind call exec] in H. destruct H as (x & t' & -> & H).
    apply D in E. destruct E as [-> <-]. cbn [negb bind exec] in H.
    destruct H as [-> ->]. auto.
Qed.

Lemma before_copy_no_process_calls t :
  only before_copy t -> process_calls t = [].
Proof.
  apply only_project_nil. intros [] x H; try discriminate H; reflexivity.
Qed.

Lemma before_copy_no_marks t : only before_copy t -> marks t = [].
Proof.
  apply only_marks_nil. intros [] x H; try discriminate H; reflexivity.
Qed.

Lemma only_weaken (S S' : action -> bool) t :
  (forall a, S a = true -> S' a = true) -> only S t -> only S' t.
Proof.
  intros H. unfold only. apply Forall_impl. intros [a x]. apply H.
Qed.

Lemma session_before_copy t : only session_action t -> only before_copy t.
Proof.
  apply only_weaken. intros []; cbn; congruence.
Qed.

(** [download_file] is a preparation that may raise, followed by the
    loop. *)
Lemma download_file_structure remote_path local_path max_retries :
  always (download_file self remote_path local_path max_retries)
    (fun t o =>
       exists t0, only before_copy t0 /\
         ((t = t0 /\ exists e, o = Raised e) \/
          exists info key t1,
            t = (t0 ++ t1)%list /\
            exec (f <- for_range max_retries
                         (retrying max_retries
                            (scp_download_attempt info key remote_path
                               local_path)) ;;
                  match f with
                  | Return => Ret tt
                  | Continue => Raise RuntimeError
                  end) t1 o)).
Proof.
  unfold download_file, execute_remote_command.
  apply always_bind.
  eapply always_weaken; [apply ensure_ssh_access_session|]. cbv beta.
  intros t1 o1 H1. apply session_before_copy in H1.
  destruct o1 as [[]|e]; [|exists t1; split; [exact H1 | left; eauto]].
  apply always_bind.
  eapply always_weaken; [apply os_makedirs_session|]. cbv beta.
  intros t2 o2 H2. apply session_before_copy in H2.
  destruct o2 as [[]|e];
    [|exists (t1 ++ t2)%list; split; [auto with trace | left; eauto]].
  apply always_bind.
  eapply always_weaken; [apply get_ssh_info_session|]. cbv beta.
  intros t3 o3 H3. apply session_before_copy in H3.
  destruct o3 as [info|e];
    [|exists (t1 ++ t2 ++ t3)%list; split; [auto with trace | left; eauto]].
  apply always_bind.
  eapply always_weaken; [apply ssh_key_from_environ_session|]. cbv beta.
  intros t4 o4 H4. apply session_before_copy in H4.
  destruct o4 as [key|e];
    [|exists (t1 ++ t2 ++ t3 ++ t4)%list;
      split; [auto 10 with trace | left; eauto]].
  cbn [bind call lift]. apply always_vis. intros [s|e]; cbn [bind lift].
  - destruct (PyStr.contains "exists" s); cbn [negb].
    + intros t o E.
      exists (t1 ++ t2 ++ t3 ++ t4
              ++ [Entry (ExecuteRemoteCommand
                           ("test -f " ++ remote_path ++ " && echo 'exists'")
                           (instance_id self) None) (Ok s)])%list.
      split; [auto 10 with trace|]. right. exists info, key, t.
      split; [|exact E]. rewrite <- ?app_assoc. reflexivity.
    + step.
      exists (t1 ++ t2 ++ t3 ++ t4
              ++ [Entry (ExecuteRemoteCommand
                           ("test -f " ++ remote_path ++ " && echo 'exists'")
                           (instance_id self) None) (Ok s)])%list.
      split; [auto 10 with trace|]. left. split; [|eauto].
      rewrite <- ?app_assoc. reflexivity.
  - step.
    exists (t1 ++ t2 ++ t3 ++ t4
            ++ [Entry (ExecuteRemoteCommand
                         ("test -f " ++ remote_path ++ " && echo 'exists'")
                         (instance_id self) None) (Err e)])%list.
    split; [auto 10 with trace|]. left. split; [|eauto].
    rewrite <- ?app_assoc. reflexivity.
Qed.

Lemma for_range_no_budget max_retries (body : Z -> prog flow) t o :
  (max_retries <= 0)%Z ->
  exec (f <- for_range max_retries body ;;
        match f with
        | Return => Ret tt
        | Continue => Raise RuntimeError
        end) t o ->
  t = [] /\ o = Raised RuntimeError.
Proof.
  intros Hm. unfold for_range.
  replace (Z.to_nat max_retries) with 0%nat by lia.
  cbn [for_range_from bind exec]. auto.
Qed.

(** With [max_retries <= 0] no attempt is made: below 2000 MB the
    relay upload raises [RuntimeError] without contacting a host or the
    instance, and [download_file] never returns and never copies. *)
Theorem no_attempt_without_budget local_path remote_path max_retries :
  (max_retries <= 0)%Z ->
  (forall t o size,
      exec (upload_via_curl self local_path remote_path max_retries) t o ->
      getsize_calls t = [Ok size] ->
      (file_size_mb size < 2000)%Q ->
      o = Raised RuntimeError /\ process_calls t = [] /\ remote_calls t = []) /\
  (forall t o,
      exec (download_file self remote_path local_path max_retries) t o ->
      (exists e, o = Raised e) /\ process_calls t = []).
Proof.
  intros Hm. split.
  - intros t o size H Hg Hs.
    unfold upload_via_curl, os_path_exists, os_path_getsize in H.
    cbn [bind call exec] in H. destruct H as (found & t1 & -> & H).
    cbn [response] in found.
    destruct found; cbn [negb exec] in H;
      [|destruct H as [-> _]; discriminate Hg].
    destruct H as (r & t2 & -> & H). cbn [response] in r.
    destruct r as [size'|e]; cbn [lift bind exec] in H;
      [|destruct H as [-> _]; discriminate Hg].
    assert (size' = size) as ->.
    { unfold getsize_calls in Hg. rewrite !project_cons in Hg.
      cbn [getsize_call] in Hg. congruence. }
    apply Qltb_lt in Hs. change 2000%Q with (inject_Z 2000) in Hs.
    destruct (Qltb (file_size_mb size) (inject_Z 25)).
    + apply for_range_no_budget in H; [|exact Hm].
      destruct H as [-> ->]. repeat split.
    + rewrite Hs in H. apply for_range_no_budget in H; [|exact Hm].
      destruct H as [-> ->]. repeat split.
  - intros t o H. apply download_file_structure in H.
    destruct H as (t0 & H0 & [[-> He] | (info & key & t1 & -> & H)]).
    + split; [exact He | exact (before_copy_no_process_calls _ H0)].
    + apply for_range_no_budget in H; [|exact Hm].
      destruct H as [-> ->]. rewrite app_nil_r.
      split; [eauto | exact (before_copy_no_process_calls _ H0)].
Qed.

(** What a loop and its final [raise] show of one kind of call: at
    most [c] per attempt, [c * max_retries] in all. *)
Lemma retry_then_raise_calls {X : Type} (f : entry -> option X) (c : nat)
  max_retries attempt_body t (o : outcome unit) :
  (forall d x, f (Entry (Sleep d) x) = None) ->
  (forall i, always (attempt_body i)
               (fun ta _ => (List.length (project f ta) <= c)%nat)) ->
  exec (fl <- for_range max_retries (retrying max_retries attempt_body) ;;
        match fl with
        | Return => Ret tt
        | Continue => Raise RuntimeError
        end) t o ->
  (List.length (project f t) <= c * Z.to_nat max_retries)%nat.
Proof.
  intros Hs Ha H. apply loop_then_raise in H. destruct H as (o' & H).
  apply retry_loop in H. destruct H as (j & Hj & Hle & _).
  destruct (retry_trace_project _ f
              (fun cs => (List.length cs <= c)%nat) _ _ _ Hs
              (attempts_always _ _ Ha) Hj) as (blocks & Hl & Hb & ->).
  assert (L : (List.length (List.concat blocks)
               <= c * List.length blocks)%nat).
  { clear Hl. induction Hb as [|b bs Hb _ IH]; cbn [List.concat List.length].
    - lia.
    - rewrite length_app. lia. }
  rewrite Hl in L. nia.
Qed.

(** The processes a transfer starts are bounded by its budget:
    [download_file] runs at most [max_retries] copies, and the relay
    upload at most two processes per attempt. *)
Theorem processes_within_budget local_path remote_path max_retries :
  (forall t o,
      exec (download_file self remote_path local_path max_retries) t o ->
      (List.length (process_calls t) <= Z.to_nat max_retries)%nat) /\
  (forall t o,
      exec (upload_via_curl self local_path remote_path max_retries) t o ->
      (List.length (process_calls t) <= 2 * Z.to_nat max_retries)%nat).
Proof.
  split.
  - intros t o H. apply download_file_structure in H.
    destruct H as (t0 & H0 & [[-> He] | (info & key & t1 & -> & H)]).
    + rewrite (before_copy_no_process_calls _ H0). cbn. lia.
    + unfold process_calls.
      rewrite project_app.
      change (project process_call t0) with (process_calls t0).
      rewrite (before_copy_no_process_calls _ H0). cbn [app].
      replace (Z.to_nat max_retries) with (1 * Z.to_nat max_retries)%nat
        by lia.
      eapply (retry_then_raise_calls process_call 1); [| |exact H].
      * reflexivity.
      * intros i. unfold scp_download_attempt, subprocess_run, os_path_exists.
        cbn [bind call lift andb]. steps; cbn; lia.
  - intros t o H.
    unfold upload_via_curl, os_path_exists, os_path_getsize in H.
    cbn [bind call exec] in H. destruct H as (found & t1 & -> & H).
    cbn [response] in found.
    destruct found; cbn [negb exec] in H; [|destruct H as [-> _]; cbn; lia].
    destruct H as (r & t2 & -> & H). cbn [response] in r.
    destruct r as [size|e]; cbn [lift bind exec] in H;
      [|destruct H as [-> _]; cbn; lia].
    unfold process_calls. rewrite !project_cons. cbn [process_call].
    destruct (Qltb (file_size_mb size) (inject_Z 25));
      [|destruct (Qltb (file_size_mb size) (inject_Z 2000))].
    + eapply (retry_then_raise_calls process_call 2); [| |exact H].
      * reflexivity.
      * intros i. eapply always_weaken; [apply transfer_sh_attempt_calls|].
        cbv beta. intros ta _ (c & _ & E). unfold process_calls in E.
        rewrite E. cbn. lia.
    + eapply (retry_then_raise_calls process_call 2); [| |exact H].
      * reflexivity.
      * intros i. eapply always_weaken; [apply gofile_attempt_calls|].
        cbv beta. intros ta _ [(a & _ & E) | (p & srv & a & _ & E)];
          unfold process_calls in E; rewrite E; cbn; lia.
    + revert t2 o H.
      change (always (manual_upload self remote_path)
                (fun t2 _ =>
                   (List.length (project process_call t2)
                    <= 2 * Z.to_nat max_retries)%nat)).
      unfold manual_upload, input, fetch_and_verify, execute_remote_command.
      cbn [bind call lift]. steps; cbn; lia.
Qed.

Lemma total_delay_app a b :
  total_delay (a ++ b) = (total_delay a + total_delay b)%Z.
Proof.
  induction a as [|[|d] a IH]; cbn [app total_delay]; lia.
Qed.

Lemma total_delay_schedule n :
  (2 * total_delay (schedule n) = 5 * Z.of_nat n * (Z.of_nat n - 1))%Z.
Proof.
  unfold schedule. induction n as [|n IH]; [reflexivity|].
  rewrite seq_S, flat_map_app, total_delay_app. cbn [flat_map].
  rewrite app_nil_r. replace (1 + n)%nat with (S n) by lia.
  destruct n as [|n]; [reflexivity|].
  unfold attempt_marks at 2. cbn [total_delay]. lia.
Qed.

Lemma total_delay_bound n max_retries :
  (n <= Z.to_nat max_retries)%nat ->
  (2 * total_delay (schedule n)
   <= 5 * Z.max 0 max_retries * (Z.max 0 max_retries - 1))%Z.
Proof.
  intros H. rewrite total_delay_schedule. nia.
Qed.

(** The time slept is bounded by the budget: at most
    [5 * m * (m - 1) / 2] seconds in [download_file] and in
    [upload_via_curl], and twice that in [upload_file], for
    [m = max(0, max_retries)]. *)
Theorem backoff_time_within_budget local_path remote_path max_retries :
  let m := Z.max 0 max_retries in
  (forall t o,
      exec (download_file self remote_path local_path max_retries) t o ->
      (2 * total_delay (marks t) <= 5 * m * (m - 1))%Z) /\
  (forall t o,
      exec (upload_via_curl self local_path remote_path max_retries) t o ->
      (2 * total_delay (marks t) <= 5 * m * (m - 1))%Z) /\
  (forall t o,
      exec (upload_file self local_path remote_path max_retries) t o ->
      (total_delay (marks t) <= 5 * m * (m - 1))%Z).
Proof.
  intros m. split; [|split]; intros t o H.
  - apply download_file_marks in H. destruct H as (n & Hn & ->).
    exact (total_delay_bound _ _ Hn).
  - apply upload_via_curl_marks in H. destruct H as (n & Hn & ->).
    exact (total_delay_bound _ _ Hn).
  - apply upload_file_marks in H. destruct H as (n1 & n2 & H1 & H2 & ->).
    rewrite total_delay_app.
    pose proof (total_delay_bound _ _ H1).
    pose proof (total_delay_bound _ _ H2). fold m in H, H0. lia.
Qed.

End Bounds.

(** ** Listings, directories and connection data *)

Section Directories.

Context {lib : PyLib} (self : FileTransfer).

(** A listing that is blank (no file under the remote directory) and
    reports no error is not a failure for [download_directory]: it
    returns, having copied nothing and asked the instance nothing
    more. *)
Theorem download_directory_blank_listing remote_dir local_dir max_retries
  t o res :
  exec (download_directory self remote_dir local_dir max_retries) t o ->
  hd_error (remote_calls t) = Some (find_cmd remote_dir, None, Ok res) ->
  listing_failed res = false ->
  PyStr.strip res = "" ->
  o = Returned tt /\ process_calls t = [] /\
  remote_calls t = [(find_cmd remote_dir, None, Ok res)].
Proof.
  intros E Hhd Hf Hs. revert t o E Hhd.
  change (always (download_directory self remote_dir local_dir max_retries)
            (fun t o =>
               hd_error (remote_calls t)
               = Some (find_cmd remote_dir, None, Ok res) ->
               o = Returned tt /\ process_calls t = [] /\
               remote_calls t = [(find_cmd remote_dir, None, Ok res)])).
  unfold download_directory, execute_remote_command.
  apply always_bind.
  eapply always_weaken; [apply ensure_ssh_access_session|]. cbv beta.
  intros t1 o1 H1.
  pose proof (session_no_remote_calls _ H1) as R1.
  pose proof (session_no_process_calls _ H1) as P1.
  unfold remote_calls, process_calls in *.
  destruct o1 as [[]|e]; [|rewrite R1; discriminate].
  apply always_bind.
  eapply always_weaken; [apply os_makedirs_session|]. cbv beta.
  intros t2 o2 H2.
  pose proof (session_no_remote_calls _ H2) as R2.
  pose proof (session_no_process_calls _ H2) as P2.
  unfold remote_calls, process_calls in *.
  destruct o2 as [[]|e]; [|rewrite project_app, R1, R2; discriminate].
  cbn [bind call lift]. apply always_vis. intros [s|e]; cbn [bind lift].
  - destruct (listing_failed s) eqn:Fs.
    + step. rewrite !project_app, R1, R2, project_cons. cbn [remote_call app].
      intros Hhd. injection Hhd as <-. congruence.
    + intros t o E. rewrite !project_app, R1, R2, P1, P2, !project_cons.
      cbn [remote_call process_call app]. intros Hhd. injection Hhd as <-.
      unfold listing_lines in E. rewrite Hs in E.
      cbn [PyStr.split for_each PyStr.is_empty bind exec] in E.
      destruct E as [-> ->]. repeat split.
  - step. rewrite !project_app, R1, R2, project_cons. cbn [remote_call app].
    discriminate.
Qed.

Lemma split_pieces sep s :
  Forall (fun p => PyStr.forallb_str (fun c => negb (Ascii.eqb c sep)) p = true)
         (PyStr.split sep s).
Proof.
  induction s as [|c r IH]; cbn [PyStr.split].
  - repeat constructor.
  - destruct (Ascii.eqb c sep) eqn:E.
    + constructor; [reflexivity | exact IH].
    + destruct (PyStr.split sep r) as [|h t].
      * constructor; [|constructor]. cbn. rewrite E. reflexivity.
      * inversion IH as [|x l Hh Ht]. subst. constructor; [|exact Ht].
        cbn [PyStr.forallb_str]. rewrite E, Hh. reflexivity.
Qed.

(** No path [list_remote_files] returns is empty, and none holds a
    line feed, the character the answer is split at.  (Other line
    breaks are not split at: a carriage return stays in the path.) *)
Theorem list_remote_files_entries remote_path t paths :
  exec (list_remote_files self remote_path) t (Returned paths) ->
  Forall (fun p => p <> "" /\
                   PyStr.forallb_str
                     (fun c => negb (Ascii.eqb c "010")) p = true) paths.
Proof.
  unfold list_remote_files, execute_remote_command. intros H.
  apply exec_bind_inv in H.
  destruct H as [(e & _ & D) | ([] & t1 & t2 & _ & H & ->)];
    [discriminate D|].
  cbn [bind call lift exec] in H. destruct H as (r & t3 & -> & H).
  cbn [response] in r. destruct r as [s|e]; cbn [lift bind] in H;
    [|destruct H as [_ D]; discriminate D].
  destruct (listing_failed s).
  - destruct H as [_ D]. injection D as ->. constructor.
  - destruct H as [_ D]. injection D as ->.
    apply Forall_forall. intros p Hp. apply filter_In in Hp.
    destruct Hp as [Hin Hne]. split.
    + intros ->. discriminate Hne.
    + pose proof (split_pieces "010" (PyStr.strip s)) as F.
      rewrite Forall_forall in F. exact (F p Hin).
Qed.

(** [upload_directory] returns only after the extraction on the
    instance answered [success], followed by the removal of the local
    archive. *)
Theorem upload_directory_returns_extracted local_dir remote_dir max_retries t :
  exec (upload_directory self local_dir remote_dir max_retries) t
       (Returned tt) ->
  exists before answer temp_archive cleanup,
    t = (before
         ++ Entry (ExecuteRemoteCommand (extract_cmd remote_dir)
                     (instance_id self) (Some 300)) (Ok answer)
         :: cleanup)%list /\
    PyStr.contains "success" answer = true /\
    (cleanup = [Entry (PathExists temp_archive) false] \/
     cleanup = [Entry (PathExists temp_archive) true;
                Entry (Unlink temp_archive) (Ok tt)]).
Proof.
  unfold upload_directory, os_path_isdir. cbn [bind call exec].
  intros (d & t0 & -> & H). cbn [response] in d.
  destruct d; cbn [negb] in H; [|destruct H as [_ D]; discriminate D].
  apply exec_bind_inv in H.
  destruct H as [(e & _ & D) | ([] & t1 & t2 & _ & H & ->)];
    [discriminate D|].
  apply exec_bind_inv in H.
  destruct H as [(e & _ & D) | (u & t3 & t4 & _ & H & ->)];
    [discriminate D|].
  cbn [exec] in H. destruct H as (r & t5 & -> & H). cbn [response] in r.
  destruct r as [temp|e]; cbn [lift bind] in H;
    [|destruct H as [_ D]; discriminate D].
  apply exec_try_finally_inv in H.
  destruct H as (tb & tc & ob & oc & Hb & Hc & -> & Ho).
  destruct oc as [[]|e]; [subst ob | discriminate Ho].
  (* the body: archive, upload, extraction *)
  apply exec_bind_inv in Hb.
  destruct Hb as [(e & _ & D) | (p & tb1 & tb2 & _ & Hb & ->)];
    [discriminate D|].
  apply exec_bind_inv in Hb.
  destruct Hb as [(e & _ & D) | ([] & tb3 & tb4 & _ & Hb & ->)];
    [discriminate D|].
  unfold execute_remote_command in Hb. cbn [bind call exec] in Hb.
  destruct Hb as (a & tb5 & -> & Hb). cbn [response] in a.
  destruct a as [answer|e]; cbn [lift bind] in Hb;
    [|destruct Hb as [_ D]; discriminate D].
  destruct (PyStr.contains "success" answer) eqn:S; cbn [negb] in Hb;
    [|destruct Hb as [_ D]; discriminate D].
  destruct Hb as [-> _].
  (* the cleanup *)
  unfold remove_archive, os_path_exists, os_unlink in Hc.
  cbn [bind call exec] in Hc. destruct Hc as (found & tc1 & -> & Hc).
  cbn [response] in found.
  exists (Entry (PathIsDir local_dir) true
          :: t1 ++ t3 ++ Entry (NamedTemporaryFile ".tar.gz") (Ok temp)
             :: tb1 ++ tb3)%list, answer, temp.
  destruct found.
  - cbn [exec] in Hc. destruct Hc as (r & tc2 & -> & Hc). cbn [response] in r.
    destruct r as [[]|e]; cbn [lift] in Hc;
      [|destruct Hc as [_ D]; discriminate D].
    destruct Hc as [-> _].
    eexists. split; [|split; [exact S | right; reflexivity]].
    cbn [app]. f_equal. rewrite <- !app_assoc. cbn [app].
    rewrite <- !app_assoc. reflexivity.
  - destruct Hc as [-> _].
    eexists. split; [|split; [exact S | left; reflexivity]].
    cbn [app]. f_equal. rewrite <- !app_assoc. cbn [app].
    rewrite <- !app_assoc. reflexivity.
Qed.

(** Without a live session, [_get_ssh_info] takes the endpoint from
    the instance data: the user is always [ubuntu], whoever a
    handshake succeeded as, the port is an integer, and neither the
    environment nor a handshake is involved. *)
Theorem get_ssh_info_without_session t info :
  exec (_get_ssh_info self) t (Returned info) ->
  project connected_call t = [false] ->
  ssh_username info = JStr "ubuntu" /\
  (exists port, ssh_port info = JInt port) /\
  connect_calls t = [] /\ environ_calls t = [].
Proof.
  unfold _get_ssh_info. cbn [bind call exec].
  intros (c & t1 & -> & H) Hc. cbn [response] in c.
  rewrite project_cons in Hc. cbn [connected_call] in Hc.
  injection Hc as -> Hc.
  apply exec_bind_inv in H.
  destruct H as [(e & _ & D) | (ip & t2 & t3 & H2 & H & ->)];
    [discriminate D|].
  apply get_instance_ip_one_call in H2. destruct H2 as (x & -> & _).
  destruct ip as [[host port]|]; [|destruct H as [_ D]; discriminate D].
  destruct H as [-> D]. injection D as ->. cbn. eauto.
Qed.

End Directories.

(** ** More worked examples *)

Lemma ensure_ssh_access_requires_key_witness :
  fst (run keyless_world [] (_ensure_ssh_access gpu))
  = [Entry IsConnected false; Entry (Environ "SSH_PRIVATE_KEY_PATH") None] /\
  snd (run keyless_world [] (_ensure_ssh_access gpu)) = Raised ValueError.
Proof.
  apply (ensure_ssh_access_requires_key gpu).
  - apply run_exec.
  - reflexivity.
  - left. reflexivity.
Defined.

Lemma ensure_ssh_access_requires_key_file_witness :
  let r := run missing_key_file_world [] (_ensure_ssh_access gpu) in
  snd r = Raised FileNotFoundError /\
  status_calls (fst r) = [] /\ connect_calls (fst r) = [].
Proof.
  apply (ensure_ssh_access_requires_key_file gpu _ _ "/home/user/.ssh/id_rsa").
  - apply run_exec.
  - reflexivity.
Defined.

Lemma ensure_ssh_access_handshakes_witness :
  handshake_protocol
    (fst (run root_only_world [] (_ensure_ssh_access gpu)))
    (snd (run root_only_world [] (_ensure_ssh_access gpu))).
Proof.
  apply (ensure_ssh_access_handshakes gpu). apply run_exec.
Defined.

Example root_after_ubuntu :
  let r := run root_only_world [] (_ensure_ssh_access gpu) in
  map (fun c => match c with (_, user, _, port, _, _) => (user, port) end)
      (connect_calls (fst r))
  = [("ubuntu", 31022%Z); ("root", 31022%Z)] /\
  snd r = Returned tt.
Proof. vm_compute. split; reflexivity. Qed.

Lemma ensure_ssh_access_undecodable_status_witness :
  let r := run (text_status_world "<html>busy</html>") []
             (_ensure_ssh_access gpu) in
  snd r = Raised RuntimeError /\ connect_calls (fst r) = [].
Proof.
  apply (ensure_ssh_access_undecodable_status gpu _ _ "<html>busy</html>"
           JSONDecodeError).
  - apply run_exec.
  - vm_compute. left. reflexivity.
  - reflexivity.
Defined.

Example overlong_integer_status_raises_value_error :
  let r := run (text_status_world (ones 4301)) [] (_ensure_ssh_access gpu) in
  snd r = Raised ValueError /\ connect_calls (fst r) = [].
Proof. vm_compute. split; reflexivity. Qed.

Lemma upload_via_curl_returns_verified_witness :
  ends_fetched_and_verified gpu "/remote/clip.mp4"
    (fst (run (working_world "https://transfer.sh/k3/clip.mp4" "success exists")
            [] (upload_via_curl gpu "/data/clip.mp4" "/remote/clip.mp4" 3))).
Proof.
  apply (upload_via_curl_returns_verified gpu "/data/clip.mp4" _ 3).
  pose proof (run_exec
                (working_world "https://transfer.sh/k3/clip.mp4"
                   "success exists")
                (upload_via_curl gpu "/data/clip.mp4" "/remote/clip.mp4" 3)
                []) as E.
  assert (O : snd (run (working_world "https://transfer.sh/k3/clip.mp4"
                          "success exists") []
                     (upload_via_curl gpu "/data/clip.mp4" "/remote/clip.mp4"
                        3))
              = Returned tt) by (vm_compute; reflexivity).
  rewrite O in E. exact E.
Defined.

Lemma download_file_returns_found_witness :
  ends_copied_and_found "/tmp/out.mp4"
    (fst (run (working_world "" "exists") []
            (download_file gpu "/remote/out.mp4" "/tmp/out.mp4" 3))).
Proof.
  apply (download_file_returns_found gpu "/remote/out.mp4" _ 3).
  pose proof (run_exec (working_world "" "exists")
                (download_file gpu "/remote/out.mp4" "/tmp/out.mp4" 3) [])
    as E.
  assert (O : snd (run (working_world "" "exists") []
                     (download_file gpu "/remote/out.mp4" "/tmp/out.mp4" 3))
              = Returned tt) by (vm_compute; reflexivity).
  rewrite O in E. exact E.
Defined.

Lemma upload_file_returns_verified_witness :
  let t := fst (run (working_world "" "exists") []
                  (upload_file gpu "/data/clip.mp4" "/remote/clip.mp4" 2)) in
  ends_fetched_and_verified gpu "/remote/clip.mp4" t \/
  ends_copied_and_verified gpu "/remote/clip.mp4" t.
Proof.
  apply (upload_file_returns_verified gpu "/data/clip.mp4" _ 2).
  pose proof (run_exec (working_world "" "exists")
                (upload_file gpu "/data/clip.mp4" "/remote/clip.mp4" 2) [])
    as E.
  assert (O : snd (run (working_world "" "exists") []
                     (upload_file gpu "/data/clip.mp4" "/remote/clip.mp4" 2))
              = Returned tt) by (vm_compute; reflexivity).
  rewrite O in E. exact E.
Defined.

Lemma local_checks_come_first_witness :
  fst (run empty_disk_world []
         (upload_file gpu "/data/clip.mp4" "/remote/clip.mp4" 3))
  = [Entry (PathExists "/data/clip.mp4") false] /\
  snd (run empty_disk_world []
         (upload_file gpu "/data/clip.mp4" "/remote/clip.mp4" 3))
  = Raised FileNotFoundError.
Proof.
  destruct (proj1 (local_checks_come_first gpu "/data/clip.mp4"
                     "/remote/clip.mp4" 3)
              _ _ (tl (fst (run empty_disk_world []
                              (upload_file gpu "/data/clip.mp4"
                                 "/remote/clip.mp4" 3))))
              (run_exec empty_disk_world
                 (upload_file gpu "/data/clip.mp4" "/remote/clip.mp4" 3) [])
              eq_refl) as [_ O].
  split; [reflexivity | exact O].
Defined.

Lemma no_attempt_without_budget_witness :
  let r := run (remote_world "exists") []
             (download_file gpu "/remote/out.mp4" "/tmp/out.mp4" 0) in
  (exists e, snd r = Raised e) /\ process_calls (fst r) = [].
Proof.
  apply (proj2 (no_attempt_without_budget gpu "/tmp/out.mp4"
                  "/remote/out.mp4" 0 (Z.le_refl 0))).
  apply run_exec.
Defined.

Lemma processes_within_budget_witness :
  (List.length
     (process_calls
        (fst (run (remote_world "exists") []
                (download_file gpu "/remote/out.mp4" "/tmp/out.mp4" 3))))
   <= Z.to_nat 3)%nat.
Proof.
  apply (proj1 (processes_within_budget gpu "/tmp/out.mp4"
                  "/remote/out.mp4" 3)
           _ (snd (run (remote_world "exists") []
                     (download_file gpu "/remote/out.mp4" "/tmp/out.mp4" 3)))).
  apply run_exec.
Defined.

Lemma backoff_time_within_budget_witness :
  (2 * total_delay
         (marks
            (fst (run (remote_world "exists") []
                    (download_file gpu "/remote/out.mp4" "/tmp/out.mp4" 3))))
   <= 5 * Z.max 0 3 * (Z.max 0 3 - 1))%Z.
Proof.
  apply (proj1 (backoff_time_within_budget gpu "/tmp/out.mp4"
                  "/remote/out.mp4" 3)
           _ (snd (run (remote_world "exists") []
                     (download_file gpu "/remote/out.mp4" "/tmp/out.mp4" 3)))).
  apply run_exec.
Defined.

Example three_failed_copies_sleep_fifteen_seconds :
  total_delay
    (marks
       (fst (run (remote_world "exists") []
               (download_file gpu "/remote/out.mp4" "/tmp/out.mp4" 3))))
  = 15%Z.
Proof. vm_compute. reflexivity. Qed.

Lemma download_directory_blank_listing_witness :
  let r := run (remote_world "") []
             (download_directory gpu "/remote/out" "/tmp/out" 3) in
  snd r = Returned tt /\ process_calls (fst r) = [] /\
  remote_calls (fst r) = [(find_cmd "/remote/out", None, Ok "")].
Proof.
  apply (download_directory_blank_listing gpu "/remote/out" "/tmp/out" 3
           _ _ "").
  - apply run_exec.
  - reflexivity.
  - reflexivity.
  - reflexivity.
Defined.

Lemma list_remote_files_entries_witness :
  Forall (fun p => p <> "" /\
                   PyStr.forallb_str
                     (fun c => negb (Ascii.eqb c "010")) p = true)
         ["/remote/out/a.mp4"; "/remote/out/b.mp4"].
Proof.
  apply (list_remote_files_entries gpu "/remote/out"
           (fst (run (remote_world
                        ("/remote/out/a.mp4"
                         ++ String "010" ("/remote/out/b.mp4"
                                          ++ String "010" "")))
                   [] (list_remote_files gpu "/remote/out")))).
  pose proof (run_exec
                (remote_world
                   ("/remote/out/a.mp4"
                    ++ String "010" ("/remote/out/b.mp4" ++ String "010" "")))
                (list_remote_files gpu "/remote/out") []) as E.
  assert (O : snd (run (remote_world
                          ("/remote/out/a.mp4"
                           ++ String "010" ("/remote/out/b.mp4"
                                            ++ String "010" "")))
                     [] (list_remote_files gpu "/remote/out"))
              = Returned ["/remote/out/a.mp4"; "/remote/out/b.mp4"])
    by (vm_compute; reflexivity).
  rewrite O in E. exact E.
Defined.

Example carriage_return_stays_in_the_path :
  snd (run (remote_world
              ("/remote/out/a.mp4"
               ++ String "013" (String "010" ("/remote/out/b.mp4"
                                              ++ String "010" ""))))
         [] (list_remote_files gpu "/remote/out"))
  = Returned ["/remote/out/a.mp4" ++ String "013" ""; "/remote/out/b.mp4"].
Proof. vm_compute. reflexivity. Qed.

Lemma upload_directory_returns_extracted_witness :
  exists before answer temp_archive cleanup,
    fst (run (working_world "https://transfer.sh/k3/frames.tar.gz"
                "success exists") []
           (upload_directory gpu "/data/frames" "/remote/frames" 2))
    = (before
       ++ Entry (ExecuteRemoteCommand (extract_cmd "/remote/frames")
                   (instance_id gpu) (Some 300)) (Ok answer)
       :: cleanup)%list /\
    PyStr.contains "success" answer = true /\
    (cleanup = [Entry (PathExists temp_archive) false] \/
     cleanup = [Entry (PathExists temp_archive) true;
                Entry (Unlink temp_archive) (Ok tt)]).
Proof.
  apply (upload_directory_returns_extracted gpu "/data/frames"
           "/remote/frames" 2).
  pose proof (run_exec
                (working_world "https://transfer.sh/k3/frames.tar.gz"
                   "success exists")
                (upload_directory gpu "/data/frames" "/remote/frames" 2) [])
    as E.
  assert (O : snd (run (working_world "https://transfer.sh/k3/frames.tar.gz"
                          "success exists") []
                     (upload_directory gpu "/data/frames" "/remote/frames" 2))
              = Returned tt) by (vm_compute; reflexivity).
  rewrite O in E. exact E.
Defined.

Lemma get_ssh_info_without_session_witness :
  ssh_username
    {| ssh_host := JStr "10.0.0.5"; ssh_username := JStr "ubuntu";
       ssh_port := JInt 31022 |} = JStr "ubuntu" /\
  (exists port,
      ssh_port {| ssh_host := JStr "10.0.0.5"; ssh_username := JStr "ubuntu";
                  ssh_port := JInt 31022 |} = JInt port) /\
  connect_calls (fst (run root_only_world [] (_get_ssh_info gpu))) = [] /\
  environ_calls (fst (run root_only_world [] (_get_ssh_info gpu))) = [].
Proof.
  apply (get_ssh_info_without_session gpu).
  - pose proof (run_exec root_only_world (_get_ssh_info gpu) []) as E.
    assert (O : snd (run root_only_world [] (_get_ssh_info gpu))
                = Returned {| ssh_host := JStr "10.0.0.5";
                              ssh_username := JStr "ubuntu";
                              ssh_port := JInt 31022 |})
      by (vm_compute; reflexivity).
    rewrite O in E. exact E.
  - reflexivity.
Defined.

Lemma init_returns_with_session_witness :
  let t := fst (run root_only_world [] (__init__ "gpu-1")) in
  instance_id gpu = "gpu-1" /\
  ((project connected_call t = [true] /\ connect_calls t = []) \/
   (exists earlier host user key port password answer,
       connect_calls t
       = (earlier ++ [(host, user, key, port, password, Ok answer)])%list /\
       PyStr.contains connected_marker answer = true)).
Proof.
  apply (init_returns_with_session "gpu-1").
  pose proof (run_exec root_only_world (__init__ "gpu-1") []) as E.
  assert (O : snd (run root_only_world [] (__init__ "gpu-1")) = Returned gpu)
    by (vm_compute; reflexivity).
  rewrite O in E. exact E.
Defined.

(** A world with a live session in which the relay hosts are down
    ([curl] exits with status 7) and the secure copy works. *)
Lemma upload_file_falls_back_with_full_budget_witness :
  let t0 := fst (run relay_down_world []
                   (upload_setup gpu "/data/clip.mp4" "/remote/clip.mp4")) in
  let t1 := fst (run relay_down_world t0
                   (upload_via_curl gpu "/data/clip.mp4" "/remote/clip.mp4"
                      2)) in
  let (t2, o) :=
    run relay_down_world (t0 ++ t1)%list
      (scp_upload gpu "/data/clip.mp4" "/remote/clip.mp4" 2) in
  run relay_down_world []
    (upload_file gpu "/data/clip.mp4" "/remote/clip.mp4" 2)
  = ((t0 ++ t1 ++ t2)%list, o) /\
  match run relay_down_world (t0 ++ t1)%list (scp_connection gpu) with
  | (tc, Raised e') => t2 = tc /\ o = Raised e' /\ process_calls t2 = []
  | (tc, Returned (info, key)) =>
      exists t_loop n,
        t2 = (tc ++ t_loop)%list /\
        process_calls tc = [] /\
        (n <= Z.to_nat 2)%nat /\
        marks t_loop = schedule n /\
        map fst (process_calls t_loop)
        = repeat (scp_upload_cmd info key "/data/clip.mp4"
                    "/remote/clip.mp4") n /\
        retry_outcome (Z.to_nat 2) n o /\
        (o = Returned tt ->
         ends_copied_and_verified gpu "/remote/clip.mp4" t_loop)
  end.
Proof.
  apply (upload_file_falls_back_with_full_budget gpu relay_down_world
           "/data/clip.mp4" "/remote/clip.mp4" 2 _ _ RuntimeError).
  - vm_compute. reflexivity.
  - vm_compute. reflexivity.
  - reflexivity.
Defined.

Example fallback_copies_after_the_relay_failed :
  let r := run relay_down_world []
             (upload_file gpu "/data/clip.mp4" "/remote/clip.mp4" 2) in
  map (fun c => hd "" (fst c)) (process_calls (fst r))
  = ["curl"; "curl"; "scp"] /\
  marks (fst r) = (schedule 2 ++ schedule 1)%list /\
  snd r = Returned tt.
Proof. vm_compute. repeat split. Qed.

Example fallback_uses_the_whole_budget :
  let r := run quiet_world []
             (upload_file gpu "/data/clip.mp4" "/remote/clip.mp4" 2) in
  map (fun c => hd "" (fst c)) (process_calls (fst r))
  = ["curl"; "curl"; "scp"; "scp"] /\
  marks (fst r) = (schedule 2 ++ schedule 2)%list /\
  snd r = Raised RuntimeError.
Proof. vm_compute. repeat split. Qed.
